(** * Sophiallm: document segmentation and lexical retrieval

    A shallow embedding of the segmentation and retrieval core of the
    repository:

    - [src/frontend/api_server.py]: [simple_text_similarity],
      [is_quality_chunk], [search_books];
    - [src/embeddings/text_processor.py]: [chunk_text],
      [extract_chapters], the chapter fallback of [process_book_file],
      [validate_chunks];
    - [src/frontend/api_server.py]: also [generate_answer] and [chat];
    - [src/embeddings/interactive_rag.py]: [search_books] and the guard
      of the question loop;
    - [src/embeddings/text_processor.py]: also [process_book_file];
    - [src/embeddings/book_processor.py]: [process_books];
    - [src/embeddings/vertex_embeddings.py]: [generate_embeddings], the
      datapoint ids of [upsert_embeddings] and their parsing in
      [search_similar];
    - [src/embeddings/config.py]: the chunking constants.

    Conventions of the embedding.

    - A Python [str] is a [string] whose characters are read as the code
      points U+0000..U+00FF (Latin-1).  The character classes below
      ([\s], [\w], [\d], [str.lower], [str.isupper]) are the Unicode ones,
      restricted to that range.
    - A Python [int] is a [Z].
    - A Python [float] is a canonical rational [Qc]: the exact value of
      which the binary64 number is the rounding.  The floats of this
      code are quotients of two lengths, [word_count / 100], the
      literals [0.3] and [0.5] and sums and products of these; binary64
      rounding itself is not modelled.  Where an integer is compared
      with [n * 0.3] or [n * 0.5], [n] a length, the rounded product
      and the exact one lie on the same side of every integer.
    - A chunk record (a [dict] loaded from JSON) is a [gmap string value],
      with integer and string values.
    - Code that may raise returns an [outcome]; the [while] loop of
      [chunk_text] takes fuel, and [OutOfFuel] means that the loop was
      still running when the fuel ran out.
    - What the code calls outside the repository (the chat completion of
      [generate_answer], the tokenizer behind [count_tokens], the
      embedding endpoint, the reading of a book file) is a variable of
      the section that models the caller. *)

From Stdlib Require Import QArith Qcanon Ascii DecimalString DecimalPos DecimalZ.
From Stdlib Require String.
From stdpp Require Import gmap strings list fin_maps numbers sorting.

Local Open Scope Z_scope.

(* ===================================================================== *)
(** * The Python runtime: outcomes, values, strings, numbers *)
(* ===================================================================== *)

Module Py.

(** ** Exceptions and outcomes *)

Inductive exn : Type :=
| KeyError
| TypeError
| AttributeError
| IndexError.

Inductive outcome (A : Type) : Type :=
| Returns (a : A)
| Raises (e : exn)
| OutOfFuel.
Global Arguments Returns {A} a.
Global Arguments Raises {A} e.
Global Arguments OutOfFuel {A}.

Global Instance outcome_ret : MRet outcome := λ A, Returns.
Global Instance outcome_bind : MBind outcome := λ A B f m,
  match m with
  | Returns a => f a
  | Raises e => Raises e
  | OutOfFuel => OutOfFuel
  end.

(** [[x for x in l if p(x)]] where [p] may raise. *)
Fixpoint filterM {A} (p : A → outcome bool) (l : list A) : outcome (list A) :=
  match l with
  | [] => Returns []
  | x :: l' =>
      b ← p x;
      k ← filterM p l';
      Returns (if b : bool then x :: k else k)
  end.

(** ** Values and dictionaries *)

Inductive value : Type :=
| VInt (n : Z)
| VStr (s : string).

Global Instance value_eq_dec : EqDecision value.
Proof. solve_decision. Defined.

Abbreviation dict := (gmap string value).

(** [d[k]] *)
Definition getitem (d : dict) (k : string) : outcome value :=
  match d !! k with
  | Some v => Returns v
  | None => Raises KeyError
  end.

(** [d.get(k, dflt)] *)
Definition get (d : dict) (k : string) (dflt : value) : value :=
  default dflt (d !! k).

(** [k in d] *)
Definition contains (d : dict) (k : string) : bool :=
  bool_decide (is_Some (d !! k)).

(** The receiver of a [str] method: an [int] has no such attribute. *)
Definition str_method (v : value) : outcome string :=
  match v with
  | VStr s => Returns s
  | VInt _ => Raises AttributeError
  end.

(** The integer operand of [v < n], [v > n], [v / n]: a [str] there is
    a [TypeError]. *)
Definition int_operand (v : value) : outcome Z :=
  match v with
  | VInt n => Returns n
  | VStr _ => Raises TypeError
  end.

(** ** Floats *)

(** [a / b] on two ints (true division); every divisor in the modelled
    code is positive. *)
Definition truediv (a b : Z) : Qc := (Qc_of_Z a / Qc_of_Z b)%Qc.

(** [min(x, y)]: the first argument unless the second is smaller. *)
Definition min (x y : Qc) : Qc := if bool_decide (y < x)%Qc then y else x.

(** The literals [0.3] and [0.5]. *)
Definition f0_3 : Qc := Q2Qc (3 # 10).
Definition f0_5 : Qc := Q2Qc (1 # 2).

(** ** Characters *)

Definition code (c : ascii) : N := N_of_ascii c.

Definition in_range (lo hi : N) (c : ascii) : bool :=
  ((lo <=? code c) && (code c <=? hi))%N.

Definition LF : ascii := ascii_of_N 10.

(** [str.isspace], which is also [\s]. *)
Definition is_space (c : ascii) : bool :=
  in_range 9 13 c || in_range 28 32 c
  || (code c =? 133)%N || (code c =? 160)%N.

(** [\d]: the decimal digits. *)
Definition is_digit (c : ascii) : bool := in_range 48 57 c.

(** [A-Z] and [a-z]. *)
Definition is_ascii_upper (c : ascii) : bool := in_range 65 90 c.
Definition is_ascii_lower (c : ascii) : bool := in_range 97 122 c.

(** [str.isupper] on one character: A-Z and the Latin-1 capitals. *)
Definition is_upper (c : ascii) : bool :=
  is_ascii_upper c || in_range 192 214 c || in_range 216 222 c.

(** [\w]: alphanumeric or underscore. *)
Definition is_word (c : ascii) : bool :=
  is_digit c || is_ascii_upper c || is_ascii_lower c || (code c =? 95)%N
  || (code c =? 170)%N || in_range 178 179 c || (code c =? 181)%N
  || in_range 185 186 c || in_range 188 190 c
  || in_range 192 214 c || in_range 216 246 c || in_range 248 255 c.

(** [[:\s]] *)
Definition colon_or_space (c : ascii) : bool := Ascii.eqb c ":" || is_space c.

(** [str.lower] on one character. *)
Definition lower_char (c : ascii) : ascii :=
  if is_upper c then ascii_of_N (code c + 32) else c.

(** ** Strings *)

Definition len (s : string) : Z := Z.of_nat (String.length s).

Fixpoint lower (s : string) : string :=
  match s with
  | EmptyString => EmptyString
  | String c s' => String (lower_char c) (lower s')
  end.

Fixpoint lstrip (s : string) : string :=
  match s with
  | EmptyString => EmptyString
  | String c s' => if is_space c then lstrip s' else s
  end.

Definition rstrip (s : string) : string :=
  String.rev (lstrip (String.rev s)).

(** [s.strip()] *)
Definition strip (s : string) : string := rstrip (lstrip s).

(** [s.count(c)] for a one-character [c]. *)
Fixpoint count (c : ascii) (s : string) : Z :=
  match s with
  | EmptyString => 0
  | String c' s' => (if Ascii.eqb c' c then 1 else 0) + count c s'
  end.

(** [s.startswith(p)] *)
Definition startswith (s p : string) : bool := String.prefix p s.

(** [s.endswith(p)]: some suffix of [s] is [p]. *)
Fixpoint endswith (s p : string) : bool :=
  if String.eqb s p then true
  else match s with
       | EmptyString => false
       | String _ s' => endswith s' p
       end.

(** [s.endswith((p1, ..., pn))] *)
Definition endswith_any (s : string) (ps : list string) : bool :=
  existsb (endswith s) ps.

(** The maximal runs of characters satisfying [p]; [cur] is the run
    being read, reversed.  This is [re.findall] for a pattern [[p]+]. *)
Fixpoint runs_go (p : ascii → bool) (cur : string) (s : string) : list string :=
  match s with
  | EmptyString =>
      match cur with EmptyString => [] | _ => [String.rev cur] end
  | String c s' =>
      if p c then runs_go p (String c cur) s'
      else match cur with
           | EmptyString => runs_go p EmptyString s'
           | _ => String.rev cur :: runs_go p EmptyString s'
           end
  end.
Definition runs (p : ascii → bool) (s : string) : list string :=
  runs_go p EmptyString s.

(** [s.split()]: the maximal runs of non-whitespace. *)
Definition split_ws (s : string) : list string :=
  runs (λ c, negb (is_space c)) s.

(** The pieces between separators satisfying [sep], where a maximal run
    of separators counts once; [cur] is the piece being read, reversed.
    This is [re.split] for a pattern [[sep]+]. *)
Fixpoint split_runs_go (sep : ascii → bool) (in_sep : bool) (cur : string)
    (s : string) : list string :=
  match s with
  | EmptyString => [String.rev cur]
  | String c s' =>
      if sep c then
        if in_sep then split_runs_go sep true cur s'
        else String.rev cur :: split_runs_go sep true EmptyString s'
      else split_runs_go sep false (String c cur) s'
  end.
Definition split_runs (sep : ascii → bool) (s : string) : list string :=
  split_runs_go sep false EmptyString s.

(** [s.split(c)] for a one-character separator: every separator
    splits, and empty pieces are kept. *)
Fixpoint split_char_go (sep : ascii) (cur : string) (s : string) : list string :=
  match s with
  | EmptyString => [String.rev cur]
  | String c s' =>
      if Ascii.eqb c sep then String.rev cur :: split_char_go sep EmptyString s'
      else split_char_go sep (String c cur) s'
  end.
Definition split_char (sep : ascii) (s : string) : list string :=
  split_char_go sep EmptyString s.

(** [sep.join(l)] *)
Fixpoint join (sep : string) (l : list string) : string :=
  match l with
  | [] => EmptyString
  | [x] => x
  | x :: l' => x +:+ sep +:+ join sep l'
  end.

(** [s[i]] with Python's negative indices. *)
Definition index (s : string) (i : Z) : outcome ascii :=
  let j := if i <? 0 then i + len s else i in
  if (0 <=? j) && (j <? len s) then
    match String.get (Z.to_nat j) s with
    | Some c => Returns c
    | None => Raises IndexError
    end
  else Raises IndexError.

(** A slice bound, clamped as Python does. *)
Definition clamp (n : Z) (i : Z) : Z :=
  if i <? 0 then Z.max (i + n) 0 else Z.min i n.

(** [s[a:b]] *)
Definition slice (s : string) (a b : Z) : string :=
  let a' := clamp (len s) a in
  let b' := clamp (len s) b in
  String.substring (Z.to_nat a') (Z.to_nat (b' - a')) s.

(** [l[:k]] on a list. *)
Definition list_slice_to {A} (l : list A) (k : Z) : list A :=
  take (Z.to_nat (clamp (Z.of_nat (length l)) k)) l.

(** [range(a, b, -1)] as the number of its elements, counted down
    from [a]. *)
Definition range_down_count (a b : Z) : nat := Z.to_nat (a - b).

End Py.

(* ===================================================================== *)
(** * Regular expressions: searching with derivatives *)
(* ===================================================================== *)

Module Regex.

Inductive regex : Type :=
| Empty
| Eps
| Sym (p : ascii → bool)
| Cat (r1 r2 : regex)
| Alt (r1 r2 : regex)
| Star (r : regex).

Fixpoint nullable (r : regex) : bool :=
  match r with
  | Empty => false
  | Eps => true
  | Sym _ => false
  | Cat r1 r2 => nullable r1 && nullable r2
  | Alt r1 r2 => nullable r1 || nullable r2
  | Star _ => true
  end.

Definition cat (r1 r2 : regex) : regex :=
  match r1 with
  | Empty => Empty
  | Eps => r2
  | _ => match r2 with Empty => Empty | _ => Cat r1 r2 end
  end.

Definition alt (r1 r2 : regex) : regex :=
  match r1 with
  | Empty => r2
  | _ => match r2 with Empty => r1 | _ => Alt r1 r2 end
  end.

Fixpoint deriv (c : ascii) (r : regex) : regex :=
  match r with
  | Empty | Eps => Empty
  | Sym p => if p c then Eps else Empty
  | Cat r1 r2 =>
      alt (cat (deriv c r1) r2) (if nullable r1 then deriv c r2 else Empty)
  | Alt r1 r2 => alt (deriv c r1) (deriv c r2)
  | Star r1 => cat (deriv c r1) (Star r1)
  end.

(** The whole of [s] is in the language of [r]. *)
Fixpoint matches (r : regex) (s : string) : bool :=
  match s with
  | EmptyString => nullable r
  | String c s' =>
      match r with Empty => false | _ => matches (deriv c r) s' end
  end.

(** Some prefix of [s] is in the language of [r]. *)
Fixpoint matches_prefix (r : regex) (s : string) : bool :=
  nullable r ||
  match s with
  | EmptyString => false
  | String c s' =>
      match r with Empty => false | _ => matches_prefix (deriv c r) s' end
  end.

(** A pattern: [^] in front or not, the body, [$] behind or not. *)
Record pattern : Type := Pattern {
  at_start : bool;
  body : regex;
  at_end : bool
}.

(** What [$] accepts without [re.MULTILINE]: the end of the string, or
    a newline that is its last character. *)
Definition eol : regex := Alt Eps (Sym (Ascii.eqb Py.LF)).

(** A match of the pattern that starts at the head of [s]. *)
Definition match_here (p : pattern) (s : string) : bool :=
  if at_end p then matches (Cat (body p) eol) s
  else matches_prefix (body p) s.

Fixpoint search_from (p : pattern) (s : string) : bool :=
  match_here p s ||
  match s with
  | EmptyString => false
  | String _ s' => search_from p s'
  end.

(** [re.search(p, s)] as a truth value. *)
Definition search (p : pattern) (s : string) : bool :=
  if at_start p then match_here p s else search_from p s.

(** ** Writing patterns *)

Definition seq (rs : list regex) : regex := foldr Cat Eps rs.

Definition chr (c : ascii) : regex := Sym (Ascii.eqb c).

(** A character under [re.IGNORECASE]. *)
Definition chr_ci (c : ascii) : regex :=
  Sym (λ x, Ascii.eqb (Py.lower_char x) (Py.lower_char c)).

Fixpoint lit (s : string) : regex :=
  match s with
  | EmptyString => Eps
  | String c s' => Cat (chr c) (lit s')
  end.

Fixpoint lit_ci (s : string) : regex :=
  match s with
  | EmptyString => Eps
  | String c s' => Cat (chr_ci c) (lit_ci s')
  end.

(** [.]: any character but a newline. *)
Definition dot : regex := Sym (λ c, negb (Ascii.eqb c Py.LF)).
Definition digit : regex := Sym Py.is_digit.
Definition space : regex := Sym Py.is_space.

Definition plus (r : regex) : regex := Cat r (Star r).
Definition opt (r : regex) : regex := Alt r Eps.

Definition unanchored (r : regex) : pattern := Pattern false r false.

End Regex.

(* ===================================================================== *)
(** * [src/frontend/api_server.py] *)
(* ===================================================================== *)

Module ApiServer.
Import Py Regex.

(** ** [simple_text_similarity] *)

(** [set(re.findall(r'\w+', s.lower()))] *)
Definition word_set (s : string) : gset string :=
  list_to_set (runs is_word (lower s)).

Definition simple_text_similarity (query text : string) : Qc :=
  let query_words := word_set query in
  let text_words := word_set text in
  if bool_decide (query_words = ∅) || bool_decide (text_words = ∅) then
    Q2Qc 0
  else
    let intersection := query_words ∩ text_words in
    let union := query_words ∪ text_words in
    truediv (Z.of_nat (size intersection)) (Z.of_nat (size union)).

(** ** [is_quality_chunk] *)

(** [len(text) < 80] *)
Definition too_short (text : string) : bool := len text <? 80.

(** [text.count('.') > len(text) * 0.3] *)
Definition mostly_dots (text : string) : bool :=
  let dot_count := count "." text in
  bool_decide (Qc_of_Z (len text) * f0_3 < Qc_of_Z dot_count)%Qc.

(** [len(re.findall(r'\d+', text)) > len(text.split()) * 0.5] *)
Definition mostly_numbers (text : string) : bool :=
  let numbers := runs is_digit text in
  bool_decide (Qc_of_Z (Z.of_nat (length (split_ws text))) * f0_5
               < Qc_of_Z (Z.of_nat (length numbers)))%Qc.

Definition author_bio_patterns : list pattern :=
  [ unanchored (seq [lit "professor of"; Star dot; lit "at"; Star dot;
                     lit "university"]);
    unanchored (lit "editor-in-chief");
    unanchored (lit "he lives in");
    unanchored (lit "she lives in");
    unanchored (seq [lit "phd"; Star dot; lit "university"]);
    unanchored (seq [lit "author of"; Star dot; lit "book"; opt (chr "s")]);
    unanchored (lit "co-director of");
    unanchored (seq [lit "director of"; Star dot; lit "centre"]);
    unanchored (lit "visiting professor") ].

(** The patterns are searched in [text.lower()]. *)
Definition is_author_bio (text : string) : bool :=
  let text_lower := lower text in
  existsb (λ p, search p text_lower) author_bio_patterns.

(** [[A-Z\s]] under [re.IGNORECASE]. *)
Definition letter_or_space (c : ascii) : bool :=
  is_ascii_upper c || is_ascii_lower c || is_space c.

Definition toc_patterns : list pattern :=
  [ (* \.{3,} *)
    unanchored (seq [chr "."; chr "."; chr "."; Star (chr ".")]);
    (* \d+\s*$ *)
    Pattern false (seq [plus digit; Star space]) true;
    (* ^[A-Z\s]+\d+$ *)
    Pattern true (seq [plus (Sym letter_or_space); plus digit]) true;
    (* chapter\s+\d+[:\s]*$ *)
    Pattern false (seq [lit_ci "chapter"; plus space; plus digit;
                        Star (Sym colon_or_space)]) true;
    (* page\s+\d+ *)
    unanchored (seq [lit_ci "page"; plus space; plus digit]) ].

(** The patterns are searched in [text] with [re.IGNORECASE]. *)
Definition is_table_of_contents (text : string) : bool :=
  existsb (λ p, search p text) toc_patterns.

Definition dangling_words : list string :=
  ["of"; "the"; "and"; "or"; "in"; "at"; "to"; "for"; "with"; "by"].

(** [text.endswith(('of', 'the', ...))] *)
Definition is_incomplete_fragment (text : string) : bool :=
  endswith_any text dangling_words.

Definition is_sentence_break (c : ascii) : bool :=
  Ascii.eqb c "." || Ascii.eqb c "!" || Ascii.eqb c "?".

(** [s.strip()[0].isupper()], reached only when [s.strip()] has more
    than 20 characters. *)
Definition starts_upper (s : string) : bool :=
  match s with
  | EmptyString => false
  | String c _ => is_upper c
  end.

Definition complete_sentences (text : string) : list string :=
  let sentences := split_runs is_sentence_break text in
  strip <$> filter (λ s, (20 <? len (strip s)) && starts_upper (strip s) = true)
                   sentences.

(** The body of [is_quality_chunk] once [text] is bound. *)
Definition is_quality_text (text : string) : bool :=
  if too_short text then false
  else if mostly_dots text then false
  else if mostly_numbers text then false
  else if is_author_bio text then false
  else if is_table_of_contents text then false
  else if is_incomplete_fragment text then false
  else if Z.of_nat (length (complete_sentences text)) <? 2 then false
  else
    let word_count := Z.of_nat (length (split_ws text)) in
    30 <=? word_count.

Definition is_quality_chunk (chunk : dict) : outcome bool :=
  v ← getitem chunk "text";
  s ← str_method v;
  Returns (is_quality_text (strip s)).

(** ** [search_books] *)

(** The body of the scoring loop: the pair appended for [chunk]. *)
Definition adjusted_similarity (question : string) (chunk : dict) : outcome Qc :=
  v ← getitem chunk "text";
  text ← str_method v;
  let similarity := simple_text_similarity question text in
  wc ← int_operand (get chunk "word_count" (VInt 0));
  let word_count_boost := min (truediv wc 100) f0_3 in
  Returns (similarity + word_count_boost)%Qc.

Definition score_chunk (question : string) (chunk : dict) : outcome (dict * Qc) :=
  s ← adjusted_similarity question chunk;
  Returns (chunk, s).

(** [similarities.sort(key=lambda x: x[1], reverse=True)]: Python's sort
    is stable, also with [reverse=True]; on keys that are totally
    ordered the result of a stable sort does not depend on the
    algorithm, and an insertion sort computes it. *)
Fixpoint insert_desc (x : dict * Qc) (l : list (dict * Qc)) : list (dict * Qc) :=
  match l with
  | [] => [x]
  | y :: l' =>
      if bool_decide (x.2 < y.2)%Qc then y :: insert_desc x l' else x :: l
  end.

Definition sort_desc (l : list (dict * Qc)) : list (dict * Qc) :=
  foldr insert_desc [] l.

Definition search_books (question : string) (chunks : list dict) (top_k : Z)
    : outcome (list (dict * Qc)) :=
  quality_chunks ← filterM is_quality_chunk chunks;
  similarities ← mapM (score_chunk question) quality_chunks;
  Returns (list_slice_to (sort_desc similarities) top_k).

End ApiServer.

(* ===================================================================== *)
(** * [src/embeddings/config.py] *)
(* ===================================================================== *)

Module Config.

Definition CHUNK_SIZE : Z := 1000.
Definition CHUNK_OVERLAP : Z := 200.
Definition MAX_CHUNK_SIZE : Z := 8000.

End Config.

(* ===================================================================== *)
(** * [src/embeddings/text_processor.py] *)
(* ===================================================================== *)

Module TextProcessor.
Import Py Config.

(** ** [chunk_text] *)

Definition NL : string := String LF EmptyString.

(** [['.', '!', '?', '\n\n']] *)
Definition sentence_endings : list string :=
  ["."; "!"; "?"; NL +:+ NL].

(** [text[i] in sentence_endings]: the one-character string [text[i]]
    is looked up in the list. *)
Definition is_sentence_ending (c : ascii) : bool :=
  bool_decide (String c EmptyString ∈ sentence_endings).

(** The [for i in range(end, search_start, -1)] loop, with [n] values
    of [i] left: the new end when an ending is found. *)
Fixpoint find_boundary (text : string) (i : Z) (n : nat) : outcome (option Z) :=
  match n with
  | O => Returns None
  | S n' =>
      c ← index text i;
      if is_sentence_ending c then Returns (Some (i + 1))
      else find_boundary text (i - 1) n'
  end.

(** The end of the window that starts at [start]. *)
Definition window_end (text : string) (chunk_size start : Z) : outcome Z :=
  let end_ := start + chunk_size in
  if end_ <? len text then
    let search_start := Z.max (start + chunk_size - 200) start in
    found ← find_boundary text end_ (range_down_count end_ search_start);
    Returns (default end_ found)
  else Returns end_.

(** What one iteration of the [while] loop leaves: the variables
    [start] and [chunks] for the next iteration, or the loop is left. *)
Inductive step : Type :=
| Next (start : Z) (chunks : list string)
| Done (chunks : list string).

(** One iteration of [while start < text_length], the test
    included. *)
Definition chunk_iter (text : string) (chunk_size overlap : Z)
    (start : Z) (chunks : list string) : outcome step :=
  if start <? len text then
    end_ ← window_end text chunk_size start;
    let chunk := strip (slice text start end_) in
    let chunks' := if 50 <? len chunk then chunks ++ [chunk] else chunks in
    let start' := end_ - overlap in
    if len text <=? start' then Returns (Done chunks')
    else Returns (Next start' chunks')
  else Returns (Done chunks).

(** The loop; one unit of fuel per iteration. *)
Fixpoint chunk_loop (fuel : nat) (text : string) (chunk_size overlap : Z)
    (start : Z) (chunks : list string) : outcome (list string) :=
  match fuel with
  | O => OutOfFuel
  | S fuel' =>
      s ← chunk_iter text chunk_size overlap start chunks;
      match s with
      | Done chunks' => Returns chunks'
      | Next start' chunks' =>
          chunk_loop fuel' text chunk_size overlap start' chunks'
      end
  end.

Definition chunk_text (fuel : nat) (text : string) (chunk_size overlap : Z)
    : outcome (list string) :=
  match strip text with
  | EmptyString => Returns []
  | _ => chunk_loop fuel text chunk_size overlap 0 []
  end.

(** ** [extract_chapters] *)

(** The longest prefix of characters satisfying [p], and the rest: what
    a greedy [[p]*] takes first. *)
Fixpoint span (p : ascii → bool) (s : string) : string * string :=
  match s with
  | EmptyString => (EmptyString, EmptyString)
  | String c s' =>
      if p c then let '(a, b) := span p s' in (String c a, b)
      else (EmptyString, s)
  end.

(** [s[-1:]] *)
Definition last_char (s : string) : string := slice s (-1) (len s).

Definition nonempty (s : string) : bool :=
  match s with EmptyString => false | _ => true end.

(** [s] without the prefix [p], compared under [re.IGNORECASE]. *)
Fixpoint strip_prefix_ci (p s : string) : option string :=
  match p, s with
  | EmptyString, _ => Some s
  | String a p', String b s' =>
      if Ascii.eqb (lower_char a) (lower_char b) then strip_prefix_ci p' s'
      else None
  | String _ _, EmptyString => None
  end.

(** What [(.+)$] captures after the greedy runs [a] (at least [min_a]
    characters) and [b] (any number): the rest of the line when there
    is one; otherwise the matcher backtracks and gives the last
    character of [b], or else of [a], to the group.  The line holds no
    newline. *)
Definition group_after (a : string) (min_a : nat) (b rest : string)
    : option string :=
  if nonempty rest then Some rest
  else if nonempty b then Some (last_char b)
  else if bool_decide (min_a < String.length a)%nat then Some (last_char a)
  else None.

(** [[.\s]] *)
Definition dot_or_space (c : ascii) : bool := Ascii.eqb c "." || is_space c.

(** [re.match(r'^Chapter\s+\d+[:\s]*(.+)$', line, re.IGNORECASE)] *)
Definition match_chapter (line : string) : option string :=
  r ← strip_prefix_ci "Chapter" line;
  let '(ws, r) := span is_space r in
  if nonempty ws then
    let '(ds, r) := span is_digit r in
    if nonempty ds then
      let '(seps, r) := span colon_or_space r in
      group_after ds 1 seps r
    else None
  else None.

(** [re.match(r'^\d+[.\s]*(.+)$', line, re.IGNORECASE)] *)
Definition match_numbered (line : string) : option string :=
  let '(ds, r) := span is_digit line in
  if nonempty ds then
    let '(seps, r) := span dot_or_space r in
    group_after ds 1 seps r
  else None.

(** [re.match(r'^#\s*(.+)$', line, re.IGNORECASE)] *)
Definition match_markdown (line : string) : option string :=
  match line with
  | String "#" r =>
      let '(ws, r) := span is_space r in
      group_after "#" 1 ws r
  | _ => None
  end.

(** [re.match(r'^\*\*(.+)\*\*$', line, re.IGNORECASE)] *)
Definition match_bold (line : string) : option string :=
  if startswith line "**" && endswith line "**" && (5 <=? len line)
  then Some (slice line 2 (-2))
  else None.

Definition chapter_patterns : list (string → option string) :=
  [match_chapter; match_numbered; match_markdown; match_bold].

(** The inner [for pattern in chapter_patterns] loop: group 1 of the
    first pattern that matches. *)
Fixpoint first_match (patterns : list (string → option string))
    (line : string) : option string :=
  match patterns with
  | [] => None
  | p :: ps =>
      match p line with
      | Some g => Some g
      | None => first_match ps line
      end
  end.

(** A chapter: the dictionary with the keys ['title'] and
    ['content']. *)
Record chapter : Type := Chapter {
  title : string;
  content : string
}.

(** The variables of the line loop. *)
Record scan : Type := Scan {
  current_chapter : option string;
  current_content : list string;
  chapters : list chapter
}.

(** [if current_chapter:]: neither [None] nor the empty string. *)
Definition truthy (o : option string) : bool :=
  match o with
  | Some s => nonempty s
  | None => false
  end.

(** The chapters once the open chapter, if any, is appended. *)
Definition close_chapter (st : scan) : list chapter :=
  if truthy (current_chapter st) then
    chapters st ++
      [Chapter (default EmptyString (current_chapter st))
               (join NL (current_content st))]
  else chapters st.

Definition scan_line (st : scan) (raw : string) : scan :=
  let line := strip raw in
  if nonempty line then
    match first_match chapter_patterns line with
    | Some g => Scan (Some (strip g)) [] (close_chapter st)
    | None =>
        Scan (current_chapter st) (current_content st ++ [line]) (chapters st)
    end
  else st.

Definition scan_lines (st : scan) (lines : list string) : scan :=
  foldl scan_line st lines.

Definition extract_chapters (text : string) : list chapter :=
  let lines := split_char LF text in
  close_chapter (scan_lines (Scan None [] []) lines).

(** ** [process_book_file]: the chapters that are chunked

    [chapters = self.extract_chapters(content)], and when there are
    none, the whole content as one chapter. *)

Definition process_book_file_chapters (content : string) : list chapter :=
  match extract_chapters content with
  | [] => [Chapter "Full Text" content]
  | chapters => chapters
  end.

(** ** [validate_chunks] *)

Definition required_fields : list string := ["book_title"; "chapter"; "text"].

(** Whether the loop body appends [chunk]. *)
Definition is_valid_chunk (chunk : dict) : outcome bool :=
  v ← getitem chunk "word_count";
  word_count ← int_operand v;
  if word_count <? 10 then Returns false
  else
    v ← getitem chunk "token_count";
    token_count ← int_operand v;
    if MAX_CHUNK_SIZE <? token_count then Returns false
    else Returns (forallb (contains chunk) required_fields).

Definition validate_chunks (chunks : list dict) : outcome (list dict) :=
  filterM is_valid_chunk chunks.

End TextProcessor.

(* ===================================================================== *)
(** * The specification's vocabulary *)
(* ===================================================================== *)

Module Spec.
Import Py.

(** A chunk record of the store as the data model types it: the text
    is a string, and the word count, when stored, is an integer. *)
Definition chunk_typed (chunk : dict) : Prop :=
  (∃ text, chunk !! "text" = Some (VStr text)) ∧
  (chunk !! "word_count" = None ∨ ∃ n, chunk !! "word_count" = Some (VInt n)).

(** The text of a typed chunk. *)
Definition text_of (chunk : dict) : string :=
  match chunk !! "text" with
  | Some (VStr s) => s
  | _ => EmptyString
  end.

(** The stored word count of a typed chunk, 0 when there is none. *)
Definition word_count_of (chunk : dict) : Z :=
  match chunk !! "word_count" with
  | Some (VInt n) => n
  | _ => 0
  end.

(** Quality Filter: the chunk is retrievable. *)
Definition is_retrievable (chunk : dict) : bool :=
  ApiServer.is_quality_text (strip (text_of chunk)).

(** Boosted Lexical Scorer: Jaccard similarity plus
    [min(word_count / 100, 0.3)]. *)
Definition boosted_score (query : string) (chunk : dict) : Qc :=
  (ApiServer.simple_text_similarity query (text_of chunk)
   + Py.min (Qc_of_Z (word_count_of chunk) / Qc_of_Z 100) (Q2Qc (3 # 10)))%Qc.

(** Descending score order. *)
Definition score_ge (a b : dict * Qc) : Prop := (b.2 ≤ a.2)%Qc.


(** The final whitespace-delimited token of a text. *)
Definition final_token (text : string) : option string :=
  last (split_ws text).

(** A line of the document is a heading: it is not blank and one of the
    heading patterns matches it. *)
Definition is_heading (raw : string) : bool :=
  TextProcessor.nonempty (strip raw)
  && bool_decide (is_Some (TextProcessor.first_match
                             TextProcessor.chapter_patterns (strip raw))).

(** A chunk record that carries both counts, as integers. *)
Definition has_counts (chunk : dict) : Prop :=
  ∃ wc tc, chunk !! "word_count" = Some (VInt wc)
           ∧ chunk !! "token_count" = Some (VInt tc).

(** The stored token count, 0 when there is none. *)
Definition token_count_of (chunk : dict) : Z :=
  match chunk !! "token_count" with
  | Some (VInt n) => n
  | _ => 0
  end.

(** The field is present and holds a non-empty string. *)
Definition non_empty_field (chunk : dict) (k : string) : Prop :=
  ∃ s, chunk !! k = Some (VStr s) ∧ s ≠ EmptyString.

(** Chunk Validator, as the specification words it. *)
Definition valid_as_specified (chunk : dict) : Prop :=
  10 ≤ word_count_of chunk
  ∧ token_count_of chunk ≤ Config.MAX_CHUNK_SIZE
  ∧ non_empty_field chunk "book_title"
  ∧ non_empty_field chunk "chapter"
  ∧ non_empty_field chunk "text".

(** Chunk Validator, with the three fields merely present. *)
Definition valid_with_fields_present (chunk : dict) : Prop :=
  10 ≤ word_count_of chunk
  ∧ token_count_of chunk ≤ Config.MAX_CHUNK_SIZE
  ∧ is_Some (chunk !! "book_title")
  ∧ is_Some (chunk !! "chapter")
  ∧ is_Some (chunk !! "text").

Global Instance non_empty_field_dec chunk k : Decision (non_empty_field chunk k).
Proof.
  unfold non_empty_field.
  destruct (chunk !! k) as [[n|s]|] eqn:Hk.
  - right. by intros (s & ? & _).
  - destruct (decide (s = EmptyString)) as [->|Hs].
    + right. intros (s & ? & ?). by simplify_eq.
    + left. by exists s.
  - right. by intros (s & ? & _).
Defined.

Global Instance valid_as_specified_dec chunk : Decision (valid_as_specified chunk).
Proof. unfold valid_as_specified. apply _. Defined.

Global Instance valid_with_fields_present_dec chunk :
  Decision (valid_with_fields_present chunk).
Proof. unfold valid_with_fields_present. apply _. Defined.

(** A chunk is the trimmed text of a span, and its trimmed length
    exceeds 50 characters. *)
Definition kept_span (text chunk : string) : Prop :=
  (∃ a b, chunk = strip (slice text a b)) ∧ 50 < len (strip chunk).

End Spec.

(* ===================================================================== *)
(** * Sample inputs *)
(* ===================================================================== *)

Module Examples.
Import Py.

(** Two sentences, 32 words, no digits: a passage whose last word is
    ["baby"]; the same passage ending in ["thereof"] and in ["child"]. *)
Definition passage (last_word : string) : string :=
  "The first sentence of this text is long enough to count as complete. "
  +:+ "The second sentence talks at length about the many small things "
  +:+ "that matter so much to a little " +:+ last_word.

Definition baby_text : string := passage "baby".
Definition thereof_text : string := passage "thereof".
Definition child_text : string := passage "child".

(** [c * n] *)
Fixpoint repeat_char (c : ascii) (n : nat) : string :=
  match n with
  | O => EmptyString
  | S n' => String c (repeat_char c n')
  end.

(** 900 letters, a blank line, 300 letters: with the configured sizes
    the blank line lies in the last 200 characters of the first window,
    which holds no full stop, exclamation or question mark. *)
Definition blank_line_text : string :=
  repeat_char "a" 900 +:+ TextProcessor.NL +:+ TextProcessor.NL
  +:+ repeat_char "b" 300.

(** A chunk of a book whose file name is only an extension: the title
    is empty. *)
Definition untitled_chunk : dict :=
  {[ "book_title" := VStr "";
     "chapter" := VStr "Full Text";
     "chapter_index" := VInt 0;
     "chunk_index" := VInt 0;
     "text" := VStr "Ten or more words of text that make up one small chunk here.";
     "word_count" := VInt 13;
     "token_count" := VInt 14 ]}.

(** A record without the [word_count] key. *)
Definition uncounted_chunk : dict :=
  {[ "book_title" := VStr "Origins";
     "chapter" := VStr "Full Text";
     "text" := VStr "Some text." ]}.

End Examples.

Module PyText.
Import Py.

(** What [s.replace(old, new)] leaves of [s] for a non-empty [old]:
    [skip] characters of a match are still to be passed over. *)
Fixpoint replace_go (old new : string) (skip : nat) (s : string) : string :=
  match s with
  | EmptyString => EmptyString
  | String c s' =>
      match skip with
      | S k => replace_go old new k s'
      | O =>
          if String.prefix old s
          then new +:+ replace_go old new (String.length old - 1) s'
          else String c (replace_go old new 0 s')
      end
  end.

(** [new] after every character: [s.replace('', new)] without its
    head. *)
Fixpoint intersperse (new : string) (s : string) : string :=
  match s with
  | EmptyString => EmptyString
  | String c s' => String c (new +:+ intersperse new s')
  end.

(** [s.replace(old, new)] *)
Definition replace (s old new : string) : string :=
  match old with
  | EmptyString => new +:+ intersperse new s
  | _ => replace_go old new 0 s
  end.

(** [os.path.basename(p)] on a POSIX path. *)
Definition basename (p : string) : string :=
  default EmptyString (last (split_char "/" p)).

(** [str(n)] *)
Definition str_of_int (n : Z) : string :=
  NilZero.string_of_int (Z.to_int n).

(** [f"{v}"] *)
Definition format (v : value) : string :=
  match v with
  | VStr s => s
  | VInt n => str_of_int n
  end.

Definition digit_value (c : ascii) : Z := Z.of_N (code c) - 48.

(** The digits of an integer literal, single underscores allowed
    between them. *)
Fixpoint int_digits (acc : Z) (after_digit : bool) (s : string) : option Z :=
  match s with
  | EmptyString => if after_digit then Some acc else None
  | String c s' =>
      if is_digit c then int_digits (10 * acc + digit_value c) true s'
      else if Ascii.eqb c "_" && after_digit then int_digits acc false s'
      else None
  end.

(** The whitespace [int] passes over at both ends: that of
    [str.isspace] without the separators U+001C..U+001F. *)
Definition is_int_space (c : ascii) : bool :=
  in_range 9 13 c || (code c =? 32)%N || (code c =? 133)%N || (code c =? 160)%N.

Fixpoint lstrip_with (p : ascii → bool) (s : string) : string :=
  match s with
  | EmptyString => EmptyString
  | String c s' => if p c then lstrip_with p s' else s
  end.

Definition strip_with (p : ascii → bool) (s : string) : string :=
  String.rev (lstrip_with p (String.rev (lstrip_with p s))).

(** [int(s)]; [None] stands for [ValueError]. *)
Definition int_of_str (s : string) : option Z :=
  match strip_with is_int_space s with
  | String "+" r => int_digits 0 false r
  | String "-" r => Z.opp <$> int_digits 0 false r
  | t => int_digits 0 false t
  end.

End PyText.

(* ===================================================================== *)
(** * [src/frontend/api_server.py]: [generate_answer] and [chat] *)
(* ===================================================================== *)

Module Answer.
Import Py PyText ApiServer.

(** The double quote. *)
Definition dq : string := String (ascii_of_N 34) EmptyString.

(** The literal [0.1]; the comparison with it is the exact one, as for
    the other floats. *)
Definition f0_1 : Qc := Q2Qc (1 # 10).

(** The reply when there is nothing to build on. *)
Definition no_thread_reply : string :=
  "I don't see that particular thread woven through my writings, friend. "
  +:+ "Perhaps ask about consciousness, the embodied mind, spiritual "
  +:+ "practices, or how we might live more unified lives. These are the "
  +:+ "paths I've spent my years exploring.".

(** The reply when no chunk gives a usable excerpt. *)
Definition no_words_reply : string :=
  "That's a profound question, though I'm not finding the right words in "
  +:+ "my writings to address it properly. Try asking about consciousness, "
  +:+ "spiritual practices, or the unified mind - these are closer to my "
  +:+ "heart.".

(** [not relevant_chunks or relevant_chunks[0][1] == 0] *)
Definition nothing_relevant (relevant_chunks : list (dict * Qc)) : bool :=
  match relevant_chunks with
  | [] => true
  | (_, similarity) :: _ => bool_decide (similarity = Q2Qc 0)
  end.

(** The clean-up of a chunk text. *)
Definition clean_text (text : string) : string :=
  let text := strip (replace (replace text "Robert De Filippis" EmptyString)
                       TextProcessor.NL " ") in
  let text := join " " (split_ws text) in
  let text := replace (replace text " - " " ") "  " " " in
  let text := replace (replace text "fo und" "found") "ze ro" "zero" in
  replace text "signific ant" "significant".

(** An element of [context_pieces]. *)
Record piece : Type := Piece {
  piece_text : string;
  piece_book : value;
  piece_chapter : value
}.

(** The body of the loop for a chunk whose similarity is above 0.1:
    the piece it appends, if any. *)
Definition context_piece (chunk : dict) : outcome (option piece) :=
  v ← getitem chunk "text";
  s ← str_method v;
  let text := clean_text s in
  if 50 <? len text then
    Returns (Some (Piece text (get chunk "book_title" (VStr "Unknown"))
                     (get chunk "chapter" (VStr "Unknown"))))
  else Returns None.

Fixpoint context_pieces (relevant_chunks : list (dict * Qc))
    : outcome (list piece) :=
  match relevant_chunks with
  | [] => Returns []
  | (chunk, similarity) :: rest =>
      if bool_decide (f0_1 < similarity)%Qc then
        p ← context_piece chunk;
        ps ← context_pieces rest;
        Returns (match p with Some x => x :: ps | None => ps end)
      else context_pieces rest
  end.

(** [f"From '{piece['book']}' (Chapter: {piece['chapter']}):\n{piece['text']}"] *)
Definition format_piece (p : piece) : string :=
  "From '" +:+ format (piece_book p) +:+ "' (Chapter: "
  +:+ format (piece_chapter p) +:+ "):" +:+ TextProcessor.NL
  +:+ piece_text p.

(** The context of the prompt: the first three pieces. *)
Definition build_context (pieces : list piece) : string :=
  join (TextProcessor.NL +:+ TextProcessor.NL)
    (format_piece <$> take 3 pieces).

Definition system_prompt : string :=
  join TextProcessor.NL [
    "You are Sophia, a wise and deeply thoughtful AI companion created to help integrate the profound philosophical concepts from Robert De Filippis's books into people's lives. You are intelligent, compassionate, and always available to explore deeper philosophical territory.";
    EmptyString;
    "Your personality:";
    "- You are warm, patient, and genuinely curious about the user's philosophical journey";
    "- You speak with wisdom and clarity, making complex concepts accessible without oversimplifying";
    "- You're encouraging and supportive, helping users discover insights for themselves";
    "- You have a gentle, thoughtful presence - like a wise friend who's always there to explore ideas";
    "- You're enthusiastic about going deeper into philosophical concepts related to Robert's work";
    "- You balance accessibility with intellectual depth";
    EmptyString;
    "When answering questions, you:";
    "- Draw from Robert De Filippis's writings (provided as context) to ground your responses";
    "- Synthesize ideas coherently and speak naturally, not just quoting passages";
    "- Help users connect these concepts to their own lives and experiences";
    "- Ask thought-provoking follow-up questions when appropriate";
    "- Acknowledge the complexity and nuance of consciousness, embodiment, and unified thinking";
    "- Are comfortable saying " +:+ dq +:+ "this is a deep question" +:+ dq +:+ " or " +:+ dq +:+ "Robert explores this from multiple angles" +:+ dq;
    "- End with insights that invite further reflection or exploration";
    EmptyString;
    "You are Sophia - Robert's AI companion for philosophical exploration. Answer thoughtfully based on the excerpts from his books." ].

Definition user_prompt (question : value) (context : string) : string :=
  "Question: " +:+ format question +:+ TextProcessor.NL +:+ TextProcessor.NL
  +:+ "Relevant excerpts from my books:"
  +:+ TextProcessor.NL +:+ TextProcessor.NL
  +:+ context +:+ TextProcessor.NL +:+ TextProcessor.NL
  +:+ "Please answer this question as Bob De Filippis, synthesizing the "
  +:+ "insights from these excerpts into a coherent, thoughtful response.".

(** The reply when the call of the model raises. *)
Definition apology (question : value) : string :=
  "I apologize, but I'm having trouble formulating a response right now. "
  +:+ "The question about " +:+ format question
  +:+ " touches on important themes in my work. Please try again shortly.".

(** The body of the JSON response. *)
Inductive body : Type :=
| Error (message : string)
| Reply (answer : string) (question : value).

(** A Flask response: the JSON body and the status code. *)
Record response : Type := Response {
  payload : body;
  status : Z
}.

(** [not question] *)
Definition falsy (v : value) : bool :=
  match v with
  | VStr EmptyString => true
  | VInt 0 => true
  | _ => false
  end.

Section Model.

(** The chat-completion service: the system and the user message give
    the content of the first choice, or the call raises ([None]).  The
    model name, the temperature and the token limit of the call are
    constants. *)
Variable chat_completion : string → string → option string.

Definition generate_answer (question : value)
    (relevant_chunks : list (dict * Qc)) : outcome string :=
  if nothing_relevant relevant_chunks then Returns no_thread_reply
  else
    pieces ← context_pieces relevant_chunks;
    match pieces with
    | [] => Returns no_words_reply
    | _ =>
        let context := build_context pieces in
        match chat_completion system_prompt (user_prompt question context) with
        | Some answer => Returns answer
        | None => Returns (apology question)
        end
    end.

(** [search_books(question, chunks, top_k)] for the [question] of a
    request, which need not be a string: the scoring calls
    [question.lower()] for the first chunk that passed the filter. *)
Definition search_books_for (question : value) (chunks : list dict)
    (top_k : Z) : outcome (list (dict * Qc)) :=
  match question with
  | VStr q => search_books q chunks top_k
  | VInt _ =>
      quality_chunks ← filterM is_quality_chunk chunks;
      match quality_chunks with
      | [] => Returns []
      | _ => Raises AttributeError
      end
  end.

(** The [try] block of [chat]; [chunks] is the store loaded at start-up,
    [None] when loading failed. *)
Definition chat_try (data : dict) (chunks : option (list dict))
    : outcome response :=
  let question := get data "question" (VStr EmptyString) in
  if falsy question then
    Returns (Response (Error "No question provided") 400)
  else
    match chunks with
    | None | Some [] => Returns (Response (Error "RAG system not loaded") 500)
    | Some store =>
        relevant_chunks ← search_books_for question store 3;
        answer ← generate_answer question relevant_chunks;
        Returns (Response (Reply answer question) 200)
    end.

(** [chat]: [data] is the JSON object of the request, [None] when
    [request.get_json()] raises or gives no object.  Every exception
    ends in the [except] clause. *)
Definition chat (data : option dict) (chunks : option (list dict)) : response :=
  match data with
  | None => Response (Error "Internal server error") 500
  | Some d =>
      match chat_try d chunks with
      | Returns r => r
      | _ => Response (Error "Internal server error") 500
      end
  end.

End Model.

End Answer.

(* ===================================================================== *)
(** * [src/embeddings/interactive_rag.py] *)
(* ===================================================================== *)

Module InteractiveRag.
Import Py.

(** The body of the loop of [search_books]; [simple_text_similarity]
    is the function of [api_server.py], word for word. *)
Definition similarity_pair (question : string) (chunk : dict)
    : outcome (dict * Qc) :=
  v ← getitem chunk "text";
  text ← str_method v;
  Returns (chunk, ApiServer.simple_text_similarity question text).

(** [search_books]: no quality filter and no boost. *)
Definition search_books (question : string) (chunks : list dict) (top_k : Z)
    : outcome (list (dict * Qc)) :=
  similarities ← mapM (similarity_pair question) chunks;
  Returns (list_slice_to (ApiServer.sort_desc similarities) top_k).

(** [not results or results[0][1] == 0]: the loop of [main] then
    reports that nothing relevant was found. *)
Definition nothing_found (results : list (dict * Qc)) : bool :=
  match results with
  | [] => true
  | (_, similarity) :: _ => bool_decide (similarity = Q2Qc 0)
  end.

End InteractiveRag.

(* ===================================================================== *)
(** * [src/embeddings/text_processor.py]: [process_book_file] *)
(* ===================================================================== *)

Module BookFile.
Import Py PyText Config TextProcessor.

(** [os.path.basename(file_path).replace('.txt', '').replace('.md', '')
    .replace('.pdf', '')] *)
Definition book_title_of (file_path : string) : string :=
  replace (replace (replace (basename file_path) ".txt" EmptyString)
             ".md" EmptyString) ".pdf" EmptyString.

Section Tokens.

(** [count_tokens]: the number of tokens the [cl100k_base] encoding
    gives a text. *)
Variable count_tokens : string → Z.

(** The dictionary appended for a chunk. *)
Definition chunk_record (book_title chapter_title : string) (chapter_idx : Z)
    (chunk_index : value) (text : string) : dict :=
  {[ "book_title" := VStr book_title;
     "chapter" := VStr chapter_title;
     "chapter_index" := VInt chapter_idx;
     "chunk_index" := chunk_index;
     "text" := VStr text;
     "word_count" := VInt (Z.of_nat (length (split_ws text)));
     "token_count" := VInt (count_tokens text) ]}.

(** [f"{chunk_idx}_{sub_idx}"] *)
Definition sub_index (chunk_idx sub_idx : Z) : string :=
  str_of_int chunk_idx +:+ "_" +:+ str_of_int sub_idx.

(** The records of the sub-chunks, numbered from [sub_idx]. *)
Fixpoint sub_records (book_title chapter_title : string)
    (chapter_idx chunk_idx sub_idx : Z) (sub_chunks : list string)
    : list dict :=
  match sub_chunks with
  | [] => []
  | sub_chunk :: rest =>
      chunk_record book_title chapter_title chapter_idx
        (VStr (sub_index chunk_idx sub_idx)) sub_chunk
      :: sub_records book_title chapter_title chapter_idx chunk_idx
           (sub_idx + 1) rest
  end.

(** The body of the loop over the chunks of a chapter: the records
    appended for [chunk]. *)
Definition chunk_records (fuel : nat) (book_title chapter_title : string)
    (chapter_idx chunk_idx : Z) (chunk : string) : outcome (list dict) :=
  if MAX_CHUNK_SIZE <? count_tokens chunk then
    sub_chunks ← chunk_text fuel chunk (CHUNK_SIZE / 2) CHUNK_OVERLAP;
    Returns (sub_records book_title chapter_title chapter_idx chunk_idx 0
               sub_chunks)
  else
    Returns [chunk_record book_title chapter_title chapter_idx
               (VInt chunk_idx) chunk].

(** The loop over the chunks of a chapter, numbered from [chunk_idx]. *)
Fixpoint chapter_records (fuel : nat) (book_title chapter_title : string)
    (chapter_idx chunk_idx : Z) (chapter_chunks : list string)
    : outcome (list dict) :=
  match chapter_chunks with
  | [] => Returns []
  | chunk :: rest =>
      records ← chunk_records fuel book_title chapter_title chapter_idx
                  chunk_idx chunk;
      more ← chapter_records fuel book_title chapter_title chapter_idx
               (chunk_idx + 1) rest;
      Returns (records ++ more)
  end.

(** The loop over the chapters, numbered from [chapter_idx]. *)
Fixpoint book_records (fuel : nat) (book_title : string) (chapter_idx : Z)
    (chapters : list chapter) : outcome (list dict) :=
  match chapters with
  | [] => Returns []
  | ch :: rest =>
      chapter_chunks ← chunk_text fuel (content ch) CHUNK_SIZE CHUNK_OVERLAP;
      records ← chapter_records fuel book_title (title ch) chapter_idx 0
                  chapter_chunks;
      more ← book_records fuel book_title (chapter_idx + 1) rest;
      Returns (records ++ more)
  end.

(** [process_book_file] from the point where the file has been read:
    [content] is the text of the file at [file_path]. *)
Definition process_book_file (fuel : nat) (file_path content : string)
    : outcome (list dict) :=
  book_records fuel (book_title_of file_path) 0
    (process_book_file_chapters content).

End Tokens.

End BookFile.

(* ===================================================================== *)
(** * [src/embeddings/book_processor.py]: [process_books] *)
(* ===================================================================== *)

Module BookProcessor.
Import Py TextProcessor.

Section Files.

Variable count_tokens : string → Z.

(** The text [process_book_file] reads at a path; [None] when the
    file does not exist or reading it raises. *)
Variable read_book : string → option string.

(** The body of the [try] block for one file: the chunks that the
    iteration adds to [all_chunks].  An exception is caught and the
    loop continues with the next file. *)
Definition file_chunks (fuel : nat) (file_path : string)
    : outcome (list dict) :=
  match read_book file_path with
  | None => Returns []
  | Some content =>
      match
        chunks ← BookFile.process_book_file count_tokens fuel file_path content;
        validate_chunks chunks
      with
      | Returns chunks => Returns chunks
      | Raises _ => Returns []
      | OutOfFuel => OutOfFuel
      end
  end.

(** [process_books(book_files)] for a given list of files. *)
Fixpoint process_books (fuel : nat) (book_files : list string)
    : outcome (list dict) :=
  match book_files with
  | [] => Returns []
  | file_path :: rest =>
      chunks ← file_chunks fuel file_path;
      all_chunks ← process_books fuel rest;
      Returns (chunks ++ all_chunks)
  end.

End Files.

End BookProcessor.

(* ===================================================================== *)
(** * [src/embeddings/vertex_embeddings.py] *)
(* ===================================================================== *)

Module VertexEmbeddings.
Import Py PyText.

(** [config.py]: the dimension of an embedding vector. *)
Definition DIMENSIONS : Z := 768.

(** ** [upsert_embeddings]: the id of a datapoint

    [f"{chunk['book_title']}_{chunk['chapter_index']}_{chunk['chunk_index']}"] *)
Definition datapoint_id (chunk : dict) : outcome string :=
  book_title ← getitem chunk "book_title";
  chapter_index ← getitem chunk "chapter_index";
  chunk_index ← getitem chunk "chunk_index";
  Returns (format book_title +:+ "_" +:+ format chapter_index +:+ "_"
           +:+ format chunk_index).

(** ** [search_similar]: the metadata read back from an id *)

(** What the parsing of an id leaves: the three entries of
    ['metadata'], the empty ['metadata'], or the [ValueError] that
    [int(parts[1])] raises. *)
Inductive parsed : Type :=
| Entries (book_title : string) (chapter_index : Z) (chunk_index : string)
| NoEntries
| ValueError.

Definition parse_datapoint_id (datapoint_id : string) : parsed :=
  match split_char "_" datapoint_id with
  | p0 :: p1 :: p2 :: _ =>
      match int_of_str p1 with
      | Some chapter_index => Entries p0 chapter_index p2
      | None => ValueError
      end
  | _ => NoEntries
  end.

(** ** [generate_embeddings] *)

Definition embedding : Type := list Qc.

(** [[0.0] * DIMENSIONS] *)
Definition zero_vector : embedding := replicate (Z.to_nat DIMENSIONS) (Q2Qc 0).

(** [[l[i:i + size] for i in range(0, len(l), size)]] for [size > 0];
    every step consumes an element, so [len(l)] steps suffice. *)
Fixpoint batches_go {A} (steps size : nat) (l : list A) : list (list A) :=
  match steps with
  | O => []
  | S steps' =>
      match l with
      | [] => []
      | _ => take size l :: batches_go steps' size (drop size l)
      end
  end.

(** The batches of the loop; [range] raises [ValueError] for a step of
    0 ([None]) and is empty for a negative step. *)
Definition batches {A} (l : list A) (batch_size : Z) : option (list (list A)) :=
  if batch_size =? 0 then None
  else if batch_size <? 0 then Some []
  else Some (batches_go (length l) (Z.to_nat batch_size) l).

Section Service.

(** One pass through the [try] block for a batch: the embeddings
    appended to [all_embeddings] before the block ends, and whether it
    ended by raising. *)
Variable predict : list string → list embedding * bool.

(** What an iteration appends: after an exception, a zero vector for
    every text of the batch. *)
Definition batch_embeddings (batch_texts : list string) : list embedding :=
  let '(appended, raised) := predict batch_texts in
  if raised : bool then appended ++ ((λ _, zero_vector) <$> batch_texts)
  else appended.

Definition generate_embeddings (texts : list string) (batch_size : Z)
    : option (list embedding) :=
  bs ← batches texts batch_size;
  Some (concat (batch_embeddings <$> bs)).

End Service.

End VertexEmbeddings.

(* ===================================================================== *)
(** * More vocabulary for properties *)
(* ===================================================================== *)

Module SpecMore.
Import Py.

(** The text holds none of the characters [.], [!], [?]. *)
Definition plain (text : string) : Prop :=
  ∀ j c, index text j = Returns c →
         c ≠ "."%char ∧ c ≠ "!"%char ∧ c ≠ "?"%char.

(** The trimmed [k]-th window when the windows advance by
    [chunk_size - overlap]. *)
Definition plain_window (text : string) (chunk_size overlap k : Z) : string :=
  strip (slice text (k * (chunk_size - overlap))
           (k * (chunk_size - overlap) + chunk_size)).

(** The windows [k .. k + r - 1] that are kept. *)
Definition plain_chunks (text : string) (chunk_size overlap : Z) (k r : Z)
    : list string :=
  filter (λ c, 50 < len c) (plain_window text chunk_size overlap <$> seqZ k r).

(** Every character of [s] satisfies [p]. *)
Fixpoint all_chars (p : ascii → bool) (s : string) : bool :=
  match s with
  | EmptyString => true
  | String c s' => p c && all_chars p s'
  end.

(** The string holds no underscore. *)
Definition no_underscore (s : string) : bool :=
  all_chars (λ c, negb (Ascii.eqb c "_")) s.

(** The value is the chunk index that [process_book_file] writes for
    the chunk [k] of a chapter: the integer [k], or [k_j] for its
    sub-chunk [j]. *)
Definition chunk_index_of (k : Z) (v : value) : Prop :=
  0 ≤ k ∧ (v = VInt k ∨ ∃ j, 0 ≤ j ∧ v = VStr (BookFile.sub_index k j)).

(** Not whitespace, or the plain space U+0020. *)
Definition no_break (c : ascii) : bool :=
  negb (is_space c) || Ascii.eqb c " ".

(** The characters of the lines, one more for each line. *)
Definition lines_weight (l : list string) : nat :=
  sum_list ((λ x, S (String.length x)) <$> l).

(** The record holds a string under ['text']. *)
Definition has_text (chunk : dict) : Prop :=
  ∃ text, chunk !! "text" = Some (VStr text).

(** The record holds a text and, under ['word_count'], the number of
    whitespace-separated words of that text, as [process_book_file]
    writes it. *)
Definition counts_its_words (chunk : dict) : Prop :=
  ∃ text, chunk !! "text" = Some (VStr text)
          ∧ chunk !! "word_count"
            = Some (VInt (Z.of_nat (length (split_ws text)))).






(** A record as [process_book_file] builds it for the book
    [book_title], with the token counter [count_tokens]. *)
Definition processed_record (count_tokens : string → Z) (book_title : string)
    (r : dict) : Prop :=
  ∃ chapter_title chapter_idx chunk_index text,
    r !! "book_title" = Some (VStr book_title)
    ∧ r !! "chapter" = Some (VStr chapter_title)
    ∧ r !! "chapter_index" = Some (VInt chapter_idx) ∧ 0 ≤ chapter_idx
    ∧ r !! "chunk_index" = Some chunk_index
    ∧ r !! "text" = Some (VStr text)
    ∧ r !! "word_count" = Some (VInt (Z.of_nat (length (split_ws text))))
    ∧ r !! "token_count" = Some (VInt (count_tokens text))
    ∧ 50 < len text ∧ strip text = text.

(** A record built by [process_book_file] from a text of at most
    [bound] characters. *)
Definition bounded_record (count_tokens : string → Z) (book_title : string)
    (bound : Z) (r : dict) : Prop :=
  processed_record count_tokens book_title r ∧ len (Spec.text_of r) ≤ bound.

End SpecMore.

(* ===================================================================== *)
(** * Facts about the runtime model *)
(* ===================================================================== *)

Module PyFacts.
Import Py.

Lemma truediv_nonneg (n m : Z) :
  0 ≤ n → 0 < m → (Q2Qc 0 ≤ truediv n m)%Qc.
Proof.
  intros Hn Hm. unfold truediv, Qcdiv.
  assert (Q2Qc 0 < / Qc_of_Z m)%Qc as Hinv.
  { apply Qcinv_pos. rewrite <- Z2Qc_inj_0. by apply (proj1 (Z2Qc_inj_lt _ _)). }
  rewrite <- (Qcmult_0_l (/ Qc_of_Z m)).
  apply Qcmult_le_mono_nonneg_r; [by apply Qclt_le_weak|].
  rewrite <- Z2Qc_inj_0. by apply (proj1 (Z2Qc_inj_le _ _)).
Qed.

Lemma truediv_self (n : Z) : n ≠ 0 → truediv n n = 1%Qc.
Proof.
  intros Hn. unfold truediv, Qcdiv. apply Qcmult_inv_r.
  rewrite <- Z2Qc_inj_0. by intros ?%Z2Qc_inj.
Qed.

Lemma truediv_le_1 (n m : Z) : n ≤ m → 0 < m → (truediv n m ≤ 1)%Qc.
Proof.
  intros Hnm Hm.
  rewrite <- (truediv_self m) by lia. unfold truediv, Qcdiv.
  apply Qcmult_le_mono_nonneg_r; [|by apply (proj1 (Z2Qc_inj_le _ _))].
  apply Qclt_le_weak, Qcinv_pos. rewrite <- Z2Qc_inj_0. by apply (proj1 (Z2Qc_inj_lt _ _)).
Qed.


(** ** Reversal and trimming *)

Lemma app_cons (c : ascii) (a b : string) :
  String c a +:+ b = String c (a +:+ b).
Proof. done. Qed.

Lemma app_nil_l (s : string) : EmptyString +:+ s = s.
Proof. done. Qed.

Lemma app_nil_r (s : string) : s +:+ EmptyString = s.
Proof. induction s as [|c s IH]; [done|]. by rewrite app_cons, IH. Qed.

Lemma app_assoc (a b c : string) : (a +:+ b) +:+ c = a +:+ (b +:+ c).
Proof. induction a as [|x a IH]; [done|]. by rewrite !app_cons, IH. Qed.

Lemma rev_app_spec (a b : string) : String.rev_app a b = String.rev a +:+ b.
Proof.
  unfold String.rev. revert b. induction a as [|c a IH]; intros b; [done|].
  cbn. rewrite IH, (IH (String c EmptyString)). by rewrite app_assoc.
Qed.

Lemma rev_cons (c : ascii) (s : string) :
  String.rev (String c s) = String.rev s +:+ String c EmptyString.
Proof. unfold String.rev at 1. cbn. apply rev_app_spec. Qed.

Lemma rev_snoc (c : ascii) (s : string) :
  String.rev (s +:+ String c EmptyString) = String c (String.rev s).
Proof.
  induction s as [|x s IH]; [done|].
  by rewrite app_cons, !rev_cons, IH.
Qed.

Lemma rev_involutive (s : string) : String.rev (String.rev s) = s.
Proof.
  induction s as [|c s IH]; [done|]. by rewrite rev_cons, rev_snoc, IH.
Qed.

(** [lstrip] leaves alone a string that does not start with
    whitespace. *)
Lemma lstrip_idem (s : string) : lstrip (lstrip s) = lstrip s.
Proof.
  induction s as [|c s IH]; [done|]. cbn.
  destruct (is_space c) eqn:Hc; [done|]. cbn. by rewrite Hc.
Qed.

Lemma lstrip_snoc (s : string) (c : ascii) :
  is_space c = false →
  lstrip (s +:+ String c EmptyString) = lstrip s +:+ String c EmptyString.
Proof.
  intros Hc. induction s as [|x s IH];
    [by rewrite !app_nil_l; cbn [lstrip]; rewrite Hc|].
  rewrite app_cons. cbn [lstrip]. by destruct (is_space x).
Qed.

Lemma rstrip_cons (c : ascii) (s : string) :
  is_space c = false → rstrip (String c s) = String c (rstrip s).
Proof.
  intros Hc. unfold rstrip. by rewrite rev_cons, lstrip_snoc, rev_snoc.
Qed.

Lemma rstrip_idem (s : string) : rstrip (rstrip s) = rstrip s.
Proof. unfold rstrip. by rewrite rev_involutive, lstrip_idem. Qed.

(** [s.strip().strip() == s.strip()] *)
Lemma strip_idem (s : string) : strip (strip s) = strip s.
Proof.
  unfold strip. induction s as [|c s IH]; [done|]. cbn [lstrip].
  destruct (is_space c) eqn:Hc; [done|].
  rewrite rstrip_cons by done. cbn [lstrip]. rewrite Hc.
  by rewrite rstrip_cons, rstrip_idem.
Qed.

End PyFacts.

(* ===================================================================== *)
(** * The lexical scorer *)
(* ===================================================================== *)

Module ScorerFacts.
Import Py ApiServer.

Lemma similarity_empty (query text : string) :
  word_set query = ∅ ∨ word_set text = ∅ →
  simple_text_similarity query text = Q2Qc 0.
Proof.
  intros H. unfold simple_text_similarity.
  destruct H as [-> | ->]; rewrite ?bool_decide_eq_true_2 by done;
    by rewrite ?orb_true_r.
Qed.

Lemma similarity_jaccard (query text : string) :
  word_set query ≠ ∅ → word_set text ≠ ∅ →
  simple_text_similarity query text
  = truediv (Z.of_nat (size (word_set query ∩ word_set text)))
            (Z.of_nat (size (word_set query ∪ word_set text))).
Proof.
  intros Hq Ht. unfold simple_text_similarity.
  by rewrite !bool_decide_eq_false_2.
Qed.

Lemma union_size_pos (X Y : gset string) : X ≠ ∅ → (0 < size (X ∪ Y))%nat.
Proof.
  intros HX. apply Nat.neq_0_lt_0. intros H%size_empty_inv.
  apply HX. apply leibniz_equiv. set_solver.
Qed.

(** C8: the score of the query ["consciousness"] against
    ["Bob writes extensively about consciousness and awareness."] is not
    1/8. *)
Lemma C8_score_is_not_one_eighth :
  simple_text_similarity "consciousness"
    "Bob writes extensively about consciousness and awareness."
  ≠ Q2Qc (1 # 8).
Proof. intros H. apply (f_equal this) in H. vm_compute in H. discriminate H. Qed.

(** C8 (amended): the score of the query ["consciousness"] against
    ["Bob writes extensively about consciousness and awareness."] is
    exactly 1/7: one shared word over the seven distinct words of the
    union. *)
Theorem C8_score_is_one_seventh :
  simple_text_similarity "consciousness"
    "Bob writes extensively about consciousness and awareness."
  = Q2Qc (1 # 7)
  ∧ size (word_set "consciousness"
          ∩ word_set "Bob writes extensively about consciousness and awareness.") = 1%nat
  ∧ size (word_set "consciousness"
          ∪ word_set "Bob writes extensively about consciousness and awareness.") = 7%nat.
Proof.
  split; [|split]; [|by vm_compute..].
  apply Qc_is_canon. by vm_compute.
Qed.



End ScorerFacts.

(* ===================================================================== *)
(** * The retriever *)
(* ===================================================================== *)

Module RetrieverFacts.
Import Py ApiServer.

(** ** Comprehensions whose body does not raise *)

Lemma filterM_pure {A} (p : A → outcome bool) (f : A → bool) (l : list A) :
  Forall (λ x, p x = Returns (f x)) l →
  filterM p l = Returns (filter (λ x, f x = true) l).
Proof.
  induction 1 as [|x l Hx _ IH]; [done|].
  cbn [filterM]. rewrite Hx, IH.
  destruct (f x) eqn:Hfx.
  - by rewrite filter_cons_True.
  - rewrite filter_cons_False; [done|]. by rewrite Hfx.
Qed.

Lemma mapM_pure {A B} (g : A → outcome B) (h : A → B) (l : list A) :
  Forall (λ x, g x = Returns (h x)) l → mapM g l = Returns (h <$> l).
Proof.
  induction 1 as [|x l Hx _ IH]; [done|].
  cbn. rewrite Hx. cbn. fold (mapM g l). by rewrite IH.
Qed.

Lemma filterM_returns {A} (p : A → outcome bool) (l k : list A) :
  filterM p l = Returns k → k ⊆ l.
Proof.
  revert k. induction l as [|x l IH]; intros k; cbn [filterM].
  - intros [= <-]. done.
  - destruct (p x) as [b| |]; cbn; [|done..].
    destruct (filterM p l) as [k'| |]; cbn; [|done..].
    intros [= <-]. specialize (IH k' eq_refl).
    destruct b; [by apply list_subseteq_skip|by apply list_subseteq_cons].
Qed.

Lemma mapM_returns {A B} (g : A → outcome B) (l : list A) (k : list B) :
  mapM g l = Returns k → ∀ y, y ∈ k → ∃ x, x ∈ l ∧ g x = Returns y.
Proof.
  revert k. induction l as [|x l IH]; intros k; cbn.
  - intros [= <-] y Hy. by apply elem_of_nil in Hy.
  - destruct (g x) as [y0| |] eqn:Hx; cbn; [|done..].
    fold (mapM g l). destruct (mapM g l) as [k'| |]; cbn; [|done..].
    intros [= <-] y [->|Hy]%elem_of_cons.
    + exists x. split; [left|done].
    + destruct (IH k' eq_refl y Hy) as (x' & ? & ?).
      exists x'. split; [by right|done].
Qed.

(** ** Typed chunks are filtered and scored without raising *)

Lemma is_quality_chunk_typed (chunk : dict) :
  Spec.chunk_typed chunk →
  is_quality_chunk chunk = Returns (Spec.is_retrievable chunk).
Proof.
  intros [[text Ht] _].
  unfold is_quality_chunk, Spec.is_retrievable, Spec.text_of, getitem.
  by rewrite Ht.
Qed.

Lemma adjusted_similarity_typed (question : string) (chunk : dict) :
  Spec.chunk_typed chunk →
  adjusted_similarity question chunk
  = Returns (Spec.boosted_score question chunk).
Proof.
  intros [[text Ht] Hwc].
  unfold adjusted_similarity, Spec.boosted_score, Spec.text_of,
    Spec.word_count_of, getitem, get.
  rewrite Ht. cbn. by destruct Hwc as [-> | [n ->]].
Qed.

(** ** The stable descending sort *)

Lemma insert_desc_perm (x : dict * Qc) (l : list (dict * Qc)) :
  insert_desc x l ≡ₚ x :: l.
Proof.
  induction l as [|y l IH]; [done|]. cbn. case_bool_decide; [|done].
  rewrite IH. apply Permutation_swap.
Qed.

Lemma sort_desc_perm (l : list (dict * Qc)) : sort_desc l ≡ₚ l.
Proof.
  induction l as [|x l IH]; [done|]. cbn.
  by rewrite insert_desc_perm, IH.
Qed.

Lemma insert_desc_sorted (x : dict * Qc) (l : list (dict * Qc)) :
  StronglySorted Spec.score_ge l →
  StronglySorted Spec.score_ge (insert_desc x l).
Proof.
  induction 1 as [|y l Hl IH Hy]; cbn.
  - by repeat constructor.
  - case_bool_decide as Hlt.
    + constructor; [done|]. rewrite insert_desc_perm.
      constructor; [|done]. by apply Qclt_le_weak.
    + apply Qcnot_lt_le in Hlt.
      constructor; [by constructor|]. constructor; [done|].
      eapply Forall_impl; [exact Hy|]. intros z Hz. unfold Spec.score_ge in *.
      by etrans.
Qed.

Lemma sort_desc_sorted (l : list (dict * Qc)) :
  StronglySorted Spec.score_ge (sort_desc l).
Proof.
  induction l as [|x l IH]; cbn; [constructor|by apply insert_desc_sorted].
Qed.





Lemma sorted_head_ge (x y : dict * Qc) (l : list (dict * Qc)) :
  StronglySorted Spec.score_ge (x :: l) → y ∈ x :: l → (y.2 ≤ x.2)%Qc.
Proof.
  intros Hs [->|Hy]%elem_of_cons; [apply Qcle_refl|].
  apply StronglySorted_inv in Hs as [_ Hall].
  by apply (proj1 (list.Forall_forall _ _) Hall).
Qed.


(** ** Slicing *)

Lemma list_slice_to_nonneg {A} (l : list A) (k : Z) :
  0 ≤ k → list_slice_to l k = take (Z.to_nat k) l.
Proof.
  intros Hk. unfold list_slice_to, clamp.
  destruct (Z.ltb_spec k 0); [lia|].
  destruct (Z.min_spec k (Z.of_nat (length l))) as [[? ->]|[? ->]]; [done|].
  rewrite Nat2Z.id, firstn_all. symmetry. apply take_ge. lia.
Qed.

Lemma list_slice_to_subseteq {A} (l : list A) (k : Z) :
  list_slice_to l k ⊆ l.
Proof.
  intros x Hx. unfold list_slice_to in Hx.
  apply elem_of_take in Hx as (i & Hi & _). by eapply list_elem_of_lookup_2.
Qed.






(** A negative [top_k] is a Python slice bound counted from the end. *)
Example list_slice_to_negative :
  list_slice_to [1; 2; 3] (-1) = [1; 2].
Proof. done. Qed.

End RetrieverFacts.

(* ===================================================================== *)
(** * The quality filter *)
(* ===================================================================== *)

Module QualityFacts.
Import Py ApiServer.

Lemma endswith_refl (s : string) : endswith s s = true.
Proof. destruct s; cbn [endswith]; by rewrite String.eqb_refl. Qed.

Lemma endswith_suffix (s p : string) :
  endswith s p = true ↔ ∃ pre, s = pre +:+ p.
Proof.
  split.
  - induction s as [|c s IH]; cbn [endswith].
    + destruct (String.eqb_spec "" p) as [<-|]; [by exists ""|done].
    + destruct (String.eqb_spec (String c s) p) as [<-|_]; [by exists ""|].
      intros [pre ->]%IH. by exists (String c pre).
  - intros [pre ->]. induction pre as [|c pre IH]; [apply endswith_refl|].
    change (String c pre +:+ p) with (String c (pre +:+ p)).
    cbn [endswith]. rewrite IH. by destruct (String.eqb _ _).
Qed.

Lemma fragment_rule_suffix (text : string) :
  is_incomplete_fragment text = true
  ↔ ∃ w pre, w ∈ dangling_words ∧ text = pre +:+ w.
Proof.
  unfold is_incomplete_fragment, endswith_any. rewrite existsb_exists.
  split.
  - intros (w & Hw%list_elem_of_In & [pre ->]%endswith_suffix). by exists w, pre.
  - intros (w & pre & Hw & ->). exists w. split; [by apply list_elem_of_In|].
    apply endswith_suffix. by exists pre.
Qed.

Lemma fragment_rule_rejects (text : string) :
  is_incomplete_fragment text = true → is_quality_text text = false.
Proof.
  intros H. unfold is_quality_text. rewrite H.
  by repeat match goal with |- context [if ?b then _ else _] => destruct b end.
Qed.

Lemma lstrip_head (s : string) (c : ascii) (s' : string) :
  lstrip s = String c s' → is_space c = false.
Proof.
  induction s as [|x s IH]; [done|]. cbn.
  destruct (is_space x) eqn:Hx; [done|]. by intros [= <- _].
Qed.

(** A trimmed text is empty or ends with a character that is not
    whitespace. *)
Lemma strip_last (s : string) :
  strip s = EmptyString
  ∨ ∃ s0 c, strip s = s0 +:+ String c EmptyString ∧ is_space c = false.
Proof.
  unfold strip, rstrip.
  destruct (lstrip (String.rev (lstrip s))) as [|c v] eqn:Hv; [by left|].
  right. exists (String.rev v), c. split; [apply PyFacts.rev_cons|].
  by eapply lstrip_head.
Qed.

(** The end of a string: nothing is left to read, or the last character
    satisfies [p]. *)
Lemma ends_with_tail (p : ascii → bool) (c : ascii) (s : string) :
  (∃ s0 x, String c s = s0 +:+ String x EmptyString ∧ p x = true) →
  (s = EmptyString ∧ p c = true)
  ∨ ∃ s0 x, s = s0 +:+ String x EmptyString ∧ p x = true.
Proof.
  intros ([|c0 s0] & x & Heq & Hx).
  - rewrite PyFacts.app_nil_l in Heq. injection Heq as -> ->. by left.
  - rewrite PyFacts.app_cons in Heq. injection Heq as -> ->. right. by exists s0, x.
Qed.

Lemma runs_go_nonempty (p : ascii → bool) (s cur : string) :
  (s = EmptyString ∧ cur ≠ EmptyString)
  ∨ (∃ s0 x, s = s0 +:+ String x EmptyString ∧ p x = true) →
  runs_go p cur s ≠ [].
Proof.
  revert cur. induction s as [|c s IH]; intros cur.
  - intros [[_ Hcur]|(s0 & x & Hs & _)].
    + cbn. by destruct cur.
    + by destruct s0.
  - intros [[? _]|Hend]; [done|].
    apply ends_with_tail in Hend. cbn [runs_go].
    destruct (p c) eqn:Hc.
    + apply IH. destruct Hend as [[-> _]|Hend]; [by left|by right].
    + destruct Hend as [[_ ?]|Hend]; [congruence|].
      destruct cur; [apply IH; by right|done].
Qed.

(** The last run is a suffix of what was read, when the text does not
    end with a separator. *)
Lemma runs_go_last (p : ascii → bool) (s cur w : string) :
  last (runs_go p cur s) = Some w →
  s = EmptyString ∨ (∃ s0 x, s = s0 +:+ String x EmptyString ∧ p x = true) →
  ∃ pre, String.rev cur +:+ s = pre +:+ w.
Proof.
  revert cur. induction s as [|c s IH]; intros cur Hlast Hend.
  - cbn in Hlast. destruct cur as [|x cur]; [done|].
    injection Hlast as <-. exists EmptyString. by rewrite PyFacts.app_nil_r.
  - destruct Hend as [?|Hend]; [done|].
    apply ends_with_tail in Hend. cbn [runs_go] in Hlast.
    destruct (p c) eqn:Hc.
    + destruct (IH (String c cur) Hlast) as [pre Hpre].
      { destruct Hend as [[-> _]|Hend]; [by left|by right]. }
      exists pre. by rewrite <- Hpre, PyFacts.rev_cons, PyFacts.app_assoc.
    + destruct Hend as [[_ ?]|Hend]; [congruence|].
      assert (∃ pre, s = pre +:+ w) as [pre ->].
      { destruct cur as [|x cur].
        - apply (IH EmptyString Hlast). by right.
        - rewrite last_cons in Hlast.
          destruct (last (runs_go p EmptyString s)) as [w'|] eqn:Hl.
          + injection Hlast as ->. apply (IH EmptyString Hl). by right.
          + apply last_None in Hl.
            by apply (runs_go_nonempty p s EmptyString) in Hl; [|right]. }
      exists (String.rev cur +:+ String c pre).
      by rewrite PyFacts.app_assoc, PyFacts.app_cons.
Qed.

(** The final token of a trimmed text is a suffix of it. *)
Lemma final_token_suffix (text w : string) :
  Spec.final_token (strip text) = Some w → ∃ pre, strip text = pre +:+ w.
Proof.
  unfold Spec.final_token, split_ws, runs. intros Hlast.
  destruct (runs_go_last _ _ EmptyString w Hlast) as [pre Hpre]; [|by exists pre].
  destruct (strip_last text) as [->|(s0 & c & -> & Hc)]; [by left|].
  right. exists s0, c. by rewrite Hc.
Qed.

(** C9: the passage that ends in the word ["baby"] has a final token that
    is none of the ten words, and it passes every other rule of the
    filter; yet the fragment rule fires and the chunk is rejected.  The
    same holds with ["thereof"], and the passage ending in ["child"] is
    accepted. *)
Lemma C9_final_token_baby_is_rejected :
  Spec.final_token (strip Examples.baby_text) = Some "baby"
  ∧ ("baby" ∉ dangling_words)
  ∧ is_incomplete_fragment (strip Examples.baby_text) = true
  ∧ is_quality_chunk {[ "text" := VStr Examples.baby_text ]} = Returns false
  ∧ Spec.final_token (strip Examples.thereof_text) = Some "thereof"
  ∧ ("thereof" ∉ dangling_words)
  ∧ is_quality_chunk {[ "text" := VStr Examples.thereof_text ]} = Returns false
  ∧ is_quality_chunk {[ "text" := VStr Examples.child_text ]} = Returns true.
Proof.
  split_and!; try (by vm_compute);
    apply (proj1 (bool_decide_eq_false _)); by vm_compute.
Qed.

(** C9 (amended): the fragment rule is a character-suffix test.  It
    rejects a chunk if and only if (this rule alone considered) its
    trimmed text ends with one of the letter sequences of, the, and, or,
    in, at, to, for, with, by, whether or not that suffix is a whole
    token.  So it rejects when the final whitespace-delimited token is
    one of the ten words, and a chunk on which the rule fires is
    rejected by the filter. *)
Theorem C9_fragment_rule_is_a_suffix_test (chunk : dict) (text : string) :
  chunk !! "text" = Some (VStr text) →
  (is_incomplete_fragment (strip text) = true
   ↔ ∃ w pre, w ∈ dangling_words ∧ strip text = pre +:+ w)
  ∧ (∀ w, Spec.final_token (strip text) = Some w → w ∈ dangling_words →
          is_incomplete_fragment (strip text) = true)
  ∧ (is_incomplete_fragment (strip text) = true →
     is_quality_chunk chunk = Returns false).
Proof.
  intros Ht. split_and!; [apply fragment_rule_suffix| |].
  - intros w [pre Hpre]%final_token_suffix Hw.
    apply fragment_rule_suffix. by exists w, pre.
  - intros H. unfold is_quality_chunk, getitem. rewrite Ht. cbn.
    by rewrite fragment_rule_rejects.
Qed.

(** The passage ending in ["baby"], for C9. *)
Lemma C9_fragment_rule_is_a_suffix_test_witness :
  is_quality_chunk {[ "text" := VStr Examples.baby_text ]} = Returns false.
Proof.
  apply (C9_fragment_rule_is_a_suffix_test
           {[ "text" := VStr Examples.baby_text ]} Examples.baby_text);
    by vm_compute.
Defined.

(** Leader dots of a table of contents are rejected. *)
Example leader_dots_rejected :
  is_quality_chunk
    {[ "text" := VStr "1 ........... 2 ........... 3 ..........." ]}
  = Returns false
  ∧ mostly_dots "1 ........... 2 ........... 3 ..........." = true.
Proof. by vm_compute. Qed.

(** A record without a text makes the filter raise. *)
Example is_quality_chunk_without_text :
  is_quality_chunk {[ "chapter" := VStr "One" ]} = Raises KeyError.
Proof. by vm_compute. Qed.

End QualityFacts.

(* ===================================================================== *)
(** * The chunker *)
(* ===================================================================== *)

Module ChunkerFacts.
Import Py Config TextProcessor.

(** ** Indexing *)

Lemma get_in_range (s : string) (n : nat) :
  (n < String.length s)%nat → ∃ c, String.get n s = Some c.
Proof.
  revert n. induction s as [|c s IH]; intros n Hn; cbn in Hn; [lia|].
  destruct n as [|n]; cbn; [by eexists|]. apply IH. lia.
Qed.

Lemma index_in_range (text : string) (i : Z) :
  0 ≤ i < len text → ∃ c, index text i = Returns c.
Proof.
  intros Hi. unfold index.
  destruct (Z.ltb_spec i 0); [lia|].
  destruct (Z.leb_spec 0 i); [|lia].
  destruct (Z.ltb_spec i (len text)); [|lia]. cbn.
  destruct (get_in_range text (Z.to_nat i)) as [c ->]; [unfold len in *; lia|].
  by exists c.
Qed.

(** ** The backward search *)

Lemma is_sentence_ending_spec (c : ascii) :
  is_sentence_ending c = true ↔ c = "."%char ∨ c = "!"%char ∨ c = "?"%char.
Proof.
  unfold is_sentence_ending, sentence_endings.
  rewrite bool_decide_eq_true, !elem_of_cons, elem_of_nil.
  split.
  - intros [H|[H|[H|[H|H]]]]; try done; cbv in H; simplify_eq; auto.
  - intros [-> | [-> | ->]]; auto.
Qed.

Lemma find_boundary_bounds (text : string) (n : nat) (i e : Z) :
  find_boundary text i n = Returns (Some e) →
  i - Z.of_nat n + 2 ≤ e ≤ i + 1.
Proof.
  revert i. induction n as [|n IH]; intros i; cbn [find_boundary]; [done|].
  destruct (index text i) as [c| |]; cbn; [|done..].
  destruct (is_sentence_ending c).
  - intros [= <-]. lia.
  - intros H%IH. lia.
Qed.

Lemma find_boundary_total (text : string) (n : nat) (i : Z) :
  ((0 < n)%nat → 0 ≤ i - Z.of_nat n + 1) → i < len text →
  ∃ r, find_boundary text i n = Returns r.
Proof.
  revert i. induction n as [|n IH]; intros i Hlo Hhi; cbn [find_boundary];
    [by eexists|].
  destruct (index_in_range text i) as [c ->]; [lia|]. cbn.
  destruct (is_sentence_ending c); [by eexists|].
  apply IH; lia.
Qed.

(** The end of a window: the candidate, or a snapped end, which lies
    less than 199 characters before the candidate and at least two
    characters after the window start. *)
Lemma window_end_bounds (text : string) (chunk_size start e : Z) :
  window_end text chunk_size start = Returns e →
  e = start + chunk_size
  ∨ (start + chunk_size < len text
     ∧ Z.max (start + chunk_size - 200) start + 2 ≤ e ≤ start + chunk_size + 1).
Proof.
  unfold window_end, range_down_count.
  destruct (Z.ltb_spec (start + chunk_size) (len text)) as [Hlt|];
    [|intros [= <-]; by left].
  destruct (find_boundary _ _ _) as [[e'|]| |] eqn:Hfind; cbn; [| |done..].
  - intros [= <-]. right. split; [done|].
    apply find_boundary_bounds in Hfind. lia.
  - intros [= <-]. by left.
Qed.

Lemma window_end_total (text : string) (chunk_size start : Z) :
  0 ≤ start → ∃ e, window_end text chunk_size start = Returns e.
Proof.
  intros Hstart. unfold window_end, range_down_count.
  destruct (Z.ltb_spec (start + chunk_size) (len text)) as [Hlt|];
    [|by eexists].
  destruct (find_boundary_total text
              (Z.to_nat (start + chunk_size
                         - Z.max (start + chunk_size - 200) start))
              (start + chunk_size)) as [r ->]; [lia|done|].
  by eexists.
Qed.

Lemma find_boundary_none (text : string) (n : nat) (i : Z) :
  (∀ j, i - Z.of_nat n < j ≤ i →
        ∃ c, index text j = Returns c ∧ is_sentence_ending c = false) →
  find_boundary text i n = Returns None.
Proof.
  revert i. induction n as [|n IH]; intros i Hrange; [done|].
  cbn [find_boundary].
  destruct (Hrange i) as (c & -> & Hc); [lia|]. cbn. rewrite Hc.
  apply IH. intros j Hj. apply Hrange. lia.
Qed.

(** A window that is not the last one and whose searched characters are
    none of [.], [!], [?] ends at the candidate, blank lines or not. *)
Lemma window_end_without_punctuation (text : string) (chunk_size start : Z) :
  0 ≤ start →
  start + chunk_size < len text →
  (∀ j c, Z.max (start + chunk_size - 200) start < j ≤ start + chunk_size →
          index text j = Returns c →
          c ≠ "."%char ∧ c ≠ "!"%char ∧ c ≠ "?"%char) →
  window_end text chunk_size start = Returns (start + chunk_size).
Proof.
  intros Hstart Hlt Hnone. unfold window_end, range_down_count.
  destruct (Z.ltb_spec (start + chunk_size) (len text)); [|lia].
  rewrite find_boundary_none; [done|].
  intros j Hj. destruct (index_in_range text j) as [c Hc]; [lia|].
  exists c. split; [done|].
  destruct (is_sentence_ending c) eqn:Hend; [|done].
  apply is_sentence_ending_spec in Hend.
  destruct (Hnone j c) as (? & ? & ?); [lia|done|].
  by destruct Hend as [?|[?|?]].
Qed.

Lemma index_failure (text : string) (i : Z) :
  (∃ c, index text i = Returns c) ∨ index text i = Raises IndexError.
Proof.
  unfold index. destruct (_ && _); [|by right].
  destruct (String.get _ _); [left; by eexists|by right].
Qed.

Lemma find_boundary_failure (text : string) (n : nat) (i : Z) :
  (∃ r, find_boundary text i n = Returns r)
  ∨ find_boundary text i n = Raises IndexError.
Proof.
  revert i. induction n as [|n IH]; intros i; cbn [find_boundary];
    [left; by eexists|].
  destruct (index_failure text i) as [[c ->]| ->]; [|by right]. cbn.
  destruct (is_sentence_ending c); [left; by eexists|apply IH].
Qed.

Lemma window_end_failure (text : string) (chunk_size start : Z) :
  (∃ e, window_end text chunk_size start = Returns e)
  ∨ window_end text chunk_size start = Raises IndexError.
Proof.
  unfold window_end. destruct (_ <? _); [|left; by eexists].
  destruct (find_boundary_failure text
              (range_down_count (start + chunk_size)
                 (Z.max (start + chunk_size - 200) start))
              (start + chunk_size)) as [[r ->]| ->]; [left; by eexists|by right].
Qed.

(** ** One iteration *)

Lemma chunk_loop_unfold (fuel : nat) (text : string) (chunk_size overlap : Z)
    (start : Z) (chunks : list string) :
  chunk_loop (S fuel) text chunk_size overlap start chunks
  = (s ← chunk_iter text chunk_size overlap start chunks;
     match s with
     | Done chunks' => Returns chunks'
     | Next start' chunks' =>
         chunk_loop fuel text chunk_size overlap start' chunks'
     end).
Proof. done. Qed.

Lemma kept_span_snoc (text : string) (chunks : list string) (a b : Z) :
  Forall (Spec.kept_span text) chunks →
  Forall (Spec.kept_span text)
    (if 50 <? len (strip (slice text a b))
     then chunks ++ [strip (slice text a b)] else chunks).
Proof.
  intros H. destruct (Z.ltb_spec 50 (len (strip (slice text a b)))); [|done].
  apply Forall_app. split; [done|]. apply Forall_singleton.
  split; [by exists a, b|by rewrite PyFacts.strip_idem].
Qed.

(** With room to advance, an iteration does not raise, keeps only
    trimmed spans of more than 50 characters, and moves [start]
    forward. *)
Lemma chunk_iter_advances (text : string) (chunk_size overlap : Z)
    (start : Z) (chunks : list string) :
  overlap < chunk_size →
  overlap + 199 ≤ chunk_size ∨ overlap ≤ 1 →
  0 ≤ start →
  Forall (Spec.kept_span text) chunks →
  ∃ s, chunk_iter text chunk_size overlap start chunks = Returns s
       ∧ match s with
         | Next start' chunks' =>
             start < start' < len text ∧ Forall (Spec.kept_span text) chunks'
         | Done chunks' => Forall (Spec.kept_span text) chunks'
         end.
Proof.
  intros Hlt Hroom Hstart Hkept. unfold chunk_iter.
  destruct (Z.ltb_spec start (len text)); [|by eexists].
  destruct (window_end_total text chunk_size start Hstart) as [e He].
  rewrite He. cbn.
  apply window_end_bounds in He.
  destruct (Z.leb_spec (len text) (e - overlap)); eexists; (split; [done|]).
  - by apply kept_span_snoc.
  - split; [lia|]. by apply kept_span_snoc.
Qed.

(** Without room to advance, an iteration that returns leaves [start]
    before the end of the text. *)
Lemma chunk_iter_stays (text : string) (chunk_size overlap : Z)
    (start : Z) (chunks : list string) (s : step) :
  chunk_size ≤ overlap →
  start < len text →
  chunk_iter text chunk_size overlap start chunks = Returns s →
  ∃ start' chunks', s = Next start' chunks' ∧ start' < len text.
Proof.
  intros Hle Hstart. unfold chunk_iter.
  destruct (Z.ltb_spec start (len text)); [|lia].
  destruct (window_end text chunk_size start) as [e| |] eqn:He; cbn;
    [|done..].
  apply window_end_bounds in He.
  destruct (Z.leb_spec (len text) (e - overlap)); [lia|].
  intros [= <-]. by eexists _, _.
Qed.

Lemma chunk_iter_failure (text : string) (chunk_size overlap : Z)
    (start : Z) (chunks : list string) :
  (∃ s, chunk_iter text chunk_size overlap start chunks = Returns s)
  ∨ chunk_iter text chunk_size overlap start chunks = Raises IndexError.
Proof.
  unfold chunk_iter. destruct (_ <? _); [|left; by eexists].
  destruct (window_end_failure text chunk_size start) as [[e ->]| ->];
    [|by right].
  cbn. destruct (_ <=? _); left; by eexists.
Qed.

(** ** The loop *)

Lemma chunk_loop_terminates (text : string) (chunk_size overlap : Z) :
  overlap < chunk_size →
  overlap + 199 ≤ chunk_size ∨ overlap ≤ 1 →
  ∀ (fuel : nat) (start : Z) (chunks : list string),
    0 ≤ start →
    (Z.to_nat (len text - start) < fuel)%nat →
    Forall (Spec.kept_span text) chunks →
    ∃ res, chunk_loop fuel text chunk_size overlap start chunks = Returns res
           ∧ Forall (Spec.kept_span text) res.
Proof.
  intros Hlt Hroom fuel.
  induction fuel as [|fuel IH]; intros start chunks Hstart Hfuel Hkept; [lia|].
  rewrite chunk_loop_unfold.
  destruct (chunk_iter_advances text chunk_size overlap start chunks)
    as ([start' chunks'|chunks'] & -> & Hs); try done; cbn.
  - destruct Hs as [Hadv Hkept']. apply IH; [lia|lia|done].
  - by exists chunks'.
Qed.


Lemma chunk_loop_fixed_point (text : string) (chunk_size overlap : Z)
    (start : Z) (chunks : list string) :
  chunk_iter text chunk_size overlap start chunks = Returns (Next start chunks) →
  ∀ fuel, chunk_loop fuel text chunk_size overlap start chunks = OutOfFuel.
Proof.
  intros Hiter fuel. induction fuel as [|fuel IH]; [done|].
  by rewrite chunk_loop_unfold, Hiter.
Qed.

Lemma chunk_loop_never_returns (text : string) (chunk_size overlap : Z) :
  chunk_size ≤ overlap →
  ∀ (fuel : nat) (start : Z) (chunks : list string),
    start < len text →
    chunk_loop fuel text chunk_size overlap start chunks = OutOfFuel
    ∨ chunk_loop fuel text chunk_size overlap start chunks = Raises IndexError.
Proof.
  intros Hle fuel.
  induction fuel as [|fuel IH]; intros start chunks Hstart; [by left|].
  rewrite chunk_loop_unfold.
  destruct (chunk_iter_failure text chunk_size overlap start chunks)
    as [[s Hs]| ->]; [|by right].
  rewrite Hs. cbn.
  destruct (chunk_iter_stays _ _ _ _ _ _ Hle Hstart Hs)
    as (start' & chunks' & -> & Hstart').
  by apply IH.
Qed.

Lemma strip_nonblank_len (text : string) :
  strip text ≠ EmptyString → 0 < len text.
Proof. destruct text; [done|]. unfold len. cbn. lia. Qed.

(** ** The claims *)




(** C4: with a target size equal to the overlap, on a text that needs
    more than one window, no error is raised: the loop runs for as long
    as it is given fuel. *)
Lemma C4_chunk_text_loops_instead_of_failing :
  5 ≤ 5 ∧ 5 < len "hello world"
  ∧ ∀ fuel, chunk_text fuel "hello world" 5 5 = OutOfFuel.
Proof.
  split_and!; [done..|]. intros fuel.
  change (chunk_text fuel "hello world" 5 5)
    with (chunk_loop fuel "hello world" 5 5 0 []).
  by apply chunk_loop_fixed_point.
Qed.

(** C4 (amended): [chunk_text] makes no check of its parameters.  Called
    with [target_size <= overlap] on a text that is not blank, it never
    fails with a configuration error and never returns: the start of the
    window stays before the end of the text, so the loop runs on, unless
    an index error stops it. *)
Theorem C4_chunk_text_without_room_never_returns
    (text : string) (chunk_size overlap : Z) (fuel : nat) :
  chunk_size ≤ overlap →
  strip text ≠ EmptyString →
  chunk_text fuel text chunk_size overlap = OutOfFuel
  ∨ chunk_text fuel text chunk_size overlap = Raises IndexError.
Proof.
  intros Hle Hblank. pose proof (strip_nonblank_len text Hblank).
  unfold chunk_text. destruct (strip text); [done|].
  by apply chunk_loop_never_returns.
Qed.

(** A target size equal to the overlap, for C4. *)
Lemma C4_chunk_text_without_room_never_returns_witness :
  chunk_text 7 "hello world" 200 200 = OutOfFuel
  ∨ chunk_text 7 "hello world" 200 200 = Raises IndexError.
Proof.
  apply (C4_chunk_text_without_room_never_returns "hello world" 200 200 7).
  - lia.
  - by vm_compute.
Defined.

(** C5: the blank-line marker is an entry of [sentence_endings], but
    the one-character string [text[i]] never equals it: only a full
    stop, an exclamation mark or a question mark ends the search, and a
    window that is not the last one and has none of the three among its
    searched characters ends at the candidate, blank lines or not.  On
    the sample text the blank line occupies the positions 900 and 901,
    inside the last 200 characters of the first window, which holds none
    of the three characters; the window end stays at 1000 and is not
    snapped to 902. *)
Theorem C5_blank_line_marker_never_snaps :
  (NL +:+ NL) ∈ sentence_endings
  ∧ (∀ c, is_sentence_ending c = true
          ↔ c = "."%char ∨ c = "!"%char ∨ c = "?"%char)
  ∧ (∀ text chunk_size start,
       0 ≤ start →
       start + chunk_size < len text →
       (∀ j c, Z.max (start + chunk_size - 200) start < j ≤ start + chunk_size →
               index text j = Returns c →
               c ≠ "."%char ∧ c ≠ "!"%char ∧ c ≠ "?"%char) →
       window_end text chunk_size start = Returns (start + chunk_size))
  ∧ slice Examples.blank_line_text 900 902 = NL +:+ NL
  ∧ window_end Examples.blank_line_text CHUNK_SIZE 0 = Returns 1000
  ∧ chunk_text 3 Examples.blank_line_text CHUNK_SIZE CHUNK_OVERLAP
    = Returns [slice Examples.blank_line_text 0 1000;
               slice Examples.blank_line_text 800 1202].
Proof.
  split_and!;
    [|apply is_sentence_ending_spec|apply window_end_without_punctuation
     |by vm_compute..].
  unfold sentence_endings. apply list_elem_of_In. cbn. tauto.
Qed.

(** A paragraph of 3000 letters without punctuation, with the
    configured sizes: windows of 1000 characters that advance by 800,
    the last one cut at the end of the text. *)
Example chunk_text_plain_paragraph :
  chunk_text 5 (Examples.repeat_char "a" 3000) CHUNK_SIZE CHUNK_OVERLAP
  = Returns [Examples.repeat_char "a" 1000; Examples.repeat_char "a" 1000;
             Examples.repeat_char "a" 1000; Examples.repeat_char "a" 600].
Proof. by vm_compute. Qed.

(** An overlap far above the target size: [start] falls below
    [-len(text)] and the backward search indexes out of range. *)
Example chunk_text_far_overlap_raises :
  chunk_text 5 "abc" 1 1000 = Raises IndexError.
Proof. by vm_compute. Qed.

End ChunkerFacts.

(* ===================================================================== *)
(** * The chunk validator *)
(* ===================================================================== *)

Module ValidatorFacts.
Import Py Config TextProcessor.

Lemma is_valid_chunk_counted (chunk : dict) :
  Spec.has_counts chunk →
  is_valid_chunk chunk
  = Returns (bool_decide (Spec.valid_with_fields_present chunk)).
Proof.
  intros (wc & tc & Hwc & Htc).
  assert (Spec.word_count_of chunk = wc) as Hwc'
    by (unfold Spec.word_count_of; by rewrite Hwc).
  assert (Spec.token_count_of chunk = tc) as Htc'
    by (unfold Spec.token_count_of; by rewrite Htc).
  unfold is_valid_chunk, getitem. rewrite Hwc, Htc. cbn.
  destruct (Z.ltb_spec wc 10).
  { rewrite bool_decide_eq_false_2; [done|].
    unfold Spec.valid_with_fields_present. lia. }
  destruct (Z.ltb_spec MAX_CHUNK_SIZE tc).
  { rewrite bool_decide_eq_false_2; [done|].
    unfold Spec.valid_with_fields_present. lia. }
  f_equal. unfold contains. rewrite !andb_true_r.
  apply eq_bool_prop_intro.
  rewrite !andb_True, !bool_decide_spec.
  unfold Spec.valid_with_fields_present. intuition lia.
Qed.

(** C6: the chunk of a book with an empty title passes the validator,
    although its [book_title] is empty; and a record without a
    [word_count] makes the validator raise. *)
Lemma C6_empty_title_is_kept :
  validate_chunks [Examples.untitled_chunk] = Returns [Examples.untitled_chunk]
  ∧ ¬ Spec.valid_as_specified Examples.untitled_chunk
  ∧ validate_chunks [Examples.uncounted_chunk] = Raises KeyError.
Proof.
  split_and!; [by vm_compute| |by vm_compute].
  apply (proj1 (bool_decide_eq_false _)). by vm_compute.
Qed.

(** C6 (amended): for every list of chunk records that carry an integer
    [word_count] and [token_count], [validate_chunks] does not raise and
    returns exactly the chunks with [word_count >= 10], [token_count]
    not above the hard ceiling, and the fields [book_title], [chapter]
    and [text] present (empty or not), in their relative order; the
    others are dropped silently. *)
Theorem C6_validate_chunks_checks_presence (chunks : list dict) :
  Forall Spec.has_counts chunks →
  validate_chunks chunks
  = Returns (filter Spec.valid_with_fields_present chunks)
  ∧ filter Spec.valid_with_fields_present chunks `sublist_of` chunks.
Proof.
  intros Hcounts. split; [|apply sublist_filter].
  unfold validate_chunks.
  rewrite (RetrieverFacts.filterM_pure _
             (λ c, bool_decide (Spec.valid_with_fields_present c))).
  - f_equal. apply list_filter_iff. intros c. apply bool_decide_eq_true.
  - eapply Forall_impl; [exact Hcounts|]. apply is_valid_chunk_counted.
Qed.

(** A list of one counted chunk, for C6. *)
Lemma C6_validate_chunks_checks_presence_witness :
  validate_chunks [Examples.untitled_chunk]
  = Returns (filter Spec.valid_with_fields_present [Examples.untitled_chunk])
  ∧ filter Spec.valid_with_fields_present [Examples.untitled_chunk]
    `sublist_of` [Examples.untitled_chunk].
Proof.
  apply (C6_validate_chunks_checks_presence [Examples.untitled_chunk]).
  apply Forall_cons_2; [|apply Forall_nil_2]. by exists 13, 14.
Defined.

End ValidatorFacts.

(* ===================================================================== *)
(** * The chapter segmenter *)
(* ===================================================================== *)

Module SegmenterFacts.
Import Py Config TextProcessor.

Lemma split_char_go_app (sep : ascii) (a b cur : string) :
  split_char_go sep cur (a +:+ String sep b)
  = split_char_go sep cur a ++ split_char_go sep EmptyString b.
Proof.
  revert cur. induction a as [|c a IH]; intros cur.
  - change (EmptyString +:+ String sep b) with (String sep b).
    cbn. by rewrite Ascii.eqb_refl.
  - change (String c a +:+ String sep b) with (String c (a +:+ String sep b)).
    cbn. destruct (Ascii.eqb c sep); by rewrite IH.
Qed.

Lemma split_lines_app (pre rest : string) :
  split_char LF (pre +:+ NL +:+ rest) = split_char LF pre ++ split_char LF rest.
Proof. apply split_char_go_app. Qed.

Lemma scan_lines_cons (st : scan) (raw : string) (lines : list string) :
  scan_lines st (raw :: lines) = scan_lines (scan_line st raw) lines.
Proof. done. Qed.

Lemma scan_line_body (st : scan) (raw : string) :
  Spec.is_heading raw = false →
  scan_line st raw = st
  ∨ scan_line st raw
    = Scan (current_chapter st) (current_content st ++ [strip raw])
        (chapters st).
Proof.
  unfold Spec.is_heading, scan_line. intros H.
  destruct (nonempty (strip raw)); [|by left].
  destruct (first_match chapter_patterns (strip raw)) as [g|] eqn:Hg;
    [|by right].
  exfalso. by cbn in H.
Qed.

(** Lines without a heading leave no chapter open and emit none. *)
Lemma scan_lines_no_heading (lines : list string) :
  Forall (λ l, Spec.is_heading l = false) lines →
  ∀ body emitted,
    ∃ body', scan_lines (Scan None body emitted) lines
             = Scan None body' emitted.
Proof.
  induction 1 as [|raw lines Hraw _ IH]; intros body emitted; [by eexists|].
  rewrite scan_lines_cons.
  destruct (scan_line_body (Scan None body emitted) raw Hraw) as [-> | ->];
    apply IH.
Qed.

(** While no chapter is open, the body lines read so far do not matter
    to what is emitted. *)
Lemma scan_lines_forgets_body (lines : list string) :
  ∀ body1 body2 emitted,
    close_chapter (scan_lines (Scan None body1 emitted) lines)
    = close_chapter (scan_lines (Scan None body2 emitted) lines).
Proof.
  induction lines as [|raw lines IH]; intros body1 body2 emitted; [done|].
  rewrite !scan_lines_cons. unfold scan_line.
  cbn [current_chapter current_content chapters].
  destruct (nonempty (strip raw)); [|apply IH].
  destruct (first_match chapter_patterns (strip raw)); [done|apply IH].
Qed.

(** C7: when no line of [pre] is a heading, the chapters extracted from
    [pre], a newline and [rest] are those extracted from [rest] alone:
    the lines before the first heading reach no chapter.  A document
    without any heading yields no chapter, and [process_book_file] then
    chunks the one chapter ["Full Text"] that holds the whole
    document. *)
Theorem C7_lines_before_first_heading_are_dropped (pre rest : string) :
  Forall (λ l, Spec.is_heading l = false) (split_char LF pre) →
  extract_chapters (pre +:+ NL +:+ rest) = extract_chapters rest
  ∧ extract_chapters pre = []
  ∧ process_book_file_chapters pre = [Chapter "Full Text" pre].
Proof.
  intros Hpre.
  assert (extract_chapters pre = []) as Hnone.
  { unfold extract_chapters.
    destruct (scan_lines_no_heading _ Hpre [] []) as [body ->]. done. }
  split_and!; [|done|by unfold process_book_file_chapters; rewrite Hnone].
  unfold extract_chapters. rewrite split_lines_app.
  unfold scan_lines at 1. rewrite foldl_app.
  fold (scan_lines (Scan None [] []) (split_char LF pre)).
  destruct (scan_lines_no_heading _ Hpre [] []) as [body ->].
  apply scan_lines_forgets_body.
Qed.

(** An introduction before the first chapter, for C7. *)
Lemma C7_lines_before_first_heading_are_dropped_witness :
  extract_chapters ("An introduction." +:+ NL
                    +:+ ("Chapter 1: Origins" +:+ NL +:+ "Text A."))
  = extract_chapters ("Chapter 1: Origins" +:+ NL +:+ "Text A.")
  ∧ extract_chapters "An introduction." = []
  ∧ process_book_file_chapters "An introduction."
    = [Chapter "Full Text" "An introduction."].
Proof.
  apply (C7_lines_before_first_heading_are_dropped "An introduction."
           ("Chapter 1: Origins" +:+ NL +:+ "Text A.")).
  apply Forall_cons_2; [by vm_compute|apply Forall_nil_2].
Defined.

(** The segmenter on a document of two chapters. *)
Example extract_chapters_two_chapters :
  extract_chapters
    ("Chapter 1: Origins" +:+ NL +:+ "Text A." +:+ NL +:+ NL
     +:+ "Chapter 2: Growth" +:+ NL +:+ "Text B.")
  = [Chapter "Origins" "Text A."; Chapter "Growth" "Text B."].
Proof. by vm_compute. Qed.

(** A heading whose title is empty opens no chapter: its body lines are
    dropped like those before the first heading. *)
Example extract_chapters_empty_title :
  extract_chapters
    ("** **" +:+ NL +:+ "Lost." +:+ NL +:+ "# Kept" +:+ NL +:+ "Body.")
  = [Chapter "Kept" "Body."].
Proof. by vm_compute. Qed.

End SegmenterFacts.

(* ===================================================================== *)
(** * More on the scorer and the retriever *)
(* ===================================================================== *)

Module RetrieverMore.
Import Py ApiServer.

Lemma truediv_zero (n m : Z) : 0 < m → truediv n m = Q2Qc 0 → n = 0.
Proof.
  intros Hm H. unfold truediv, Qcdiv in H.
  apply Qcmult_integral in H as [H|H].
  - rewrite <- Z2Qc_inj_0 in H. by apply Z2Qc_inj in H.
  - exfalso. assert (Q2Qc 0 < / Qc_of_Z m)%Qc as Hpos.
    { apply Qcinv_pos. rewrite <- Z2Qc_inj_0.
      by apply (proj1 (Z2Qc_inj_lt _ _)). }
    rewrite H in Hpos. exact (Qclt_not_le _ _ Hpos (Qcle_refl _)).
Qed.

Lemma similarity_range (query text : string) :
  (Q2Qc 0 ≤ simple_text_similarity query text)%Qc
  ∧ (simple_text_similarity query text ≤ 1)%Qc.
Proof.
  destruct (decide (word_set query = ∅)) as [Hq|Hq];
    [by rewrite ScorerFacts.similarity_empty; auto|].
  destruct (decide (word_set text = ∅)) as [Ht|Ht];
    [by rewrite ScorerFacts.similarity_empty; auto|].
  rewrite ScorerFacts.similarity_jaccard by done.
  pose proof (ScorerFacts.union_size_pos _ (word_set text) Hq). split.
  - apply PyFacts.truediv_nonneg; lia.
  - apply PyFacts.truediv_le_1; [|lia]. apply inj_le, subseteq_size.
    etrans; [apply intersection_subseteq_l|apply union_subseteq_l].
Qed.

(** X1: the lexical score does not depend on which of the two strings
    is the query. *)
Theorem X1_similarity_symmetric (query text : string) :
  simple_text_similarity query text = simple_text_similarity text query.
Proof.
  unfold simple_text_similarity.
  rewrite (orb_comm (bool_decide (word_set query = ∅))).
  rewrite (comm_L (∩) (word_set query)), (comm_L (∪) (word_set query)).
  done.
Qed.

Lemma similarity_zero_iff (query text : string) :
  simple_text_similarity query text = Q2Qc 0
  ↔ word_set query ∩ word_set text = ∅.
Proof.
  destruct (decide (word_set query = ∅)) as [Hq|Hq].
  { rewrite ScorerFacts.similarity_empty by auto.
    by rewrite Hq, intersection_empty_l_L. }
  destruct (decide (word_set text = ∅)) as [Ht|Ht].
  { rewrite ScorerFacts.similarity_empty by auto.
    by rewrite Ht, intersection_empty_r_L. }
  rewrite ScorerFacts.similarity_jaccard by done.
  pose proof (ScorerFacts.union_size_pos _ (word_set text) Hq) as Hpos.
  split.
  - intros H%truediv_zero; [|lia].
    apply leibniz_equiv, size_empty_inv. lia.
  - intros ->. rewrite size_empty. unfold truediv, Qcdiv.
    change (Z.of_nat 0) with 0. by rewrite Z2Qc_inj_0, Qcmult_0_l.
Qed.

(** X2: the lexical score is 0 exactly when the two strings share no
    lowercase word. *)
Theorem X2_similarity_zero_iff_no_shared_word (query text : string) :
  simple_text_similarity query text = Q2Qc 0
  ↔ word_set query ∩ word_set text = ∅.
Proof. apply similarity_zero_iff. Qed.

Lemma min_le_r (x y : Qc) : (min x y ≤ y)%Qc.
Proof.
  unfold min. case_bool_decide as H; [apply Qcle_refl|].
  by apply Qcnot_lt_le in H.
Qed.

Lemma min_nonneg (x y : Qc) :
  (Q2Qc 0 ≤ x)%Qc → (Q2Qc 0 ≤ y)%Qc → (Q2Qc 0 ≤ min x y)%Qc.
Proof. intros. unfold min. by case_bool_decide. Qed.

Lemma min_r_of_le (x y : Qc) : (y ≤ x)%Qc → min x y = y.
Proof.
  intros Hle. unfold min. case_bool_decide as H; [done|].
  apply Qcnot_lt_le in H. by apply Qcle_antisym.
Qed.

Lemma truediv_mono (n m d : Z) :
  0 < d → n ≤ m → (truediv n d ≤ truediv m d)%Qc.
Proof.
  intros Hd Hnm. unfold truediv, Qcdiv.
  apply Qcmult_le_mono_nonneg_r; [|by apply (proj1 (Z2Qc_inj_le _ _))].
  apply Qclt_le_weak, Qcinv_pos. rewrite <- Z2Qc_inj_0.
  by apply (proj1 (Z2Qc_inj_lt _ _)).
Qed.

Lemma boost_bounds (n : Z) :
  0 ≤ n →
  (Q2Qc 0 ≤ min (truediv n 100) f0_3)%Qc
  ∧ (min (truediv n 100) f0_3 ≤ f0_3)%Qc
  ∧ (30 ≤ n → min (truediv n 100) f0_3 = f0_3).
Proof.
  intros Hn. split_and!.
  - apply min_nonneg; [by apply PyFacts.truediv_nonneg|done].
  - apply min_le_r.
  - intros H30. apply min_r_of_le.
    replace f0_3 with (truediv 30 100) by (by apply Qc_is_canon).
    by apply truediv_mono.
Qed.



(** ** What the comprehension keeps, and when it raises *)

Lemma filterM_kept {A} (p : A → outcome bool) (l k : list A) :
  filterM p l = Returns k →
  k `sublist_of` l ∧ Forall (λ x, p x = Returns true) k.
Proof.
  revert k. induction l as [|x l IH]; intros k; cbn [filterM].
  - intros [= <-]. done.
  - destruct (p x) as [b| |] eqn:Hx; cbn; [|done..].
    destruct (filterM p l) as [k'| |]; cbn; [|done..].
    intros [= <-]. destruct (IH k' eq_refl) as [Hsub Hall].
    destruct b.
    + split; [by apply sublist_skip|by apply Forall_cons_2].
    + split; [by apply sublist_cons|done].
Qed.

Lemma filterM_raises {A} (p : A → outcome bool) (l : list A) (x : A) :
  (∀ y, p y ≠ OutOfFuel) →
  x ∈ l → (∃ e, p x = Raises e) → ∃ e, filterM p l = Raises e.
Proof.
  intros Hfuel Hin [e He]. induction l as [|y l IH]; [by apply elem_of_nil in Hin|].
  cbn [filterM].
  destruct (p y) as [b|e'|] eqn:Hy; cbn; [|by eexists|by destruct (Hfuel y)].
  apply elem_of_cons in Hin as [->|Hin]; [congruence|].
  destruct (IH Hin) as [e'' ->]. by eexists.
Qed.

Lemma is_quality_chunk_fuel (chunk : dict) : is_quality_chunk chunk ≠ OutOfFuel.
Proof.
  unfold is_quality_chunk, getitem.
  destruct (chunk !! "text") as [[n|s]|]; done.
Qed.

Lemma sorted_take (l : list (dict * Qc)) (n : nat) :
  StronglySorted Spec.score_ge l → StronglySorted Spec.score_ge (take n l).
Proof.
  intros H. rewrite <- (take_drop n l) in H.
  by apply StronglySorted_app_1_l in H.
Qed.

(** X4: whatever the store holds, when [search_books] returns, the
    pairs are in descending score order, each chunk is a record of the
    store that the quality filter accepts, each score is the adjusted
    similarity of its chunk, and there are no more pairs than records. *)
Theorem X4_search_books_returns_quality_chunks
    (question : string) (chunks : list dict) (top_k : Z)
    (ranked : list (dict * Qc)) :
  search_books question chunks top_k = Returns ranked →
  StronglySorted Spec.score_ge ranked
  ∧ (length ranked ≤ length chunks)%nat
  ∧ ∀ c s, (c, s) ∈ ranked →
           c ∈ chunks
           ∧ is_quality_chunk c = Returns true
           ∧ adjusted_similarity question c = Returns s.
Proof.
  unfold search_books. intros H.
  destruct (filterM is_quality_chunk chunks) as [quality| |] eqn:Hq; [|done..].
  cbn in H.
  destruct (mapM (score_chunk question) quality) as [sims| |] eqn:Hsims;
    [|done..].
  cbn in H. injection H as <-.
  apply filterM_kept in Hq as [Hsub Hall].
  assert (length sims = length quality) as Hlen.
  { clear -Hsims. revert sims Hsims.
    induction quality as [|c quality IH]; intros sims; cbn.
    - by intros [= <-].
    - destruct (score_chunk question c); cbn; [|done..].
      fold (mapM (score_chunk question) quality).
      destruct (mapM (score_chunk question) quality); cbn; [|done..].
      intros [= <-]. cbn. f_equal. by apply IH. }
  split_and!.
  - unfold list_slice_to. apply sorted_take, RetrieverFacts.sort_desc_sorted.
  - unfold list_slice_to. rewrite length_take.
    rewrite (Permutation_length (RetrieverFacts.sort_desc_perm sims)), Hlen.
    apply sublist_length in Hsub. lia.
  - intros c s Hin. apply RetrieverFacts.list_slice_to_subseteq in Hin.
    rewrite RetrieverFacts.sort_desc_perm in Hin.
    destruct (RetrieverFacts.mapM_returns _ _ _ Hsims _ Hin) as (c' & Hc' & Hs).
    unfold score_chunk in Hs.
    destruct (adjusted_similarity question c') as [s'| |] eqn:Hadj; [|done..].
    cbn in Hs. injection Hs as -> ->.
    split_and!; [|by apply (proj1 (list.Forall_forall _ _) Hall)|done].
    eapply sublist_subseteq; [exact Hsub|done].
Qed.

(** A store of one retrievable record, for X4. *)
Lemma X4_search_books_returns_quality_chunks_witness :
  let store : list dict :=
    [ {[ "text" := VStr Examples.child_text; "word_count" := VInt 32 ]} ] in
  ∃ ranked,
    search_books "sentence" store 3 = Returns ranked
    ∧ length ranked = 1%nat
    ∧ StronglySorted Spec.score_ge ranked
    ∧ (length ranked ≤ length store)%nat
    ∧ ∀ c s, (c, s) ∈ ranked →
             c ∈ store
             ∧ is_quality_chunk c = Returns true
             ∧ adjusted_similarity "sentence" c = Returns s.
Proof.
  intros store.
  destruct (search_books "sentence" store 3) as [ranked| |] eqn:Hsearch;
    [|by vm_compute in Hsearch..].
  exists ranked. split; [done|]. split.
  { vm_compute in Hsearch. by injection Hsearch as <-. }
  apply (X4_search_books_returns_quality_chunks "sentence" store 3 ranked).
  exact Hsearch.
Defined.

Lemma filter_raises_without_text (chunks : list dict) (chunk : dict) :
  chunk ∈ chunks →
  chunk !! "text" = None →
  ∃ e, filterM is_quality_chunk chunks = Raises e.
Proof.
  intros Hin Ht.
  apply (filterM_raises is_quality_chunk chunks chunk);
    [apply is_quality_chunk_fuel|done|].
  exists KeyError. unfold is_quality_chunk, getitem. by rewrite Ht.
Qed.

(** X5: one record without a ['text'] key makes [search_books] raise,
    for every question and every [top_k]. *)
Theorem X5_search_books_raises_without_text
    (question : string) (chunks : list dict) (top_k : Z) (chunk : dict) :
  chunk ∈ chunks →
  chunk !! "text" = None →
  ∃ e, search_books question chunks top_k = Raises e.
Proof.
  intros Hin Ht. unfold search_books.
  destruct (filter_raises_without_text chunks chunk Hin Ht) as [e ->].
  by exists e.
Qed.

(** A store whose second record has no text, for X5. *)
Lemma X5_search_books_raises_without_text_witness :
  ∃ e, search_books "mind"
         [{[ "text" := VStr "The embodied mind" ]};
          {[ "chapter" := VStr "One" ]}] 3 = Raises e.
Proof.
  apply (X5_search_books_raises_without_text "mind" _ 3
           {[ "chapter" := VStr "One" ]}).
  - apply list_elem_of_In. cbn. tauto.
  - by vm_compute.
Defined.

End RetrieverMore.

(* ===================================================================== *)
(** * More on the validator and the segmenter *)
(* ===================================================================== *)

Module ProcessorMore.
Import Py Config TextProcessor.

Lemma is_valid_chunk_true (chunk : dict) :
  is_valid_chunk chunk = Returns true →
  Spec.has_counts chunk ∧ Spec.valid_with_fields_present chunk.
Proof.
  unfold is_valid_chunk, getitem. intros H.
  destruct (chunk !! "word_count") as [[wc|?]|] eqn:Hwc; [|done..].
  cbn in H. destruct (Z.ltb_spec wc 10) as [|Hge]; [done|].
  destruct (chunk !! "token_count") as [[tc|?]|] eqn:Htc; [|done..].
  cbn in H. destruct (Z.ltb_spec MAX_CHUNK_SIZE tc) as [|Hle]; [done|].
  injection H as H. cbn in H. rewrite !andb_true_r in H.
  apply andb_prop in H as [Hb H]. apply andb_prop in H as [Hc Ht].
  unfold contains in *. apply bool_decide_eq_true in Hb, Hc, Ht.
  split; [by exists wc, tc|].
  unfold Spec.valid_with_fields_present, Spec.word_count_of,
    Spec.token_count_of. rewrite Hwc, Htc. done.
Qed.

(** X6: whatever the input, when [validate_chunks] returns, the result
    is a sublist of the input, each of its records carries an integer
    [word_count >= 10] and [token_count <= 8000] and the three required
    keys, and validating the result again returns it unchanged. *)
Theorem X6_validate_chunks_result_is_valid (chunks valid : list dict) :
  validate_chunks chunks = Returns valid →
  valid `sublist_of` chunks
  ∧ Forall (λ c, Spec.has_counts c ∧ Spec.valid_with_fields_present c) valid
  ∧ validate_chunks valid = Returns valid.
Proof.
  unfold validate_chunks. intros H.
  apply RetrieverMore.filterM_kept in H as [Hsub Hall].
  split_and!; [done| |].
  - eapply Forall_impl; [exact Hall|]. apply is_valid_chunk_true.
  - rewrite (RetrieverFacts.filterM_pure _ (λ _, true)); [|done].
    f_equal. clear. induction valid as [|c valid IH]; [done|].
    by rewrite filter_cons_True, IH.
Qed.

(** A list of one valid and one short record, for X6. *)
Lemma X6_validate_chunks_result_is_valid_witness :
  let short : dict := <["word_count" := VInt 3]> Examples.untitled_chunk in
  [Examples.untitled_chunk] `sublist_of` [short; Examples.untitled_chunk]
  ∧ Forall (λ c, Spec.has_counts c ∧ Spec.valid_with_fields_present c)
      [Examples.untitled_chunk]
  ∧ validate_chunks [Examples.untitled_chunk]
    = Returns [Examples.untitled_chunk].
Proof.
  intros short.
  apply (X6_validate_chunks_result_is_valid
           [short; Examples.untitled_chunk] [Examples.untitled_chunk]).
  by vm_compute.
Defined.

(** ** Chapters *)

Lemma close_chapter_titles (st : scan) :
  Forall (λ ch, title ch ≠ EmptyString ∧ strip (title ch) = title ch)
    (chapters st) →
  (∀ t, current_chapter st = Some t → strip t = t) →
  Forall (λ ch, title ch ≠ EmptyString ∧ strip (title ch) = title ch)
    (close_chapter st).
Proof.
  intros Hall Hcur. unfold close_chapter, truthy.
  destruct (current_chapter st) as [t|] eqn:Ht; [|done].
  destruct (nonempty t) eqn:Hne; [|done].
  apply Forall_app. split; [done|]. apply Forall_singleton.
  unfold default. cbn [title from_option].
  split; [by destruct t|by apply Hcur].
Qed.

Lemma scan_lines_titles (lines : list string) (st : scan) :
  Forall (λ ch, title ch ≠ EmptyString ∧ strip (title ch) = title ch)
    (chapters st) →
  (∀ t, current_chapter st = Some t → strip t = t) →
  Forall (λ ch, title ch ≠ EmptyString ∧ strip (title ch) = title ch)
    (chapters (scan_lines st lines))
  ∧ (∀ t, current_chapter (scan_lines st lines) = Some t → strip t = t).
Proof.
  revert st. induction lines as [|raw lines IH]; intros st Hall Hcur; [done|].
  rewrite SegmenterFacts.scan_lines_cons. apply IH; unfold scan_line.
  - destruct (nonempty (strip raw)); [|done].
    destruct (first_match chapter_patterns (strip raw)); cbn; [|done].
    by apply close_chapter_titles.
  - destruct (nonempty (strip raw)); [|done].
    destruct (first_match chapter_patterns (strip raw)); cbn; [|done].
    intros t [= <-]. apply PyFacts.strip_idem.
Qed.

(** X7: for every document, each chapter that [extract_chapters] emits
    has a title that is not empty and carries no surrounding
    whitespace; a heading whose captured title is blank opens no
    chapter. *)
Theorem X7_extract_chapters_titles_nonempty (text : string) :
  Forall (λ ch, title ch ≠ EmptyString ∧ strip (title ch) = title ch)
    (extract_chapters text).
Proof.
  unfold extract_chapters.
  destruct (scan_lines_titles (split_char LF text) (Scan None [] []))
    as [Hall Hcur]; [done|done|].
  by apply close_chapter_titles.
Qed.

End ProcessorMore.

Module ChunkerMore.
Import Py Config TextProcessor SpecMore.

Lemma plain_window_end (text : string) (chunk_size start : Z) :
  plain text → 0 ≤ start →
  window_end text chunk_size start = Returns (start + chunk_size).
Proof.
  intros Hplain Hstart.
  destruct (Z.lt_ge_cases (start + chunk_size) (len text)).
  - apply ChunkerFacts.window_end_without_punctuation; [done..|].
    intros j c _. apply Hplain.
  - unfold window_end. by destruct (Z.ltb_spec (start + chunk_size) (len text)); [lia|].
Qed.

Lemma plain_chunks_cons (text : string) (chunk_size overlap k r : Z) :
  0 < r →
  plain_chunks text chunk_size overlap k r
  = (if 50 <? len (plain_window text chunk_size overlap k)
     then [plain_window text chunk_size overlap k] else [])
    ++ plain_chunks text chunk_size overlap (k + 1) (r - 1).
Proof.
  intros Hr. unfold plain_chunks. rewrite seqZ_cons by done.
  rewrite fmap_cons, filter_cons.
  replace (Z.succ k) with (k + 1) by lia. replace (Z.pred r) with (r - 1) by lia.
  destruct (Z.ltb_spec 50 (len (plain_window text chunk_size overlap k)));
    by case_decide; try lia.
Qed.

Lemma bind_returns {A B} (x : A) (f : A → outcome B) : Returns x ≫= f = f x.
Proof. done. Qed.

(** The loop when no window end is moved back to a sentence ending. *)
Lemma plain_loop (text : string) (chunk_size overlap : Z) :
  (∀ start, 0 ≤ start →
            window_end text chunk_size start = Returns (start + chunk_size)) →
  overlap < chunk_size →
  ∀ (r : nat) (k : Z) (chunks : list string) (fuel : nat),
    0 ≤ k →
    (k + Z.of_nat r) * (chunk_size - overlap) < len text →
    len text ≤ (k + Z.of_nat r + 1) * (chunk_size - overlap) →
    (r < fuel)%nat →
    chunk_loop fuel text chunk_size overlap (k * (chunk_size - overlap)) chunks
    = Returns (chunks ++ plain_chunks text chunk_size overlap k (Z.of_nat r + 1)).
Proof.
  intros Hplain Hlt r.
  induction r as [|r IH]; intros k chunks fuel Hk Hlo Hhi Hfuel;
    (destruct fuel as [|fuel]; [lia|]);
    rewrite ChunkerFacts.chunk_loop_unfold; unfold chunk_iter;
    (destruct (Z.ltb_spec (k * (chunk_size - overlap)) (len text)); [|nia]);
    rewrite Hplain by nia; rewrite bind_returns;
    rewrite plain_chunks_cons by lia; fold (plain_window text chunk_size overlap k).
  - destruct (Z.leb_spec (len text)
                (k * (chunk_size - overlap) + chunk_size - overlap)); [|nia].
    rewrite bind_returns.
    replace (Z.of_nat 0 + 1 - 1) with 0 by lia.
    unfold plain_chunks at 1. rewrite seqZ_nil by done. cbn.
    rewrite app_nil_r.
    by destruct (50 <? len (plain_window text chunk_size overlap k));
      rewrite ?app_nil_r.
  - destruct (Z.leb_spec (len text)
                (k * (chunk_size - overlap) + chunk_size - overlap)); [nia|].
    replace (k * (chunk_size - overlap) + chunk_size - overlap)
      with ((k + 1) * (chunk_size - overlap)) by lia.
    rewrite bind_returns, (IH (k + 1)); [|lia|nia|nia|lia].
    replace (Z.of_nat (S r) + 1 - 1) with (Z.of_nat r + 1) by lia.
    by destruct (50 <? len (plain_window text chunk_size overlap k));
      rewrite <- ?app_assoc, ?app_nil_r.
Qed.

Lemma window_count_bounds (n step : Z) :
  0 < n → 0 < step →
  ((n + step - 1) / step - 1) * step < n ≤ (n + step - 1) / step * step.
Proof.
  intros Hn Hstep.
  pose proof (Z.div_mod (n + step - 1) step ltac:(lia)) as Hdiv.
  pose proof (Z.mod_pos_bound (n + step - 1) step Hstep) as Hmod.
  nia.
Qed.

(** X8: on a text without [.], [!] and [?] that is not blank, and with
    [overlap < chunk_size], [chunk_text] returns, in order, the trimmed
    windows [text[k*step : k*step + chunk_size]] for
    [step = chunk_size - overlap] and [k = 0 .. ceil(len(text)/step) - 1],
    those of more than 50 characters; one iteration per window is
    enough. *)
Theorem X8_chunk_text_steps_through_plain_text
    (text : string) (chunk_size overlap : Z) (fuel : nat) :
  plain text →
  strip text ≠ EmptyString →
  overlap < chunk_size →
  (len text + (chunk_size - overlap) - 1) / (chunk_size - overlap)
  ≤ Z.of_nat fuel →
  chunk_text fuel text chunk_size overlap
  = Returns (plain_chunks text chunk_size overlap 0
               ((len text + (chunk_size - overlap) - 1)
                / (chunk_size - overlap))).
Proof.
  intros Hplain Hblank Hlt Hfuel.
  pose proof (ChunkerFacts.strip_nonblank_len text Hblank) as Hlen.
  pose proof (window_count_bounds (len text) (chunk_size - overlap)
                Hlen ltac:(lia)) as [Hlo Hhi].
  set (n := (len text + (chunk_size - overlap) - 1) / (chunk_size - overlap)) in *.
  assert (0 < n) as Hn by nia.
  unfold chunk_text. destruct (strip text); [done|].
  change 0 with (0 * (chunk_size - overlap)) at 1.
  rewrite (plain_loop text chunk_size overlap
             (λ start, plain_window_end text chunk_size start Hplain) Hlt
             (Z.to_nat (n - 1)) 0 []);
    [|lia|nia|nia|lia].
  cbn [app]. do 2 f_equal. lia.
Qed.

(** A paragraph of 3000 letters with the configured sizes, for X8. *)
Lemma X8_chunk_text_steps_through_plain_text_witness :
  chunk_text 4 (Examples.repeat_char "a" 3000) CHUNK_SIZE CHUNK_OVERLAP
  = Returns (plain_chunks (Examples.repeat_char "a" 3000)
               CHUNK_SIZE CHUNK_OVERLAP 0
               ((len (Examples.repeat_char "a" 3000)
                 + (CHUNK_SIZE - CHUNK_OVERLAP) - 1)
                / (CHUNK_SIZE - CHUNK_OVERLAP))).
Proof.
  apply (X8_chunk_text_steps_through_plain_text
           (Examples.repeat_char "a" 3000) CHUNK_SIZE CHUNK_OVERLAP 4).
  - intros j c Hc. unfold index in Hc.
    destruct (_ && _); [|done].
    destruct (String.get _ _) as [c'|] eqn:Hget; [|done].
    injection Hc as ->.
    assert (c = "a"%char) as ->; [|done].
    revert Hget. generalize (Z.to_nat (if j <? 0 then j + len (Examples.repeat_char "a" 3000) else j)).
    generalize 3000%nat. intros m. induction m as [|m IH]; intros i; [done|].
    destruct i as [|i]; cbn; [by intros [= <-]|apply IH].
  - by vm_compute.
  - by vm_compute.
  - by vm_compute.
Defined.

(** ** A text that fits into one window *)

Lemma short_window_end (text : string) (chunk_size start : Z) :
  len text ≤ chunk_size → 0 ≤ start →
  window_end text chunk_size start = Returns (start + chunk_size).
Proof.
  intros Hshort Hstart. unfold window_end.
  by destruct (Z.ltb_spec (start + chunk_size) (len text)); [lia|].
Qed.

Lemma substring_all (s : string) (n : nat) :
  (String.length s ≤ n)%nat → String.substring 0 n s = s.
Proof.
  revert n. induction s as [|c s IH]; intros n Hn; [by destruct n|].
  destruct n as [|n]; cbn in *; [lia|]. rewrite IH; [done|lia].
Qed.

Lemma slice_all (s : string) (b : Z) : len s ≤ b → slice s 0 b = s.
Proof.
  intros Hb. unfold slice, clamp, len in *.
  destruct (Z.ltb_spec 0 0); [lia|]. destruct (Z.ltb_spec b 0); [lia|].
  rewrite (Z.min_l 0), (Z.min_r b) by lia. rewrite Z.sub_0_r, Nat2Z.id.
  by apply substring_all.
Qed.

Lemma slice_to_end (s : string) (a b : Z) :
  len s ≤ b → slice s a b = slice s a (len s).
Proof.
  intros Hb. unfold slice, clamp, len in *.
  destruct (Z.ltb_spec b 0); [lia|].
  destruct (Z.ltb_spec (Z.of_nat (String.length s)) 0); [lia|].
  by rewrite (Z.min_r b), Z.min_id by lia.
Qed.

(** X23: a text that is not blank and no longer than [chunk_size] is
    never cut at a sentence ending.  When it is no longer than
    [chunk_size - overlap], [chunk_text] returns the trimmed text alone;
    when it is longer than that (and at most twice as long), the loop
    runs once more and the trimmed tail [text[chunk_size - overlap:]]
    comes back as a second chunk.  In both cases a chunk of at most 50
    characters is left out. *)
Theorem X23_chunk_text_on_a_text_of_one_window
    (text : string) (chunk_size overlap : Z) (fuel : nat) :
  strip text ≠ EmptyString →
  len text ≤ chunk_size →
  overlap < chunk_size →
  (2 ≤ fuel)%nat →
  (len text ≤ chunk_size - overlap →
   chunk_text fuel text chunk_size overlap
   = Returns (filter (λ c, 50 < len c) [strip text]))
  ∧ (chunk_size - overlap < len text ≤ 2 * (chunk_size - overlap) →
     chunk_text fuel text chunk_size overlap
     = Returns (filter (λ c, 50 < len c)
                  [strip text;
                   strip (slice text (chunk_size - overlap) (len text))])).
Proof.
  intros Hblank Hshort Hlt Hfuel.
  pose proof (ChunkerFacts.strip_nonblank_len text Hblank) as Hlen.
  assert (plain_window text chunk_size overlap 0 = strip text) as Hw0.
  { unfold plain_window. rewrite Z.mul_0_l, Z.add_0_l. by rewrite slice_all. }
  assert (plain_window text chunk_size overlap 1
          = strip (slice text (chunk_size - overlap) (len text))) as Hw1.
  { unfold plain_window. rewrite Z.mul_1_l. by rewrite slice_to_end by lia. }
  unfold chunk_text. destruct (strip text) eqn:Hstrip; [done|].
  rewrite <- Hstrip in *. clear Hstrip.
  split; intros Hcase;
    change (chunk_loop fuel text chunk_size overlap 0 [])
      with (chunk_loop fuel text chunk_size overlap
              (0 * (chunk_size - overlap)) []).
  - rewrite (plain_loop text chunk_size overlap
               (λ start, short_window_end text chunk_size start Hshort) Hlt 0 0 []); [|lia..].
    cbn [app]. unfold plain_chunks.
    change (seqZ 0 (Z.of_nat 0 + 1)) with [0]. cbn [fmap list_fmap].
    by rewrite Hw0.
  - rewrite (plain_loop text chunk_size overlap
               (λ start, short_window_end text chunk_size start Hshort) Hlt 1 0 []); [|lia..].
    cbn [app]. unfold plain_chunks.
    change (seqZ 0 (Z.of_nat 1 + 1)) with [0; 1]. cbn [fmap list_fmap].
    by rewrite Hw0, Hw1.
Qed.

(** A text of 900 letters with the configured sizes, for X23. *)
Lemma X23_chunk_text_on_a_text_of_one_window_witness :
  let text := Examples.repeat_char "a" 900 in
  (len text ≤ CHUNK_SIZE - CHUNK_OVERLAP →
   chunk_text 2 text CHUNK_SIZE CHUNK_OVERLAP
   = Returns (filter (λ c, 50 < len c) [strip text]))
  ∧ (CHUNK_SIZE - CHUNK_OVERLAP < len text ≤ 2 * (CHUNK_SIZE - CHUNK_OVERLAP) →
     chunk_text 2 text CHUNK_SIZE CHUNK_OVERLAP
     = Returns (filter (λ c, 50 < len c)
                  [strip text;
                   strip (slice text (CHUNK_SIZE - CHUNK_OVERLAP) (len text))])).
Proof.
  intros text.
  apply (X23_chunk_text_on_a_text_of_one_window text CHUNK_SIZE CHUNK_OVERLAP 2).
  - by vm_compute.
  - by vm_compute.
  - by vm_compute.
  - lia.
Defined.

End ChunkerMore.

(* ===================================================================== *)
(** * The interactive search *)
(* ===================================================================== *)

Module InteractiveFacts.
Import Py ApiServer.

Lemma similarity_pair_text (question : string) (chunk : dict) :
  SpecMore.has_text chunk →
  InteractiveRag.similarity_pair question chunk
  = Returns (chunk, simple_text_similarity question (Spec.text_of chunk)).
Proof.
  intros [text Ht]. unfold InteractiveRag.similarity_pair, Spec.text_of, getitem.
  by rewrite Ht.
Qed.

Lemma take_head {A} (x : A) (l : list A) (k : Z) :
  1 ≤ k → ∃ l', list_slice_to (x :: l) k = x :: l'.
Proof.
  intros Hk. rewrite RetrieverFacts.list_slice_to_nonneg by lia.
  destruct (Z.to_nat k) as [|n] eqn:Hn; [lia|]. by eexists.
Qed.

(** The head of a descending list of non-negative scores is 0 exactly
    when every score is. *)
Lemma sorted_head_zero (x : dict * Qc) (l : list (dict * Qc)) :
  StronglySorted Spec.score_ge (x :: l) →
  Forall (λ p, (Q2Qc 0 ≤ p.2)%Qc) (x :: l) →
  x.2 = Q2Qc 0 ↔ Forall (λ p, p.2 = Q2Qc 0) (x :: l).
Proof.
  intros Hs Hpos. split.
  - intros Hx. apply list.Forall_forall. intros y Hy.
    apply Qcle_antisym.
    + rewrite <- Hx. by apply (RetrieverFacts.sorted_head_ge x y l).
    + by apply (proj1 (list.Forall_forall _ _) Hpos).
  - intros H. by apply Forall_inv in H.
Qed.

(** X9: in the interactive loop, for a store whose records hold a text
    and a [top_k >= 1], the search returns, and the report that nothing
    relevant was found is given exactly when no record of the store
    shares a lowercase word with the question. *)
Theorem X9_nothing_found_iff_no_shared_word
    (question : string) (chunks : list dict) (top_k : Z) :
  1 ≤ top_k →
  Forall SpecMore.has_text chunks →
  ∃ results,
    InteractiveRag.search_books question chunks top_k = Returns results
    ∧ (InteractiveRag.nothing_found results = true
       ↔ ∀ c, c ∈ chunks →
              word_set question ∩ word_set (Spec.text_of c) = ∅).
Proof.
  intros Hk Htyped. unfold InteractiveRag.search_books.
  rewrite (RetrieverFacts.mapM_pure _
             (λ c, (c, simple_text_similarity question (Spec.text_of c))));
    [|eapply Forall_impl; [exact Htyped|apply similarity_pair_text]].
  cbn. eexists. split; [done|].
  set (sims := (λ c, (c, simple_text_similarity question (Spec.text_of c)))
                 <$> chunks).
  pose proof (RetrieverFacts.sort_desc_perm sims) as Hperm.
  pose proof (RetrieverFacts.sort_desc_sorted sims) as Hsorted.
  assert (Forall (λ p : dict * Qc, (Q2Qc 0 ≤ p.2)%Qc) (sort_desc sims)) as Hpos.
  { rewrite Hperm. subst sims. apply Forall_fmap, list.Forall_forall.
    intros c _. apply RetrieverMore.similarity_range. }
  assert (Forall (λ p : dict * Qc, p.2 = Q2Qc 0) (sort_desc sims)
          ↔ ∀ c, c ∈ chunks →
                 word_set question ∩ word_set (Spec.text_of c) = ∅) as Hall.
  { rewrite Hperm. subst sims. rewrite Forall_fmap, list.Forall_forall.
    split; intros H c Hc; apply RetrieverMore.similarity_zero_iff, (H c Hc). }
  destruct (sort_desc sims) as [|x l] eqn:Hsort.
  - rewrite <- Hall. unfold list_slice_to. rewrite take_nil. by split.
  - destruct (take_head x l top_k Hk) as [l' ->].
    rewrite <- Hall, <- (sorted_head_zero x l Hsorted Hpos).
    cbn. destruct x as [c s]. apply bool_decide_eq_true.
Qed.

(** A store of two records and a question that shares a word with the
    second, for X9. *)
Lemma X9_nothing_found_iff_no_shared_word_witness :
  let store : list dict :=
    [ {[ "text" := VStr "The embodied mind" ]};
      {[ "text" := VStr "A unified life" ]} ] in
  ∃ results,
    InteractiveRag.search_books "what is life" store 1 = Returns results
    ∧ (InteractiveRag.nothing_found results = true
       ↔ ∀ c, c ∈ store →
              word_set "what is life" ∩ word_set (Spec.text_of c) = ∅).
Proof.
  intros store.
  apply (X9_nothing_found_iff_no_shared_word "what is life" store 1); [lia|].
  repeat constructor; eexists; reflexivity.
Defined.

End InteractiveFacts.

(* ===================================================================== *)
(** * Whitespace: trimming and splitting *)
(* ===================================================================== *)

Module WordFacts.
Import Py.

Lemma lstrip_snoc_space (s : string) (c : ascii) :
  is_space c = true →
  lstrip (s +:+ String c EmptyString)
  = match lstrip s with
    | EmptyString => EmptyString
    | u => u +:+ String c EmptyString
    end.
Proof.
  intros Hc. induction s as [|x s IH].
  - rewrite PyFacts.app_nil_l. cbn [lstrip]. by rewrite Hc.
  - rewrite PyFacts.app_cons. cbn [lstrip].
    destruct (is_space x); [done|]. by rewrite PyFacts.app_cons.
Qed.

Lemma rstrip_cons_space (c : ascii) (s : string) :
  is_space c = true →
  rstrip (String c s)
  = match rstrip s with
    | EmptyString => EmptyString
    | u => String c u
    end.
Proof.
  intros Hc. unfold rstrip.
  rewrite PyFacts.rev_cons, lstrip_snoc_space by done.
  destruct (lstrip (String.rev s)) as [|x u] eqn:Hu; [done|].
  rewrite PyFacts.rev_snoc.
  destruct (String.rev (String x u)) as [|y v] eqn:Hr; [|done].
  apply (f_equal String.rev) in Hr. rewrite PyFacts.rev_involutive in Hr.
  discriminate Hr.
Qed.

Lemma runs_go_lstrip (cur s : string) :
  cur = EmptyString →
  runs_go (λ c, negb (is_space c)) cur (lstrip s)
  = runs_go (λ c, negb (is_space c)) cur s.
Proof.
  intros ->. induction s as [|c s IH]; [done|]. cbn [lstrip runs_go].
  destruct (is_space c) eqn:Hc; cbn [negb]; [done|].
  cbn [runs_go]. by rewrite Hc.
Qed.

Lemma runs_go_space (cur : string) (c : ascii) (s : string) :
  is_space c = true →
  runs_go (λ c, negb (is_space c)) cur (String c s)
  = match cur with
    | EmptyString => runs_go (λ c, negb (is_space c)) EmptyString s
    | _ => String.rev cur :: runs_go (λ c, negb (is_space c)) EmptyString s
    end.
Proof. intros Hc. cbn [runs_go]. by rewrite Hc. Qed.

Lemma runs_go_rstrip (cur s : string) :
  runs_go (λ c, negb (is_space c)) cur (rstrip s)
  = runs_go (λ c, negb (is_space c)) cur s.
Proof.
  revert cur. induction s as [|c s IH]; intros cur; [done|].
  destruct (is_space c) eqn:Hc.
  - rewrite rstrip_cons_space by done.
    rewrite (runs_go_space cur c s) by done.
    destruct (rstrip s) as [|x u] eqn:Hu.
    + rewrite <- (IH EmptyString). by destruct cur.
    + rewrite (runs_go_space cur c (String x u)) by done.
      by rewrite <- (IH EmptyString).
  - rewrite PyFacts.rstrip_cons by done. cbn [runs_go]. rewrite Hc. cbn [negb].
    apply IH.
Qed.

(** [s.strip().split() == s.split()] *)
Lemma split_ws_strip (s : string) : split_ws (strip s) = split_ws s.
Proof.
  unfold split_ws, runs, strip.
  rewrite runs_go_rstrip. by apply runs_go_lstrip.
Qed.

End WordFacts.

(* ===================================================================== *)
(** * The answer and the chat handler *)
(* ===================================================================== *)

Module AnswerFacts.
Import Py ApiServer Answer.

Lemma search_books_typed (question : string) (chunks : list dict) (top_k : Z) :
  Forall Spec.chunk_typed chunks →
  search_books question chunks top_k
  = Returns (list_slice_to
               (sort_desc ((λ c, (c, Spec.boosted_score question c))
                             <$> filter (λ c, Spec.is_retrievable c = true)
                                   chunks))
               top_k).
Proof.
  intros Htyped. unfold search_books.
  rewrite (RetrieverFacts.filterM_pure _ Spec.is_retrievable).
  2:{ eapply Forall_impl; [exact Htyped|].
      apply RetrieverFacts.is_quality_chunk_typed. }
  cbn.
  rewrite (RetrieverFacts.mapM_pure _ (λ c, (c, Spec.boosted_score question c))).
  2:{ apply list.Forall_forall. intros c [_ Hc]%list_elem_of_filter.
      unfold score_chunk.
      rewrite RetrieverFacts.adjusted_similarity_typed; [done|].
      by eapply (proj1 (list.Forall_forall _ _) Htyped). }
  done.
Qed.

Lemma ranked_elem (question : string) (chunks : list dict) (top_k : Z)
    (p : dict * Qc) :
  p ∈ list_slice_to
        (sort_desc ((λ c, (c, Spec.boosted_score question c))
                      <$> filter (λ c, Spec.is_retrievable c = true) chunks))
        top_k →
  p.1 ∈ chunks ∧ Spec.is_retrievable p.1 = true
  ∧ p.2 = Spec.boosted_score question p.1.
Proof.
  intros Hp. apply RetrieverFacts.list_slice_to_subseteq in Hp.
  rewrite RetrieverFacts.sort_desc_perm in Hp.
  apply list_elem_of_fmap in Hp as (c & -> & Hc).
  apply list_elem_of_filter in Hc as [Hq Hc]. done.
Qed.

Lemma filter_nil_iff {A} (P : A → Prop) `{∀ x, Decision (P x)} (l : list A) :
  filter P l = [] ↔ Forall (λ x, ¬ P x) l.
Proof.
  split.
  - intros Hnil. apply list.Forall_forall. intros x Hx HP.
    by apply (filter_nil_not_elem_of P l x Hnil HP).
  - induction 1 as [|x l Hx _ IH]; [done|]. by rewrite filter_cons_False.
Qed.

Lemma quality_text_words (text : string) :
  is_quality_text text = true → 30 ≤ Z.of_nat (length (split_ws text)).
Proof.
  unfold is_quality_text.
  repeat match goal with
         | |- context [if ?b then false else _] => destruct b; [done|]
         end.
  intros H. by apply Z.leb_le in H.
Qed.

Lemma counts_its_words_typed (chunk : dict) :
  SpecMore.counts_its_words chunk → Spec.chunk_typed chunk.
Proof. intros (text & Ht & Hwc). split; [by exists text|right; by eexists]. Qed.

Lemma f0_1_lt_boosted (s : Qc) : (Q2Qc 0 ≤ s)%Qc → (f0_1 < s + f0_3)%Qc.
Proof.
  intros Hs. apply Qclt_le_trans with (Q2Qc 0 + f0_3)%Qc; [done|].
  by apply Qcplus_le_compat; [|apply Qcle_refl].
Qed.

(** The score of a retrievable record that counts its words. *)
Lemma boosted_score_capped (question : string) (chunk : dict) :
  SpecMore.counts_its_words chunk →
  Spec.is_retrievable chunk = true →
  Spec.boosted_score question chunk
  = (simple_text_similarity question (Spec.text_of chunk) + f0_3)%Qc.
Proof.
  intros (text & Ht & Hwc) Hq.
  unfold Spec.boosted_score, Spec.is_retrievable, Spec.word_count_of,
    Spec.text_of in *.
  rewrite Ht in *. rewrite Hwc. f_equal.
  apply quality_text_words in Hq. rewrite WordFacts.split_ws_strip in Hq.
  by apply (RetrieverMore.boost_bounds (Z.of_nat (length (split_ws text))));
    [lia|].
Qed.

(** X10: on a store whose records count the words of their text, every
    pair that [search_books] returns carries the full boost: its score
    is the Jaccard similarity plus 0.3 and lies above the 0.1 threshold
    of [generate_answer].  So the first guard of [generate_answer] holds
    only for an empty result, and for [top_k >= 1] the result is empty
    exactly when the quality filter rejects every record: a question
    that shares no word with the store is not told apart. *)
Theorem X10_counted_store_always_passes_the_guards
    (question : string) (chunks : list dict) (top_k : Z) :
  Forall SpecMore.counts_its_words chunks →
  ∃ ranked,
    search_books question chunks top_k = Returns ranked
    ∧ Forall (λ p, p.2 = (simple_text_similarity question (Spec.text_of p.1)
                          + f0_3)%Qc
                   ∧ (f0_1 < p.2)%Qc) ranked
    ∧ (nothing_relevant ranked = true ↔ ranked = [])
    ∧ (1 ≤ top_k →
       ranked = [] ↔ Forall (λ c, is_quality_chunk c = Returns false) chunks).
Proof.
  intros Hcounted.
  assert (Forall Spec.chunk_typed chunks) as Htyped
    by (eapply Forall_impl; [exact Hcounted|apply counts_its_words_typed]).
  rewrite search_books_typed by done. eexists. split; [done|].
  set (scored := (λ c, (c, Spec.boosted_score question c))
                   <$> filter (λ c, Spec.is_retrievable c = true) chunks).
  assert (Forall (λ p : dict * Qc,
            p.2 = (simple_text_similarity question (Spec.text_of p.1) + f0_3)%Qc
            ∧ (f0_1 < p.2)%Qc) (list_slice_to (sort_desc scored) top_k)) as Hall.
  { apply list.Forall_forall. intros p Hp.
    apply ranked_elem in Hp as (Hin & Hq & ->).
    rewrite boosted_score_capped;
      [|by apply (proj1 (list.Forall_forall _ _) Hcounted)|done].
    split; [done|]. apply f0_1_lt_boosted, RetrieverMore.similarity_range. }
  split_and!; [done| |].
  - destruct (list_slice_to (sort_desc scored) top_k) as [|[c s] l]; [done|].
    cbn. apply Forall_inv in Hall as [_ Hs]. cbn in Hs.
    split; [|done]. intros H%bool_decide_eq_true. subst s.
    by vm_compute in Hs.
  - intros Hk.
    assert (sort_desc scored = [] ↔ scored = []) as Hnil.
    { split; intros H.
      - apply Permutation_nil_r. rewrite <- H.
        symmetry. apply RetrieverFacts.sort_desc_perm.
      - by rewrite H. }
    assert (list_slice_to (sort_desc scored) top_k = [] ↔ scored = []) as ->.
    { rewrite <- Hnil. destruct (sort_desc scored) as [|x l];
        [by unfold list_slice_to; rewrite take_nil|].
      destruct (InteractiveFacts.take_head x l top_k Hk) as [l' ->]. done. }
    subst scored.
    assert (∀ l : list dict,
              (λ c, (c, Spec.boosted_score question c)) <$> l = [] ↔ l = [])
      as -> by (intros l; split; [apply fmap_nil_inv|by intros ->]).
    rewrite filter_nil_iff, !list.Forall_forall. split; intros H c Hc.
    + rewrite RetrieverFacts.is_quality_chunk_typed
        by (by apply (proj1 (list.Forall_forall _ _) Htyped)).
      f_equal. specialize (H c Hc). by destruct (Spec.is_retrievable c).
    + specialize (H c Hc).
      rewrite RetrieverFacts.is_quality_chunk_typed in H
        by (by apply (proj1 (list.Forall_forall _ _) Htyped)).
      injection H as ->. done.
Qed.

(** A store of one retrievable record and a question that shares no
    word with it, for X10. *)
Lemma X10_counted_store_always_passes_the_guards_witness :
  let store : list dict :=
    [ {[ "text" := VStr Examples.child_text; "word_count" := VInt 32 ]} ] in
  ∃ ranked,
    search_books "zebra" store 3 = Returns ranked
    ∧ Forall (λ p, p.2 = (simple_text_similarity "zebra" (Spec.text_of p.1)
                          + f0_3)%Qc
                   ∧ (f0_1 < p.2)%Qc) ranked
    ∧ (nothing_relevant ranked = true ↔ ranked = [])
    ∧ (1 ≤ 3 →
       ranked = [] ↔ Forall (λ c, is_quality_chunk c = Returns false) store).
Proof.
  intros store.
  apply (X10_counted_store_always_passes_the_guards "zebra" store 3).
  apply Forall_singleton. exists Examples.child_text. by vm_compute.
Defined.

(** ** The chat handler *)

Lemma search_books_for_raises (question : value) (chunks : list dict)
    (top_k : Z) (chunk : dict) :
  chunk ∈ chunks →
  chunk !! "text" = None →
  ∃ e, search_books_for question chunks top_k = Raises e.
Proof.
  intros Hin Ht.
  destruct (RetrieverMore.filter_raises_without_text chunks chunk Hin Ht)
    as [e He].
  exists e. destruct question; cbn; unfold search_books; by rewrite He.
Qed.

(** X11: one record of the store without a ['text'] key makes [chat]
    answer every request that carries a question with status 500 and
    the internal-error body, whatever the question and whatever the
    other records hold. *)
Theorem X11_chat_fails_on_a_record_without_text
    (chat_completion : string → string → option string)
    (data : dict) (chunks : list dict) (chunk : dict) :
  falsy (get data "question" (VStr EmptyString)) = false →
  chunk ∈ chunks →
  chunk !! "text" = None →
  chat chat_completion (Some data) (Some chunks)
  = Response (Error "Internal server error") 500.
Proof.
  intros Hq Hin Ht. unfold chat, chat_try. rewrite Hq.
  destruct chunks as [|c chunks]; [by apply elem_of_nil in Hin|].
  destruct (search_books_for_raises (get data "question" (VStr EmptyString))
              (c :: chunks) 3 chunk Hin Ht) as [e ->].
  done.
Qed.

(** A store whose second record has no text, for X11. *)
Lemma X11_chat_fails_on_a_record_without_text_witness :
  chat (λ _ _, Some "An answer.")
    (Some {[ "question" := VStr "What is the mind?" ]})
    (Some [ {[ "text" := VStr "The embodied mind" ]};
            {[ "chapter" := VStr "One" ]} ])
  = Response (Error "Internal server error") 500.
Proof.
  apply (X11_chat_fails_on_a_record_without_text _ _ _
           {[ "chapter" := VStr "One" ]}).
  - reflexivity.
  - apply list_elem_of_In. cbn. tauto.
  - reflexivity.
Defined.

Lemma bind_ret {A B} (a : A) (f : A → outcome B) : (Returns a ≫= f) = f a.
Proof. done. Qed.

Lemma context_piece_text (chunk : dict) (text : string) :
  chunk !! "text" = Some (VStr text) →
  context_piece chunk
  = Returns (if 50 <? len (clean_text text) then
               Some (Piece (clean_text text)
                       (get chunk "book_title" (VStr "Unknown"))
                       (get chunk "chapter" (VStr "Unknown")))
             else None).
Proof.
  intros Ht. unfold context_piece, getitem. rewrite Ht.
  rewrite bind_ret.
  change (str_method (VStr text)) with (Returns (A:=string) text).
  rewrite bind_ret. cbv zeta. by destruct (50 <? len (clean_text text)).
Qed.

Lemma context_pieces_returns (relevant_chunks : list (dict * Qc)) :
  Forall (λ p, SpecMore.has_text p.1) relevant_chunks →
  ∃ pieces, context_pieces relevant_chunks = Returns pieces.
Proof.
  induction 1 as [|[chunk s] l [text Ht] _ [pieces IH]]; [by eexists|].
  cbn [context_pieces]. cbn in Ht.
  case_bool_decide; [|by eexists].
  rewrite (context_piece_text chunk text Ht), bind_ret, IH, bind_ret.
  by eexists.
Qed.

Lemma generate_answer_returns
    (chat_completion : string → string → option string)
    (question : value) (relevant_chunks : list (dict * Qc)) :
  Forall (λ p, SpecMore.has_text p.1) relevant_chunks →
  ∃ answer,
    generate_answer chat_completion question relevant_chunks = Returns answer
    ∧ (relevant_chunks = [] → answer = no_thread_reply).
Proof.
  intros Htext. unfold generate_answer.
  destruct relevant_chunks as [|p l]; [by eexists|].
  destruct (nothing_relevant (p :: l)); [by eexists|].
  destruct (context_pieces_returns (p :: l) Htext) as [pieces ->]. cbn.
  destruct pieces; [by eexists|].
  destruct (chat_completion _ _); by eexists.
Qed.

Lemma chat_answers
    (chat_completion : string → string → option string)
    (data : dict) (question : string) (chunks : list dict) :
  data !! "question" = Some (VStr question) →
  question ≠ EmptyString →
  chunks ≠ [] →
  Forall Spec.chunk_typed chunks →
  ∃ answer,
    chat chat_completion (Some data) (Some chunks)
    = Response (Reply answer (VStr question)) 200
    ∧ (Forall (λ c, is_quality_chunk c = Returns false) chunks →
       answer = no_thread_reply).
Proof.
  intros Hq Hne Hstore Htyped. unfold chat, chat_try, get. rewrite Hq.
  cbn [default from_option]. cbv zeta. unfold id.
  assert (falsy (VStr question) = false) as -> by (by destruct question).
  destruct chunks as [|c0 chunks0] eqn:Hchunks; [done|]. rewrite <- Hchunks in *.
  cbn [search_books_for]. rewrite search_books_typed by done.
  set (ranked := list_slice_to _ 3).
  destruct (generate_answer_returns chat_completion (VStr question) ranked)
    as (answer & Hanswer & Hnone).
  { apply list.Forall_forall. intros p Hp.
    apply ranked_elem in Hp as (Hin & _ & _).
    by apply (proj1 (list.Forall_forall _ _) Htyped) in Hin as [Ht _]. }
  cbn. rewrite Hanswer. cbn. exists answer. split; [done|].
  intros Hrej. apply Hnone. subst ranked.
  rewrite (proj2 (filter_nil_iff (λ c, Spec.is_retrievable c = true) chunks));
    [done|].
  apply list.Forall_forall. intros c Hc.
  pose proof (proj1 (list.Forall_forall _ _) Hrej c Hc) as H. cbv beta in H.
  rewrite RetrieverFacts.is_quality_chunk_typed in H
    by (by apply (proj1 (list.Forall_forall _ _) Htyped)).
  injection H as ->. done.
Qed.



End AnswerFacts.

(* ===================================================================== *)
(** * The clean-up of an excerpt *)
(* ===================================================================== *)

Module CleanFacts.
Import Py PyText SpecMore.

Lemma all_chars_app (p : ascii → bool) (a b : string) :
  all_chars p (a +:+ b) = all_chars p a && all_chars p b.
Proof.
  induction a as [|c a IH]; [done|].
  rewrite PyFacts.app_cons. cbn [all_chars]. by rewrite IH, andb_assoc.
Qed.

Lemma all_chars_rev (p : ascii → bool) (s : string) :
  all_chars p (String.rev s) = all_chars p s.
Proof.
  induction s as [|c s IH]; [done|].
  rewrite PyFacts.rev_cons, all_chars_app, IH. cbn [all_chars].
  by rewrite andb_true_r, andb_comm.
Qed.

Lemma all_chars_impl (p q : ascii → bool) (s : string) :
  (∀ c, p c = true → q c = true) →
  all_chars p s = true → all_chars q s = true.
Proof.
  intros Hpq. induction s as [|c s IH]; [done|]. cbn [all_chars].
  intros [Hc Hs]%andb_prop. by rewrite (Hpq c Hc), IH.
Qed.

Lemma all_chars_replace_go (p : ascii → bool) (old new s : string) (skip : nat) :
  all_chars p new = true → all_chars p s = true →
  all_chars p (replace_go old new skip s) = true.
Proof.
  intros Hnew. revert skip. induction s as [|c s IH]; intros skip; [done|].
  cbn [all_chars]. intros [Hc Hs]%andb_prop. cbn [replace_go].
  destruct skip as [|k]; [|by apply IH].
  destruct (String.prefix old (String c s)).
  - by rewrite all_chars_app, Hnew, IH.
  - cbn [all_chars]. by rewrite Hc, IH.
Qed.

Lemma all_chars_intersperse (p : ascii → bool) (new s : string) :
  all_chars p new = true → all_chars p s = true →
  all_chars p (intersperse new s) = true.
Proof.
  intros Hnew. induction s as [|c s IH]; [done|]. cbn [all_chars intersperse].
  intros [Hc Hs]%andb_prop. by rewrite Hc, all_chars_app, Hnew, IH.
Qed.

(** [s.replace(old, new)] brings in no character that is in neither
    [s] nor [new]. *)
Lemma all_chars_replace (p : ascii → bool) (s old new : string) :
  all_chars p new = true → all_chars p s = true →
  all_chars p (replace s old new) = true.
Proof.
  intros Hnew Hs. unfold replace. destruct old.
  - by rewrite all_chars_app, Hnew, all_chars_intersperse.
  - by apply all_chars_replace_go.
Qed.

Lemma all_chars_runs_go (p : ascii → bool) (cur s : string) :
  all_chars p cur = true →
  Forall (λ w, all_chars p w = true) (runs_go p cur s).
Proof.
  revert cur. induction s as [|c s IH]; intros cur Hcur; cbn [runs_go].
  - destruct cur; [done|]. apply Forall_singleton. by rewrite all_chars_rev.
  - destruct (p c) eqn:Hc.
    + apply IH. cbn [all_chars]. by rewrite Hc.
    + destruct cur; [by apply IH|].
      apply Forall_cons_2; [by rewrite all_chars_rev|by apply IH].
Qed.

Lemma all_chars_join (p : ascii → bool) (sep : string) (l : list string) :
  all_chars p sep = true →
  Forall (λ w, all_chars p w = true) l →
  all_chars p (join sep l) = true.
Proof.
  intros Hsep. induction 1 as [|x l Hx Hl IH]; [done|]. cbn [join].
  destruct l as [|y l]; [done|].
  by rewrite !all_chars_app, Hx, Hsep, IH.
Qed.

(** [' '.join(s.split())] holds no whitespace but the plain space. *)
Lemma all_chars_normalized (s : string) :
  all_chars no_break (join " " (split_ws s)) = true.
Proof.
  apply all_chars_join; [done|].
  eapply Forall_impl; [by apply all_chars_runs_go|].
  intros w. apply all_chars_impl. intros c Hc. unfold no_break.
  by rewrite Hc.
Qed.

(** X13: whatever the text of a chunk, the excerpt that
    [generate_answer] builds from it holds no line break, tab or other
    whitespace character than the plain space, so each excerpt of the
    prompt is one line under its [From '...' (Chapter: ...):] header. *)
Theorem X13_clean_text_is_one_line (text : string) :
  all_chars no_break (Answer.clean_text text) = true.
Proof.
  unfold Answer.clean_text.
  repeat (apply all_chars_replace; [done|]).
  apply all_chars_normalized.
Qed.

End CleanFacts.

(* ===================================================================== *)
(** * Lengths *)
(* ===================================================================== *)

Module LengthFacts.
Import Py.

Lemma length_app (a b : string) :
  String.length (a +:+ b) = (String.length a + String.length b)%nat.
Proof.
  induction a as [|c a IH]; [done|]. rewrite PyFacts.app_cons. cbn. by rewrite IH.
Qed.

Lemma length_rev (s : string) : String.length (String.rev s) = String.length s.
Proof.
  induction s as [|c s IH]; [done|].
  rewrite PyFacts.rev_cons, length_app, IH. cbn. lia.
Qed.

Lemma length_lstrip (s : string) :
  (String.length (lstrip s) ≤ String.length s)%nat.
Proof.
  induction s as [|c s IH]; [done|]. cbn [lstrip].
  destruct (is_space c); cbn; lia.
Qed.

Lemma length_strip (s : string) :
  (String.length (strip s) ≤ String.length s)%nat.
Proof.
  unfold strip, rstrip. rewrite length_rev.
  etrans; [apply length_lstrip|]. rewrite length_rev. apply length_lstrip.
Qed.

Lemma length_substring (n m : nat) (s : string) :
  (String.length (String.substring n m s) ≤ String.length s)%nat.
Proof.
  revert n m. induction s as [|c s IH]; intros n m; [by destruct n, m|].
  destruct n as [|n]; cbn.
  - destruct m as [|m]; cbn; [lia|]. specialize (IH 0%nat m). lia.
  - specialize (IH n m). lia.
Qed.

Lemma len_strip (s : string) : len (strip s) ≤ len s.
Proof. unfold len. apply inj_le, length_strip. Qed.

Lemma len_slice (s : string) (a b : Z) : len (slice s a b) ≤ len s.
Proof. unfold len, slice. apply inj_le, length_substring. Qed.

Lemma kept_span_len (text chunk : string) :
  Spec.kept_span text chunk → len chunk ≤ len text ∧ 50 < len chunk
                              ∧ strip chunk = chunk.
Proof.
  intros [(a & b & ->) Hlen]. rewrite PyFacts.strip_idem in *.
  split_and!; [|done..]. etrans; [apply len_strip|apply len_slice].
Qed.

End LengthFacts.

(* ===================================================================== *)
(** * The chapters of a book file *)
(* ===================================================================== *)

Module ChapterFacts.
Import Py TextProcessor SpecMore.

Lemma lines_weight_app (a b : list string) :
  lines_weight (a ++ b) = (lines_weight a + lines_weight b)%nat.
Proof.
  induction a as [|x a IH]; [done|].
  change (lines_weight ((x :: a) ++ b))
    with (S (String.length x) + lines_weight (a ++ b))%nat.
  change (lines_weight (x :: a)) with (S (String.length x) + lines_weight a)%nat.
  rewrite IH. lia.
Qed.

Lemma join_length (l : list string) :
  (String.length (join NL l) ≤ pred (lines_weight l))%nat.
Proof.
  induction l as [|x l IH]; [done|]. destruct l as [|y l].
  - unfold lines_weight. cbn. lia.
  - change (join NL (x :: y :: l)) with (x +:+ NL +:+ join NL (y :: l)).
    rewrite !LengthFacts.length_app.
    change (lines_weight (x :: y :: l))
      with (S (String.length x) + lines_weight (y :: l))%nat.
    assert (1 ≤ lines_weight (y :: l))%nat by (unfold lines_weight; cbn; lia).
    change (String.length NL) with 1%nat. lia.
Qed.

Lemma split_char_go_weight (sep : ascii) (cur s : string) :
  lines_weight (split_char_go sep cur s)
  = S (String.length cur + String.length s).
Proof.
  revert cur. induction s as [|c s IH]; intros cur; cbn [split_char_go].
  - unfold lines_weight. cbn. rewrite LengthFacts.length_rev. lia.
  - destruct (Ascii.eqb c sep).
    + change (lines_weight (String.rev cur :: ?l))
        with (S (String.length (String.rev cur)) + lines_weight l)%nat.
      rewrite IH, LengthFacts.length_rev. cbn. lia.
    + rewrite IH. cbn. lia.
Qed.

(** The state of the line scan holds no more text than the lines read
    so far, whose weight is at most [w]. *)
Lemma close_chapter_length (w : nat) (st : scan) :
  (lines_weight (current_content st) ≤ w)%nat →
  Forall (λ ch, (String.length (content ch) ≤ pred w)%nat) (chapters st) →
  Forall (λ ch, (String.length (content ch) ≤ pred w)%nat) (close_chapter st).
Proof.
  intros Hcur Hall. unfold close_chapter.
  destruct (truthy (current_chapter st)); [|done].
  apply Forall_app. split; [done|]. apply Forall_singleton. cbn [content].
  pose proof (join_length (current_content st)). lia.
Qed.

Lemma scan_line_length (w : nat) (st : scan) (raw : string) :
  (lines_weight (current_content st) ≤ w)%nat →
  Forall (λ ch, (String.length (content ch) ≤ pred w)%nat) (chapters st) →
  (lines_weight (current_content (scan_line st raw))
   ≤ w + S (String.length raw))%nat
  ∧ Forall (λ ch, (String.length (content ch)
                   ≤ pred (w + S (String.length raw)))%nat)
      (chapters (scan_line st raw)).
Proof.
  intros Hcur Hall.
  assert (∀ l : list chapter,
            Forall (λ ch, (String.length (content ch) ≤ pred w)%nat) l →
            Forall (λ ch, (String.length (content ch)
                           ≤ pred (w + S (String.length raw)))%nat) l) as Hmono.
  { intros l Hl. eapply Forall_impl; [exact Hl|]. intros ch Hch. cbv beta in *. lia. }
  unfold scan_line. destruct (nonempty (strip raw)).
  - destruct (first_match chapter_patterns (strip raw)); cbn [current_content chapters].
    + split; [unfold lines_weight; cbn; lia|].
      by apply Hmono, close_chapter_length.
    + split; [|by apply Hmono].
      rewrite lines_weight_app. unfold lines_weight at 2. cbn.
      pose proof (LengthFacts.length_strip raw). lia.
  - split; [lia|by apply Hmono].
Qed.

Lemma scan_lines_length (lines : list string) (w : nat) (st : scan) :
  (lines_weight (current_content st) ≤ w)%nat →
  Forall (λ ch, (String.length (content ch) ≤ pred w)%nat) (chapters st) →
  (lines_weight (current_content (scan_lines st lines))
   ≤ w + lines_weight lines)%nat
  ∧ Forall (λ ch, (String.length (content ch)
                   ≤ pred (w + lines_weight lines))%nat)
      (chapters (scan_lines st lines)).
Proof.
  revert w st. induction lines as [|raw lines IH]; intros w st Hcur Hall.
  - unfold lines_weight. cbn. rewrite Nat.add_0_r. done.
  - rewrite SegmenterFacts.scan_lines_cons.
    destruct (scan_line_length w st raw Hcur Hall) as [Hcur' Hall'].
    destruct (IH _ _ Hcur' Hall') as [H1 H2].
    change (lines_weight (raw :: lines))
      with (S (String.length raw) + lines_weight lines)%nat.
    rewrite Nat.add_assoc. done.
Qed.

(** No chapter is longer than the document. *)
Lemma extract_chapters_length (text : string) :
  Forall (λ ch, len (content ch) ≤ len text) (extract_chapters text).
Proof.
  unfold extract_chapters.
  destruct (scan_lines_length (split_char LF text) 0 (Scan None [] []))
    as [Hcur Hall]; [done|done|].
  pose proof (close_chapter_length _ _ Hcur Hall) as H.
  unfold split_char in H. rewrite split_char_go_weight in H. cbn in H.
  eapply Forall_impl; [exact H|]. intros ch Hch. cbn in Hch. unfold len. lia.
Qed.

Lemma process_book_file_chapters_length (text : string) :
  Forall (λ ch, len (content ch) ≤ len text) (process_book_file_chapters text).
Proof.
  unfold process_book_file_chapters.
  pose proof (extract_chapters_length text) as H.
  destruct (extract_chapters text); [|done].
  apply Forall_singleton. cbn. lia.
Qed.

End ChapterFacts.

(* ===================================================================== *)
(** * The records of a book file *)
(* ===================================================================== *)

Module BookFileFacts.
Import Py PyText Config TextProcessor BookFile SpecMore.

Lemma chunk_record_lookups (count_tokens : string → Z)
    (book_title chapter_title : string) (chapter_idx : Z)
    (chunk_index : value) (text : string) :
  let r := chunk_record count_tokens book_title chapter_title chapter_idx
             chunk_index text in
  r !! "book_title" = Some (VStr book_title)
  ∧ r !! "chapter" = Some (VStr chapter_title)
  ∧ r !! "chapter_index" = Some (VInt chapter_idx)
  ∧ r !! "chunk_index" = Some chunk_index
  ∧ r !! "text" = Some (VStr text)
  ∧ r !! "word_count" = Some (VInt (Z.of_nat (length (split_ws text))))
  ∧ r !! "token_count" = Some (VInt (count_tokens text)).
Proof. cbv zeta. unfold chunk_record. split_and!; reflexivity. Qed.

Lemma chunk_text_returns (text : string) (chunk_size overlap : Z) (fuel : nat) :
  overlap < chunk_size →
  overlap + 199 ≤ chunk_size ∨ overlap ≤ 1 →
  (Z.to_nat (len text) < fuel)%nat →
  ∃ chunks, chunk_text fuel text chunk_size overlap = Returns chunks
            ∧ Forall (Spec.kept_span text) chunks.
Proof.
  intros Hlt Hroom Hfuel. unfold chunk_text.
  destruct (strip text); [by exists []|].
  apply ChunkerFacts.chunk_loop_terminates; [done|done|done| |done].
  by rewrite Z.sub_0_r.
Qed.

(** A chunk of at most [bound] characters that [chunk_text] keeps. *)
Lemma kept_span_bound (text chunk : string) (bound : Z) :
  len text ≤ bound → Spec.kept_span text chunk →
  len chunk ≤ bound ∧ 50 < len chunk ∧ strip chunk = chunk.
Proof.
  intros Hb (Hlen & Hkept & Hstrip)%LengthFacts.kept_span_len.
  split_and!; [lia|done..].
Qed.

Section Tokens.

Variable count_tokens : string → Z.
Variable book_title : string.

Lemma chunk_record_bounded (chapter_title : string) (chapter_idx : Z)
    (chunk_index : value) (text : string) (bound : Z) :
  0 ≤ chapter_idx → len text ≤ bound → 50 < len text → strip text = text →
  bounded_record count_tokens book_title bound
    (chunk_record count_tokens book_title chapter_title
                   chapter_idx chunk_index text).
Proof.
  intros Hidx Hb Hlen Hstrip.
  destruct (chunk_record_lookups count_tokens book_title chapter_title
              chapter_idx chunk_index text)
    as (H1 & H2 & H3 & H4 & H5 & H6 & H7).
  split.
  - by exists chapter_title, chapter_idx, chunk_index, text.
  - unfold Spec.text_of. by rewrite H5.
Qed.

Lemma sub_records_bounded (chapter_title : string)
    (chapter_idx chunk_idx sub_idx : Z) (sub_chunks : list string) (bound : Z) :
  0 ≤ chapter_idx →
  Forall (λ c, len c ≤ bound ∧ 50 < len c ∧ strip c = c) sub_chunks →
  Forall (bounded_record count_tokens book_title bound)
    (sub_records count_tokens book_title chapter_title chapter_idx chunk_idx
       sub_idx sub_chunks).
Proof.
  intros Hidx Hall. revert sub_idx.
  induction Hall as [|c l (Hb & Hlen & Hstrip) _ IH]; intros sub_idx; [done|].
  cbn [sub_records]. apply Forall_cons_2; [|apply IH].
  by apply chunk_record_bounded.
Qed.

Lemma chunk_records_returns (fuel : nat) (chapter_title : string)
    (chapter_idx chunk_idx : Z) (chunk : string) (bound : Z) :
  0 ≤ chapter_idx → (Z.to_nat bound < fuel)%nat →
  len chunk ≤ bound → 50 < len chunk → strip chunk = chunk →
  ∃ records,
    chunk_records count_tokens fuel book_title chapter_title chapter_idx
      chunk_idx chunk = Returns records
    ∧ Forall (bounded_record count_tokens book_title bound) records.
Proof.
  intros Hidx Hfuel Hb Hlen Hstrip. unfold chunk_records.
  destruct (MAX_CHUNK_SIZE <? count_tokens chunk).
  - destruct (chunk_text_returns chunk (CHUNK_SIZE / 2) CHUNK_OVERLAP fuel)
      as (sub_chunks & -> & Hkept); [done|by left|lia|].
    eexists. split; [done|]. apply sub_records_bounded; [done|].
    eapply Forall_impl; [exact Hkept|]. intros c. by apply kept_span_bound.
  - eexists. split; [done|]. apply Forall_singleton.
    by apply chunk_record_bounded.
Qed.

Lemma chapter_records_returns (fuel : nat) (chapter_title : string)
    (chapter_idx chunk_idx : Z) (chapter_chunks : list string) (bound : Z) :
  0 ≤ chapter_idx → (Z.to_nat bound < fuel)%nat →
  Forall (λ c, len c ≤ bound ∧ 50 < len c ∧ strip c = c) chapter_chunks →
  ∃ records,
    chapter_records count_tokens fuel book_title chapter_title chapter_idx
      chunk_idx chapter_chunks = Returns records
    ∧ Forall (bounded_record count_tokens book_title bound) records.
Proof.
  intros Hidx Hfuel Hall. revert chunk_idx.
  induction Hall as [|c l (Hb & Hlen & Hstrip) _ IH]; intros chunk_idx;
    [by eexists|].
  cbn [chapter_records].
  destruct (chunk_records_returns fuel chapter_title chapter_idx chunk_idx c
              bound) as (records & -> & Hrecords); [done..|].
  destruct (IH (chunk_idx + 1)) as (more & -> & Hmore).
  eexists. split; [done|]. by apply Forall_app.
Qed.

Lemma book_records_returns (fuel : nat) (chapter_idx : Z)
    (chapters : list chapter) (bound : Z) :
  0 ≤ chapter_idx → (Z.to_nat bound < fuel)%nat →
  Forall (λ ch, len (content ch) ≤ bound) chapters →
  ∃ records,
    book_records count_tokens fuel book_title chapter_idx chapters
    = Returns records
    ∧ Forall (bounded_record count_tokens book_title bound) records.
Proof.
  intros Hidx Hfuel Hall. revert chapter_idx Hidx.
  induction Hall as [|ch l Hb _ IH]; intros chapter_idx Hidx; [by eexists|].
  cbn [book_records].
  destruct (chunk_text_returns (content ch) CHUNK_SIZE CHUNK_OVERLAP fuel)
    as (chapter_chunks & -> & Hkept); [done|by left|lia|].
  destruct (chapter_records_returns fuel (title ch) chapter_idx 0
              chapter_chunks bound) as (records & Hrec & Hrecords);
    [done|done| |].
  { eapply Forall_impl; [exact Hkept|]. intros c. by apply kept_span_bound. }
  destruct (IH (chapter_idx + 1)) as (more & Hmore & Hmores); [lia|].
  rewrite AnswerFacts.bind_ret, Hrec, AnswerFacts.bind_ret, Hmore.
  eexists. split; [done|]. by apply Forall_app.
Qed.

End Tokens.

Lemma process_book_file_records (count_tokens : string → Z) (fuel : nat)
    (file_path content : string) :
  (Z.to_nat (len content) < fuel)%nat →
  ∃ records,
    process_book_file count_tokens fuel file_path content = Returns records
    ∧ Forall (λ r, processed_record count_tokens (book_title_of file_path) r
                   ∧ len (Spec.text_of r) ≤ len content) records.
Proof.
  intros Hfuel. unfold process_book_file.
  apply book_records_returns; [done|done|].
  apply ChapterFacts.process_book_file_chapters_length.
Qed.

(** X14: given a token counter that is defined on every chunk and fuel
    for more iterations than the file has characters,
    [process_book_file] returns: with the configured sizes 1000 and
    200, and 500 and 200 for the sub-chunks, no chunking loop runs on
    for ever and nothing raises.  Every record carries the seven keys,
    the title derived from the path, a trimmed text of more than 50
    characters that is no longer than the file, and the number of words
    and of tokens of that text; a file of at most 50 characters gives
    no record. *)
Theorem X14_process_book_file_returns_records
    (count_tokens : string → Z) (fuel : nat) (file_path content : string) :
  (Z.to_nat (len content) < fuel)%nat →
  ∃ records,
    process_book_file count_tokens fuel file_path content = Returns records
    ∧ Forall (λ r, processed_record count_tokens (book_title_of file_path) r
                   ∧ len (Spec.text_of r) ≤ len content) records
    ∧ (len content ≤ 50 → records = []).
Proof.
  intros Hfuel.
  destruct (process_book_file_records count_tokens fuel file_path content
              Hfuel) as (records & Hret & Hall).
  exists records. split_and!; [done..|].
  intros Hshort. destruct records as [|r records]; [done|].
  apply Forall_inv in Hall as [(? & ? & ? & text & H) Hlen].
  destruct H as (_ & _ & _ & _ & _ & Ht & _ & _ & H50 & _).
  unfold Spec.text_of in Hlen. rewrite Ht in Hlen. lia.
Qed.

(** The six sentences as the text of a file, for X14. *)
Lemma X14_process_book_file_returns_records_witness :
  ∃ records,
    process_book_file (λ s, len s) 1000 "books/on_mind.txt" Examples.child_text
    = Returns records
    ∧ Forall (λ r, processed_record (λ s, len s)
                     (book_title_of "books/on_mind.txt") r
                   ∧ len (Spec.text_of r) ≤ len Examples.child_text) records
    ∧ (len Examples.child_text ≤ 50 → records = []).
Proof.
  apply (X14_process_book_file_returns_records (λ s, len s) 1000
           "books/on_mind.txt" Examples.child_text).
  apply Nat.ltb_lt. vm_compute. reflexivity.
Defined.

Lemma processed_record_valid (count_tokens : string → Z) (book_title : string)
    (r : dict) :
  processed_record count_tokens book_title r →
  is_valid_chunk r
  = Returns (bool_decide (10 ≤ Spec.word_count_of r
                          ∧ Spec.token_count_of r ≤ MAX_CHUNK_SIZE)).
Proof.
  intros (ch & ci & k & text & Hb & Hc & _ & _ & _ & Ht & Hwc & Htc & _).
  rewrite ValidatorFacts.is_valid_chunk_counted by (by eexists _, _).
  f_equal. apply bool_decide_ext. unfold Spec.valid_with_fields_present.
  rewrite Hb, Hc, Ht. intuition eauto.
Qed.

Lemma validate_processed_records
    (count_tokens : string → Z) (book_title : string) (records : list dict) :
  Forall (processed_record count_tokens book_title) records →
  validate_chunks records
  = Returns (filter (λ r, 10 ≤ Spec.word_count_of r
                          ∧ Spec.token_count_of r ≤ MAX_CHUNK_SIZE) records).
Proof.
  intros Hall. unfold validate_chunks.
  rewrite (RetrieverFacts.filterM_pure _
             (λ r, bool_decide (10 ≤ Spec.word_count_of r
                                ∧ Spec.token_count_of r ≤ MAX_CHUNK_SIZE))).
  - f_equal. apply list_filter_iff. intros r. apply bool_decide_eq_true.
  - eapply Forall_impl; [exact Hall|].
    intros r. apply processed_record_valid.
Qed.

(** X15: on records built by [process_book_file], [validate_chunks]
    does not raise and keeps exactly the records with at least 10 words
    and at most 8000 tokens, in their order; the test for the required
    fields rejects none of them. *)
Theorem X15_validate_chunks_on_processed_records
    (count_tokens : string → Z) (book_title : string) (records : list dict) :
  Forall (processed_record count_tokens book_title) records →
  validate_chunks records
  = Returns (filter (λ r, 10 ≤ Spec.word_count_of r
                          ∧ Spec.token_count_of r ≤ MAX_CHUNK_SIZE) records).
Proof. apply validate_processed_records. Qed.

(** A record of twelve words, for X15. *)
Lemma X15_validate_chunks_on_processed_records_witness :
  let text := "The mind is embodied, and the body is minded, in every act." in
  validate_chunks [chunk_record (λ s, len s) "on_mind" "One" 0 (VInt 0) text]
  = Returns (filter (λ r, 10 ≤ Spec.word_count_of r
                          ∧ Spec.token_count_of r ≤ MAX_CHUNK_SIZE)
               [chunk_record (λ s, len s) "on_mind" "One" 0 (VInt 0) text]).
Proof.
  intros text.
  apply (X15_validate_chunks_on_processed_records (λ s, len s) "on_mind").
  apply Forall_singleton. exists "One", 0, (VInt 0), text.
  split_and!; try reflexivity; done.
Defined.

End BookFileFacts.

(* ===================================================================== *)
(** * The chunks of a list of book files *)
(* ===================================================================== *)

Module BookProcessorFacts.
Import Py PyText Config TextProcessor BookFile BookProcessor SpecMore.

Section Files.

Variable count_tokens : string → Z.
Variable read_book : string → option string.

Lemma file_chunks_returns (fuel : nat) (file_path : string) :
  (∀ content, read_book file_path = Some content →
              (Z.to_nat (len content) < fuel)%nat) →
  ∃ chunks,
    file_chunks count_tokens read_book fuel file_path = Returns chunks
    ∧ (read_book file_path = None → chunks = [])
    ∧ Forall (λ r, processed_record count_tokens (book_title_of file_path) r
                   ∧ 10 ≤ Spec.word_count_of r
                   ∧ Spec.token_count_of r ≤ MAX_CHUNK_SIZE) chunks.
Proof.
  intros Hfuel. unfold file_chunks.
  destruct (read_book file_path) as [content|]; [|by exists []].
  destruct (BookFileFacts.process_book_file_records count_tokens fuel
              file_path content) as (records & -> & Hall); [by apply Hfuel|].
  rewrite AnswerFacts.bind_ret.
  rewrite (BookFileFacts.validate_processed_records count_tokens (book_title_of file_path)).
  2:{ eapply Forall_impl; [exact Hall|]. by intros r [? _]. }
  eexists. split_and!; [done|done|].
  apply list.Forall_forall. intros r [Hr Hin]%list_elem_of_filter.
  split; [|done].
  by apply (proj1 (list.Forall_forall _ _) Hall r Hin).
Qed.

Lemma process_books_returns (fuel : nat) (book_files : list string) :
  (∀ file_path content,
     file_path ∈ book_files → read_book file_path = Some content →
     (Z.to_nat (len content) < fuel)%nat) →
  ∃ chunks,
    process_books count_tokens read_book fuel book_files = Returns chunks
    ∧ process_books count_tokens read_book fuel
        (filter (λ p, is_Some (read_book p)) book_files) = Returns chunks
    ∧ Forall (λ r, (∃ file_path,
                      file_path ∈ book_files
                      ∧ processed_record count_tokens
                          (book_title_of file_path) r)
                   ∧ 10 ≤ Spec.word_count_of r
                   ∧ Spec.token_count_of r ≤ MAX_CHUNK_SIZE) chunks.
Proof.
  induction book_files as [|p l IH]; intros Hfuel; [by exists []|].
  cbn [process_books].
  destruct (file_chunks_returns fuel p) as (chunks & Hret & Hnone & Hall).
  { intros content. apply Hfuel. by left. }
  destruct IH as (more & Hmore & Hfilter & Hmores).
  { intros q content Hq. apply Hfuel. by right. }
  rewrite Hret, AnswerFacts.bind_ret, Hmore, AnswerFacts.bind_ret.
  exists (chunks ++ more). split_and!; [done| |].
  - destruct (read_book p) as [content|] eqn:Hread.
    + rewrite filter_cons_True by (by rewrite Hread).
      cbn [process_books].
      by rewrite Hret, AnswerFacts.bind_ret, Hfilter, AnswerFacts.bind_ret.
    + rewrite filter_cons_False by (rewrite Hread; by intros [? ?]).
      by rewrite (Hnone eq_refl).
  - apply Forall_app. split.
    + eapply Forall_impl; [exact Hall|]. intros r (Hr & Hwc & Htc).
      split; [|done]. exists p. split; [by left|done].
    + eapply Forall_impl; [exact Hmores|].
      intros r ((q & Hq & Hr) & Hwc & Htc).
      split; [|done]. exists q. split; [by right|done].
Qed.

End Files.

(** X16: with a token counter defined on every chunk and fuel for more
    iterations than any readable file has characters, [process_books]
    returns.  A file that cannot be read contributes nothing and does
    not stop the run: the result is that of the readable files alone.
    Every chunk of the result was built from one of the files, has at
    least 10 words and at most 8000 tokens, and records the number of
    words of its own text. *)
Theorem X16_process_books_returns_valid_chunks
    (count_tokens : string → Z) (read_book : string → option string)
    (fuel : nat) (book_files : list string) :
  (∀ file_path content,
     file_path ∈ book_files → read_book file_path = Some content →
     (Z.to_nat (len content) < fuel)%nat) →
  ∃ chunks,
    process_books count_tokens read_book fuel book_files = Returns chunks
    ∧ process_books count_tokens read_book fuel
        (filter (λ p, is_Some (read_book p)) book_files) = Returns chunks
    ∧ Forall (λ r, (∃ file_path,
                      file_path ∈ book_files
                      ∧ processed_record count_tokens
                          (book_title_of file_path) r)
                   ∧ 10 ≤ Spec.word_count_of r
                   ∧ Spec.token_count_of r ≤ MAX_CHUNK_SIZE
                   ∧ counts_its_words r) chunks.
Proof.
  intros Hfuel.
  destruct (process_books_returns count_tokens read_book fuel book_files Hfuel)
    as (chunks & Hret & Hfilter & Hall).
  exists chunks. split_and!; [done..|].
  eapply Forall_impl; [exact Hall|].
  intros r ((p & Hp & Hr) & Hwc & Htc). split_and!; [by exists p|done..|].
  destruct Hr as (? & ? & ? & text & _ & _ & _ & _ & _ & Ht & Hw & _).
  by exists text.
Qed.

(** Two paths, of which only the second can be read, for X16. *)
Lemma X16_process_books_returns_valid_chunks_witness :
  let read_book := λ p : string,
    if String.eqb p "books/on_mind.txt" then Some Examples.child_text
    else None in
  let book_files := ["books/lost.pdf"; "books/on_mind.txt"] in
  ∃ chunks,
    process_books (λ s, len s) read_book 1000 book_files = Returns chunks
    ∧ process_books (λ s, len s) read_book 1000
        (filter (λ p, is_Some (read_book p)) book_files) = Returns chunks
    ∧ Forall (λ r, (∃ file_path,
                      file_path ∈ book_files
                      ∧ processed_record (λ s, len s)
                          (book_title_of file_path) r)
                   ∧ 10 ≤ Spec.word_count_of r
                   ∧ Spec.token_count_of r ≤ MAX_CHUNK_SIZE
                   ∧ counts_its_words r) chunks.
Proof.
  intros read_book book_files.
  apply (X16_process_books_returns_valid_chunks (λ s, len s) read_book 1000
           book_files).
  intros p content _. unfold read_book.
  destruct (String.eqb p "books/on_mind.txt"); [|done].
  intros [= <-]. apply Nat.ltb_lt. vm_compute. reflexivity.
Defined.

End BookProcessorFacts.

(* ===================================================================== *)
(** * Integers and their decimal strings *)
(* ===================================================================== *)

Module NumberFacts.
Import Py PyText SpecMore.

Lemma digits_of_uint (d : Decimal.uint) :
  all_chars is_digit (NilEmpty.string_of_uint d) = true.
Proof. induction d; cbn [NilEmpty.string_of_uint all_chars]; by try rewrite IHd. Qed.

Lemma digits_of_nonneg (n : Z) :
  0 ≤ n → all_chars is_digit (str_of_int n) = true.
Proof.
  intros Hn. unfold str_of_int. destruct n as [|p|p]; [done| |lia].
  cbn [Z.to_int NilZero.string_of_int]. unfold NilZero.string_of_uint.
  destruct (Pos.to_uint p) eqn:Hp; try (rewrite <- Hp; apply digits_of_uint).
  done.
Qed.

Lemma int_digits_acc (d : Decimal.uint) (acc : positive) :
  int_digits (Z.pos acc) true (NilEmpty.string_of_uint d)
  = Some (Z.pos (Pos.of_uint_acc d acc)).
Proof.
  revert acc. induction d; intros acc; [done|..];
    cbn [NilEmpty.string_of_uint int_digits Pos.of_uint_acc];
    (match goal with
     | |- context [is_digit ?c] => change (is_digit c) with true
     end);
    cbv iota; rewrite <- IHd; f_equal; unfold digit_value; cbn; lia.
Qed.

Lemma int_digits_uint (d : Decimal.uint) :
  int_digits 0 true (NilEmpty.string_of_uint d)
  = Some (Z.of_N (Pos.of_uint d)).
Proof.
  induction d; [done|..];
    cbn [NilEmpty.string_of_uint int_digits Pos.of_uint];
    (match goal with
     | |- context [is_digit ?c] => change (is_digit c) with true
     end);
    cbv iota; [exact IHd|..]; apply int_digits_acc.
Qed.

Lemma int_digits_start (d : Decimal.uint) :
  d ≠ Decimal.Nil →
  int_digits 0 false (NilEmpty.string_of_uint d)
  = Some (Z.of_N (Pos.of_uint d)).
Proof.
  intros Hd. rewrite <- int_digits_uint. by destruct d.
Qed.

Lemma lstrip_with_kept (p : ascii → bool) (s : string) :
  all_chars (λ c, negb (p c)) s = true → lstrip_with p s = s.
Proof.
  destruct s as [|c s]; [done|]. cbn [all_chars lstrip_with].
  intros [Hc _]%andb_prop. by destruct (p c).
Qed.

Lemma strip_with_kept (p : ascii → bool) (s : string) :
  all_chars (λ c, negb (p c)) s = true → strip_with p s = s.
Proof.
  intros Hs. unfold strip_with.
  rewrite (lstrip_with_kept p s Hs).
  rewrite lstrip_with_kept by (by rewrite CleanFacts.all_chars_rev).
  apply PyFacts.rev_involutive.
Qed.

Lemma digit_is_no_int_space (c : ascii) :
  is_digit c = true → negb (is_int_space c) = true.
Proof. destruct c as [[] [] [] [] [] [] [] []]; by vm_compute. Qed.

Lemma uint_not_nil (p : positive) : Pos.to_uint p ≠ Decimal.Nil.
Proof.
  intros H. pose proof (DecimalPos.Unsigned.of_to p) as Hp.
  rewrite H in Hp. discriminate Hp.
Qed.

Lemma string_of_uint_nonempty (d : Decimal.uint) :
  d ≠ Decimal.Nil →
  NilZero.string_of_uint d = NilEmpty.string_of_uint d.
Proof. by destruct d. Qed.

Lemma int_of_digits (d : Decimal.uint) :
  d ≠ Decimal.Nil →
  int_of_str (NilEmpty.string_of_uint d) = Some (Z.of_N (Pos.of_uint d)).
Proof.
  intros Hd. unfold int_of_str. rewrite strip_with_kept.
  2:{ eapply CleanFacts.all_chars_impl; [|apply digits_of_uint].
      apply digit_is_no_int_space. }
  rewrite <- (int_digits_start d Hd). by destruct d.
Qed.

(** [int(str(n)) == n] *)
Lemma int_of_str_of_int (n : Z) : int_of_str (str_of_int n) = Some n.
Proof.
  unfold str_of_int. destruct n as [|p|p]; [done|..];
    cbn [Z.to_int NilZero.string_of_int];
    rewrite (string_of_uint_nonempty _ (uint_not_nil p)).
  - rewrite (int_of_digits _ (uint_not_nil p)).
    by rewrite DecimalPos.Unsigned.of_to.
  - unfold int_of_str. rewrite strip_with_kept.
    2:{ cbn [all_chars]. apply andb_true_intro. split; [done|].
        eapply CleanFacts.all_chars_impl; [|apply digits_of_uint].
        apply digit_is_no_int_space. }
    rewrite (int_digits_start _ (uint_not_nil p)).
    by rewrite DecimalPos.Unsigned.of_to.
Qed.


Lemma digit_is_no_underscore (c : ascii) :
  is_digit c = true → negb (Ascii.eqb c "_") = true.
Proof. destruct c as [[] [] [] [] [] [] [] []]; by vm_compute. Qed.

Lemma str_of_int_no_underscore (n : Z) :
  0 ≤ n → no_underscore (str_of_int n) = true.
Proof.
  intros Hn. eapply CleanFacts.all_chars_impl; [|by apply digits_of_nonneg].
  apply digit_is_no_underscore.
Qed.

End NumberFacts.

(* ===================================================================== *)
(** * Datapoint ids *)
(* ===================================================================== *)

Module VertexFacts.
Import Py PyText VertexEmbeddings SpecMore.

Lemma split_char_go_free (sep : ascii) (cur s : string) :
  all_chars (λ c, negb (Ascii.eqb c sep)) s = true →
  split_char_go sep cur s = [String.rev cur +:+ s].
Proof.
  revert cur. induction s as [|c s IH]; intros cur; cbn [all_chars split_char_go].
  - by rewrite PyFacts.app_nil_r.
  - intros [Hc Hs]%andb_prop. destruct (Ascii.eqb c sep); [done|].
    rewrite IH by done. by rewrite PyFacts.rev_cons, PyFacts.app_assoc.
Qed.

Lemma split_char_go_nonempty (sep : ascii) (cur s : string) :
  split_char_go sep cur s ≠ [].
Proof.
  revert cur. induction s as [|c s IH]; intros cur; cbn [split_char_go]; [done|].
  destruct (Ascii.eqb c sep); [done|apply IH].
Qed.

(** The first piece of [a + sep + b] for an [a] without [sep]. *)
Lemma split_char_first (sep : ascii) (a b : string) :
  all_chars (λ c, negb (Ascii.eqb c sep)) a = true →
  split_char sep (a +:+ String sep b) = a :: split_char sep b.
Proof.
  intros Ha. unfold split_char.
  rewrite SegmenterFacts.split_char_go_app.
  by rewrite split_char_go_free.
Qed.

Lemma sep_app (x : string) : "_" +:+ x = String "_" x.
Proof. done. Qed.

Lemma datapoint_id_of (chunk : dict) (book_title chapter_index chunk_index : value) :
  chunk !! "book_title" = Some book_title →
  chunk !! "chapter_index" = Some chapter_index →
  chunk !! "chunk_index" = Some chunk_index →
  datapoint_id chunk
  = Returns (format book_title +:+ "_" +:+ format chapter_index +:+ "_"
             +:+ format chunk_index).
Proof.
  intros Hb Hc Hk. unfold datapoint_id, getitem. by rewrite Hb, Hc, Hk.
Qed.

Lemma format_chunk_index (k : Z) (v : value) :
  chunk_index_of k v →
  ∃ rest, split_char "_" (format v) = str_of_int k :: rest.
Proof.
  intros [Hk [-> | (j & Hj & ->)]]; cbn [format].
  - exists []. unfold split_char. rewrite split_char_go_free; [done|].
    by apply NumberFacts.str_of_int_no_underscore.
  - eexists. unfold BookFile.sub_index. rewrite sep_app.
    apply (split_char_first "_"), NumberFacts.str_of_int_no_underscore, Hk.
Qed.

(** X17: for a record whose book title holds no underscore, the id that
    [upsert_embeddings] gives the datapoint is read back by
    [search_similar] as the same title and the same chapter index.  The
    chunk index comes back as the decimal string of the chunk number;
    for a sub-chunk [k_j] only [k] comes back, so the sub-chunks of a
    chunk are not told apart. *)
Theorem X17_datapoint_id_is_read_back
    (chunk : dict) (book_title : string) (chapter_index k : Z) (v : value) :
  chunk !! "book_title" = Some (VStr book_title) →
  chunk !! "chapter_index" = Some (VInt chapter_index) →
  chunk !! "chunk_index" = Some v →
  no_underscore book_title = true →
  0 ≤ chapter_index →
  chunk_index_of k v →
  ∃ id, datapoint_id chunk = Returns id
        ∧ parse_datapoint_id id
          = Entries book_title chapter_index (str_of_int k).
Proof.
  intros Hb Hc Hv Htitle Hci Hk.
  rewrite (datapoint_id_of chunk _ _ _ Hb Hc Hv). eexists. split; [done|].
  unfold parse_datapoint_id. cbn [format]. rewrite !sep_app.
  rewrite (split_char_first "_") by done.
  rewrite (split_char_first "_")
    by (by apply NumberFacts.str_of_int_no_underscore).
  destruct (format_chunk_index k v Hk) as [rest ->].
  by rewrite NumberFacts.int_of_str_of_int.
Qed.

(** The second sub-chunk of the fourth chunk of a chapter, for X17. *)
Lemma X17_datapoint_id_is_read_back_witness :
  let chunk : dict :=
    {[ "book_title" := VStr "mind"; "chapter_index" := VInt 2;
       "chunk_index" := VStr "3_1" ]} in
  ∃ id, datapoint_id chunk = Returns id
        ∧ parse_datapoint_id id = Entries "mind" 2 (str_of_int 3).
Proof.
  intros chunk.
  apply (X17_datapoint_id_is_read_back chunk "mind" 2 3 (VStr "3_1"));
    try reflexivity; [lia|].
  split; [lia|]. right. exists 1. split; [lia|reflexivity].
Defined.

Lemma app_longer (a b : string) : a ≠ a +:+ String "_" b.
Proof.
  intros H. apply (f_equal String.length) in H.
  rewrite LengthFacts.length_app in H. cbn in H. lia.
Qed.

(** X18: a book title with an underscore is never read back from the
    id: [search_similar] takes the part before the first underscore for
    the title.  When the title is [a_b] with no further underscore and
    [b] is not an integer literal, [int(parts[1])] raises
    [ValueError]. *)
Theorem X18_title_with_underscore_is_not_read_back
    (chunk : dict) (a b : string) (chapter_index chunk_index : value) :
  chunk !! "book_title" = Some (VStr (a +:+ "_" +:+ b)) →
  chunk !! "chapter_index" = Some chapter_index →
  chunk !! "chunk_index" = Some chunk_index →
  no_underscore a = true →
  ∃ id, datapoint_id chunk = Returns id
        ∧ (∀ n k, parse_datapoint_id id ≠ Entries (a +:+ "_" +:+ b) n k)
        ∧ (no_underscore b = true → int_of_str b = None →
           parse_datapoint_id id = ValueError).
Proof.
  intros Hb Hc Hv Ha.
  rewrite (datapoint_id_of chunk _ _ _ Hb Hc Hv). eexists. split; [done|].
  cbn [format]. unfold parse_datapoint_id.
  rewrite !PyFacts.app_assoc, !sep_app.
  rewrite (split_char_first "_" a) by done.
  split.
  - intros n k.
    destruct (split_char "_" _) as [|p1 [|p2 rest]]; [done..|].
    destruct (int_of_str p1); [|done].
    intros [= H _ _]. by apply app_longer in H.
  - intros Hfree Hint. rewrite (split_char_first "_" b) by done.
    destruct (split_char "_" _) as [|p2 rest] eqn:Hsplit.
    + by apply split_char_go_nonempty in Hsplit.
    + by rewrite Hint.
Qed.

(** A chunk of the book [on_mind], for X18. *)
Lemma X18_title_with_underscore_is_not_read_back_witness :
  let chunk : dict :=
    {[ "book_title" := VStr "on_mind"; "chapter_index" := VInt 2;
       "chunk_index" := VInt 3 ]} in
  ∃ id, datapoint_id chunk = Returns id
        ∧ (∀ n k, parse_datapoint_id id ≠ Entries "on_mind" n k)
        ∧ (no_underscore "mind" = true → int_of_str "mind" = None →
           parse_datapoint_id id = ValueError).
Proof.
  intros chunk.
  apply (X18_title_with_underscore_is_not_read_back chunk "on" "mind"
           (VInt 2) (VInt 3)); reflexivity.
Defined.

End VertexFacts.

(* ===================================================================== *)
(** * Batches and embeddings *)
(* ===================================================================== *)

Module EmbeddingFacts.
Import Py VertexEmbeddings.

Lemma batches_go_partition {A} (steps size : nat) (l : list A) :
  (0 < size)%nat → (length l ≤ steps)%nat →
  concat (batches_go steps size l) = l
  ∧ Forall (λ b, (0 < length b ≤ size)%nat) (batches_go steps size l).
Proof.
  intros Hsize. revert l.
  induction steps as [|steps IH]; intros l Hlen.
  - destruct l; [done|cbn in Hlen; lia].
  - destruct l as [|x l]; [done|]. cbn [batches_go].
    destruct (IH (drop size (x :: l))) as [Hcat Hall].
    { rewrite length_drop. cbn in *. lia. }
    split.
    + cbn [concat]. rewrite Hcat. apply take_drop.
    + apply Forall_cons_2; [|done].
      rewrite length_take. cbn [length]. lia.
Qed.

Lemma batches_positive {A} (l : list A) (batch_size : Z) :
  0 < batch_size →
  ∃ bs, batches l batch_size = Some bs
        ∧ concat bs = l
        ∧ Forall (λ b, 0 < Z.of_nat (length b) ≤ batch_size) bs.
Proof.
  intros Hpos. unfold batches.
  destruct (Z.eqb_spec batch_size 0) as [|_]; [lia|].
  destruct (Z.ltb_spec batch_size 0) as [|_]; [lia|].
  destruct (batches_go_partition (length l) (Z.to_nat batch_size) l)
    as [Hcat Hall]; [lia|done|].
  eexists. split_and!; [done..|].
  eapply Forall_impl; [exact Hall|]. intros b Hb. cbv beta in *. lia.
Qed.

(** X19: for a positive batch size the batches of
    [generate_embeddings] are the texts cut in order: their
    concatenation is the list of texts, none is empty and none holds
    more than [batch_size] texts.  A batch size of 0 raises
    [ValueError], and a negative one gives no batch at all. *)
Theorem X19_batches_cut_the_texts {A} (l : list A) (batch_size : Z) :
  (0 < batch_size →
   ∃ bs, batches l batch_size = Some bs
         ∧ concat bs = l
         ∧ Forall (λ b, 0 < Z.of_nat (length b) ≤ batch_size) bs)
  ∧ (batch_size = 0 → batches l batch_size = None)
  ∧ (batch_size < 0 → batches l batch_size = Some []).
Proof.
  split_and!.
  - apply batches_positive.
  - intros ->. done.
  - intros Hneg. unfold batches.
    destruct (Z.eqb_spec batch_size 0) as [|_]; [lia|].
    by destruct (Z.ltb_spec batch_size 0) as [_|]; [|lia].
Qed.

Section Service.

Variable predict : list string → list embedding * bool.

Lemma concat_length_aligned (bs : list (list string)) :
  Forall (λ b, length (batch_embeddings predict b) = length b) bs →
  length (concat (batch_embeddings predict <$> bs)) = length (concat bs).
Proof.
  induction 1 as [|b bs Hb _ IH]; [done|].
  cbn [fmap list_fmap concat]. rewrite !length_app. by rewrite Hb, IH.
Qed.

End Service.

(** X20: when every request either fails before an embedding of its
    response is appended or succeeds with one embedding per text,
    [generate_embeddings] with a positive batch size returns as many
    embeddings as there are texts, as [upsert_embeddings] requires. *)
Theorem X20_generate_embeddings_is_aligned
    (predict : list string → list embedding * bool)
    (texts : list string) (batch_size : Z) :
  0 < batch_size →
  (∀ b, (predict b).2 = true → (predict b).1 = []) →
  (∀ b, (predict b).2 = false → length (predict b).1 = length b) →
  ∃ embeddings,
    generate_embeddings predict texts batch_size = Some embeddings
    ∧ length embeddings = length texts.
Proof.
  intros Hpos Hfail Hok. unfold generate_embeddings.
  destruct (batches_positive texts batch_size Hpos) as (bs & -> & Hcat & _).
  eexists. split; [done|].
  rewrite concat_length_aligned; [by rewrite Hcat|].
  apply list.Forall_forall. intros b _. unfold batch_embeddings.
  specialize (Hfail b). specialize (Hok b).
  destruct (predict b) as [appended [|]]; cbn in *.
  - rewrite Hfail by done. cbn. by rewrite length_fmap.
  - by apply Hok.
Qed.

(** A service that fails on batches of more than one text, for X20. *)
Lemma X20_generate_embeddings_is_aligned_witness :
  let predict := λ b : list string,
    match b with
    | [_] => ([[Q2Qc 1]], false)
    | _ => ([], true)
    end in
  ∃ embeddings,
    generate_embeddings predict ["a"; "b"; "c"] 2 = Some embeddings
    ∧ length embeddings = length ["a"; "b"; "c"].
Proof.
  intros predict.
  apply (X20_generate_embeddings_is_aligned predict ["a"; "b"; "c"] 2).
  - lia.
  - intros [|x [|y b]]; cbn; done.
  - intros [|x [|y b]]; cbn; done.
Defined.

(** X21: when every request fails at once, [generate_embeddings] with
    a positive batch size does not raise: it returns one vector of 768
    zeros for every text. *)
Theorem X21_failed_requests_give_zero_vectors
    (predict : list string → list embedding * bool)
    (texts : list string) (batch_size : Z) :
  0 < batch_size →
  (∀ b, predict b = ([], true)) →
  generate_embeddings predict texts batch_size
  = Some (replicate (length texts) (replicate 768 (Q2Qc 0))).
Proof.
  intros Hpos Hfail. unfold generate_embeddings.
  destruct (batches_positive texts batch_size Hpos) as (bs & -> & Hcat & _).
  cbn. f_equal. rewrite <- Hcat. clear Hcat.
  induction bs as [|b bs IH]; [done|].
  cbn [fmap list_fmap concat]. rewrite length_app, replicate_add, <- IH.
  f_equal. unfold batch_embeddings. rewrite Hfail. cbn [app].
  clear. induction b as [|x b IH]; [done|]. cbn. by rewrite IH.
Qed.

(** Three texts in batches of two, for X21. *)
Lemma X21_failed_requests_give_zero_vectors_witness :
  generate_embeddings (λ _, ([], true)) ["a"; "b"; "c"] 2
  = Some (replicate (length ["a"; "b"; "c"]) (replicate 768 (Q2Qc 0))).
Proof.
  apply (X21_failed_requests_give_zero_vectors (λ _, ([], true))
           ["a"; "b"; "c"] 2); [lia|done].
Defined.

End EmbeddingFacts.

(* ===================================================================== *)
(** * The datapoint ids of a book file *)
(* ===================================================================== *)

Module IdFacts.
Import Py PyText Config TextProcessor BookFile VertexEmbeddings SpecMore.










Section Tokens.

Variable count_tokens : string → Z.
Variable book_title : string.






End Tokens.



End IdFacts.

(* ===================================================================== *)
(** * From the book files to the chat *)
(* ===================================================================== *)

Module PipelineFacts.
Import Py Answer BookProcessor SpecMore.

(** X24: the chunks that [process_books] returns can be served as they
    are.  When there is at least one, [chat] answers every request
    whose question is a non-empty string with status 200 and echoes
    the question; when there is none, [chat] answers with status 500
    and the message that the system is not loaded. *)
Theorem X24_chat_serves_the_chunks_of_process_books
    (count_tokens : string → Z) (read_book : string → option string)
    (chat_completion : string → string → option string)
    (fuel : nat) (book_files : list string) (data : dict) (question : string) :
  (∀ file_path content,
     file_path ∈ book_files → read_book file_path = Some content →
     (Z.to_nat (len content) < fuel)%nat) →
  data !! "question" = Some (VStr question) →
  question ≠ EmptyString →
  ∃ chunks,
    process_books count_tokens read_book fuel book_files = Returns chunks
    ∧ (chunks ≠ [] →
       ∃ answer, chat chat_completion (Some data) (Some chunks)
                 = Response (Reply answer (VStr question)) 200)
    ∧ (chunks = [] →
       chat chat_completion (Some data) (Some chunks)
       = Response (Error "RAG system not loaded") 500).
Proof.
  intros Hfuel Hq Hne.
  destruct (BookProcessorFacts.process_books_returns count_tokens read_book
              fuel book_files Hfuel) as (chunks & Hret & _ & Hall).
  exists chunks. split_and!; [done| |].
  - intros Hstore.
    destruct (AnswerFacts.chat_answers chat_completion data question chunks)
      as (answer & Hanswer & _); [done..| |by exists answer].
    eapply Forall_impl; [exact Hall|].
    intros r ((p & _ & Hr) & _). apply AnswerFacts.counts_its_words_typed.
    destruct Hr as (? & ? & ? & text & _ & _ & _ & _ & _ & Ht & Hw & _).
    by exists text.
  - intros ->. unfold chat, chat_try, get. rewrite Hq. cbn [default from_option].
    cbv zeta. unfold id. by destruct question.
Qed.

(** One readable file and a question, for X24. *)
Lemma X24_chat_serves_the_chunks_of_process_books_witness :
  let read_book := λ p : string,
    if String.eqb p "books/on_mind.txt" then Some Examples.child_text
    else None in
  let data : dict := {[ "question" := VStr "What is a sentence?" ]} in
  ∃ chunks,
    process_books (λ s, len s) read_book 1000 ["books/on_mind.txt"]
    = Returns chunks
    ∧ (chunks ≠ [] →
       ∃ answer, chat (λ _ _, Some "An answer.") (Some data) (Some chunks)
                 = Response (Reply answer (VStr "What is a sentence?")) 200)
    ∧ (chunks = [] →
       chat (λ _ _, Some "An answer.") (Some data) (Some chunks)
       = Response (Error "RAG system not loaded") 500).
Proof.
  intros read_book data.
  apply (X24_chat_serves_the_chunks_of_process_books (λ s, len s) read_book
           (λ _ _, Some "An answer.") 1000 ["books/on_mind.txt"] data
           "What is a sentence?").
  - intros p content _. unfold read_book.
    destruct (String.eqb p "books/on_mind.txt"); [|done].
    intros [= <-]. apply Nat.ltb_lt. vm_compute. reflexivity.
  - reflexivity.
  - discriminate.
Defined.

End PipelineFacts.

(* ===================================================================== *)
(** * What the quality filter rejects *)
(* ===================================================================== *)

Module QualityMore.
Import Py Regex ApiServer SpecMore.

(** ** Searching *)





(** ** Trimming around a word *)


Lemma rev_app (a b : string) :
  String.rev (a +:+ b) = String.rev b +:+ String.rev a.
Proof.
  induction a as [|c a IH]; [by rewrite PyFacts.app_nil_l, PyFacts.app_nil_r|].
  by rewrite PyFacts.app_cons, !PyFacts.rev_cons, IH, PyFacts.app_assoc.
Qed.




(** ** The filter *)









(** ** Lower case *)








End QualityMore.
